(** * Approval-driven learning weights of ruvvector-service

    A shallow embedding of the decision approval handler
    (handlers/approvals.ts), of the decisions handlers
    (handlers/decisions.ts) and of the three tables they read and write
    (decisions, approvals, learning_weights), followed by the properties
    the specification states about them.

    Conventions of the embedding:
    - a JavaScript string is a [string] (a sequence of code units);
    - a JavaScript number or a DOUBLE PRECISION column holding a reward or
      a weight is a rational [Q]: the arithmetic is exact, rounding is
      not modelled;
    - an INTEGER column and a TIMESTAMPTZ column are integers [Z];
    - a table is the list of its rows, in insertion order;
    - a UUID column holds the value of the text it is given, which is
      the text the store prints for it: the same text in lower case;
      identifiers are compared as texts elsewhere, and [uuidv4()] draws
      them in lower case;
    - a JSONB column gives an object back with its keys in the order of
      the store: the shorter key first; the signals of a row are read
      in that order, and an object with keys of its own
      (repos_to_signals) is the list of its entries, which stands for
      the object whatever the order of its keys;
    - a request body is a record of typed fields: a body with a missing
      field or a field of another type fails the schema like the bodies
      the schema checks reject here;
    - a handler is a computation in a small state-and-exception monad
      over the database; the random identifiers, the clock and the
      failure of a store round-trip are inputs of the run. *)

From Stdlib Require Import List String Ascii Bool Arith ZArith QArith Lia Lqa.
From Stdlib Require Import Sorting.Sorted Sorting.Permutation.
Import ListNotations.

Local Open Scope string_scope.
Local Open Scope Z_scope.

(** ** JavaScript strings *)

Module Js.

(** [c.toUpperCase()] on the letters a-z; other code units are kept. *)
Definition upper_char (c : ascii) : ascii :=
  let n := nat_of_ascii c in
  if ((97 <=? n) && (n <=? 122))%nat then ascii_of_nat (n - 32) else c.

Fixpoint toUpperCase (s : string) : string :=
  match s with
  | EmptyString => EmptyString
  | String c s' => String (upper_char c) (toUpperCase s')
  end.

(** [c.toLowerCase()] on the letters A-Z; other code units are kept. *)
Definition lower_char (c : ascii) : ascii :=
  let n := nat_of_ascii c in
  if ((65 <=? n) && (n <=? 90))%nat then ascii_of_nat (n + 32) else c.

Fixpoint toLowerCase (s : string) : string :=
  match s with
  | EmptyString => EmptyString
  | String c s' => String (lower_char c) (toLowerCase s')
  end.

(** [s.substring(0, n)]: the first [n] code units, the whole string
    when it is shorter. *)
Definition substring0 (n : nat) (s : string) : string := substring 0 n s.

(** White space skipped by [trim] and by [parseInt]: the space, the
    controls from tab to carriage return and the no-break space. *)
Definition is_space (c : ascii) : bool :=
  let n := nat_of_ascii c in
  ((n =? 32) || ((9 <=? n) && (n <=? 13)) || (n =? 160))%nat.

Fixpoint trimStart (s : string) : string :=
  match s with
  | EmptyString => EmptyString
  | String c s' => if is_space c then trimStart s' else s
  end.

(** [trimEnd] keeps a character when it is not a space or when something
    is left after it. *)
Fixpoint trimEnd (s : string) : string :=
  match s with
  | EmptyString => EmptyString
  | String c s' =>
      match trimEnd s' with
      | EmptyString => if is_space c then EmptyString else String c EmptyString
      | t => String c t
      end
  end.

Definition trim (s : string) : string := trimEnd (trimStart s).

Definition digit_of (c : ascii) : option Z :=
  let n := nat_of_ascii c in
  if ((48 <=? n) && (n <=? 57))%nat then Some (Z.of_nat (n - 48)) else None.

(** The longest run of decimal digits at the start of [s], read from
    the accumulator [acc]; [seen] tells whether a digit was read. *)
Fixpoint digits (s : string) (seen : bool) (acc : Z) : option Z :=
  match s with
  | EmptyString => if seen then Some acc else None
  | String c s' =>
      match digit_of c with
      | Some d => digits s' true (10 * acc + d)
      | None => if seen then Some acc else None
      end
  end.

(** The Number nearest to the integer [n]. A Number holds an integer
    below 2^53 exactly and a larger one by its 53 leading bits, rounded
    to nearest with ties to even; an integer that rounds to 2^1024 or
    more becomes Infinity, for which 2^1024 stands here, as -(2^1024)
    stands for -Infinity. *)
Definition to_number (n : Z) : Z :=
  let a := Z.abs n in
  if a <? 2 ^ 53 then n
  else
    let e := Z.log2 a - 52 in
    let q := Z.shiftr a e in
    let r := a - Z.shiftl q e in
    let half := Z.shiftl 1 (e - 1) in
    let q' := if (r <? half) || ((r =? half) && Z.even q) then q else q + 1 in
    Z.sgn n * Z.min (Z.shiftl q' e) (2 ^ 1024).

(** The integer a text starts with, after white space and a sign. *)
Definition leading_integer (s : string) : option Z :=
  match trimStart s with
  | String "-" s' => option_map Z.opp (digits s' false 0)
  | String "+" s' => digits s' false 0
  | t => digits t false 0
  end.

(** [parseInt(s, 10)]: the Number nearest to the integer the text starts
    with; [None] is NaN. *)
Definition parseInt (s : string) : option Z :=
  option_map to_number (leading_integer s).

(** [x || d] for a number [x]: NaN and 0 are falsy. *)
Definition or_default (x : option Z) (d : Z) : Z :=
  match x with
  | Some n => if n =? 0 then d else n
  | None => d
  end.

(** A string literal of a regular expression with the [i] flag matched
    at the start of [s]: code units are compared after canonicalising
    them to upper case. *)
Fixpoint match_literal_i (pat s : string) : bool :=
  match pat, s with
  | EmptyString, _ => true
  | String _ _, EmptyString => false
  | String p pat', String c s' =>
      if Ascii.eqb (upper_char p) (upper_char c) then match_literal_i pat' s'
      else false
  end.

(** [s.match(/^(a1|a2|...)/i)]: the alternatives are tried from left to
    right; the result is the text captured by the group. *)
Fixpoint match_alternation_i (alts : list string) (s : string) : option string :=
  match alts with
  | [] => None
  | a :: alts' =>
      if match_literal_i a s then Some (substring0 (String.length a) s)
      else match_alternation_i alts' s
  end.

End Js.

(** ** Recommendation types (handlers/approvals.ts) *)

Definition recommendation_types : list string :=
  ["PROCEED"; "DEFER"; "REJECT"; "REVIEW"; "HALT"].

(** [recommendation.match(/^(PROCEED|DEFER|REJECT|REVIEW|HALT)/i)], then
    [match[1].toUpperCase()] or ['UNKNOWN']. *)
Definition extractRecommendationType (recommendation : string) : string :=
  match Js.match_alternation_i recommendation_types recommendation with
  | Some m => Js.toUpperCase m
  | None => "UNKNOWN"
  end.

(** The text begins with the word [t], the case of the letters being
    ignored; the word need not end where [t] ends. *)
Definition begins_with (t recommendation : string) : Prop :=
  Js.toUpperCase (Js.substring0 (String.length t) recommendation) = t.

(** The leading token of a text, in the words of the specification: the
    letters, digits and underscores the text starts with. *)
Definition is_word_char (c : ascii) : bool :=
  let n := nat_of_ascii c in
  (((48 <=? n) && (n <=? 57)) || ((65 <=? n) && (n <=? 90)) ||
   ((97 <=? n) && (n <=? 122)) || (n =? 95))%nat.

Fixpoint leading_token (s : string) : string :=
  match s with
  | EmptyString => EmptyString
  | String c s' => if is_word_char c then String c (leading_token s') else EmptyString
  end.

(** The specification's reading of the classification: the leading token
    is the word [t], the case of the letters being ignored. *)
Definition leading_token_is (t recommendation : string) : Prop :=
  Js.toUpperCase (leading_token recommendation) = t.


(** ** Rows of the tables (types/index.ts and the CREATE TABLE statements
    of DatabaseClient.initialize)

    A column constraint the handlers do not check themselves (the length
    of a VARCHAR, the range of an INTEGER or of an OFFSET, the syntax of
    a timestamp, the uniqueness of a drawn identifier) makes the store
    reject the statement; that is a failed round-trip, which a run
    receives through [fault] below. A timestamp is the instant it
    denotes. *)

Inductive DecisionConfidence : Type := HIGH | MEDIUM | LOW.

Record DecisionSignals : Type := {
  financial : string;
  risk : string;
  complexity : string
}.

Record DecisionGraphRelations : Type := {
  objective_to_repos : list string;
  repos_to_signals : list (string * list string);
  signals_to_recommendation : list string
}.

Module Decision.
Record t : Type := {
  id : string;
  objective : string;
  command : string;
  raw_output_hash : string;
  recommendation : string;
  confidence : DecisionConfidence;
  signals : DecisionSignals;
  embedding_text : string;
  embedding : option (list Q);
  graph_relations : DecisionGraphRelations;
  created_at : Z
}.
End Decision.

Module Approval.
Record t : Type := {
  id : string;
  decision_id : string;
  approved : bool;
  confidence_adjustment : option Q;
  reward : Q;
  timestamp : Z;
  created_at : Z
}.
End Approval.

(** ['decision' | 'signal' | 'objective'] *)
Module Source.
Inductive t : Type := decision | signal | objective.

Definition eqb (a b : t) : bool :=
  match a, b with
  | decision, decision | signal, signal | objective, objective => true
  | _, _ => false
  end.
End Source.

Module Weight.
Record t : Type := {
  id : string;
  source_type : Source.t;
  source_id : string;
  target_type : string;
  target_value : string;
  weight : Q;
  update_count : Z;
  created_at : Z;
  updated_at : Z
}.

(** The columns of UNIQUE(source_type, source_id, target_type, target_value). *)
Definition key : Type := (Source.t * string * string * string)%type.

Definition key_of (r : t) : key :=
  (source_type r, source_id r, target_type r, target_value r).

Definition key_eqb (a b : key) : bool :=
  let '(st1, si1, tt1, tv1) := a in
  let '(st2, si2, tt2, tv2) := b in
  Source.eqb st1 st2 && String.eqb si1 si2 && String.eqb tt1 tt2 &&
  String.eqb tv1 tv2.
End Weight.

(** The value of a UUID column that is given [text], as the store prints
    it and compares it: the schemas admit the 8-4-4-4-12 layout of
    hexadecimal digits in either case, and the store prints the digits
    in lower case. *)
Definition uuid_value (text : string) : string := Js.toLowerCase text.

Record Db : Type := {
  decisions : list Decision.t;
  approvals : list Approval.t;
  learning_weights : list Weight.t
}.

Definition empty_db : Db :=
  {| decisions := []; approvals := []; learning_weights := [] |}.

(** ** The statements the handlers send to the store *)

(** [const LEARNING_RATE = 0.1] *)
Definition LEARNING_RATE : Q := 1 # 10.

(** The DO UPDATE branch of the learning_weights upsert:
    [weight = weight + $rate * ($reward - weight)],
    [update_count = update_count + 1], [updated_at = $now]. *)
Definition ema_update (rate reward : Q) (now : Z) (r : Weight.t) : Weight.t :=
  {| Weight.id := Weight.id r;
     Weight.source_type := Weight.source_type r;
     Weight.source_id := Weight.source_id r;
     Weight.target_type := Weight.target_type r;
     Weight.target_value := Weight.target_value r;
     Weight.weight := (Weight.weight r + rate * (reward - Weight.weight r))%Q;
     Weight.update_count := Weight.update_count r + 1;
     Weight.created_at := Weight.created_at r;
     Weight.updated_at := now |}.

(** The VALUES row of the same statement: [weight = $reward],
    [update_count = 1], target_type ['recommendation']. *)
Definition seed_row (id : string) (sourceType : Source.t)
  (sourceId targetValue : string) (reward : Q) (now : Z) : Weight.t :=
  {| Weight.id := id;
     Weight.source_type := sourceType;
     Weight.source_id := sourceId;
     Weight.target_type := "recommendation";
     Weight.target_value := targetValue;
     Weight.weight := reward;
     Weight.update_count := 1;
     Weight.created_at := now;
     Weight.updated_at := now |}.

(** INSERT INTO learning_weights ... ON CONFLICT (source_type, source_id,
    target_type, target_value) DO UPDATE SET ...: the row with the key of
    the new row is updated in place, and the new row is added when there
    is none. *)
Fixpoint upsert_learning_weight (new : Weight.t) (rate reward : Q) (now : Z)
  (tbl : list Weight.t) : list Weight.t :=
  match tbl with
  | [] => [new]
  | r :: tbl' =>
      if Weight.key_eqb (Weight.key_of r) (Weight.key_of new)
      then ema_update rate reward now r :: tbl'
      else r :: upsert_learning_weight new rate reward now tbl'
  end.

Definition find_weight (k : Weight.key) (tbl : list Weight.t) : option Weight.t :=
  find (fun r => Weight.key_eqb (Weight.key_of r) k) tbl.

(** SELECT ... FROM decisions WHERE id = $1: the parameter is compared
    as the UUID it denotes. *)
Definition select_decision (id : string) (tbl : list Decision.t) : list Decision.t :=
  filter (fun d => String.eqb (Decision.id d) (uuid_value id)) tbl.

(** The DO UPDATE branch of the decisions upsert: every column of the new
    row but id, embedding and created_at replaces the stored one. *)
Definition overwrite_decision (new old : Decision.t) : Decision.t :=
  {| Decision.id := Decision.id old;
     Decision.objective := Decision.objective new;
     Decision.command := Decision.command new;
     Decision.raw_output_hash := Decision.raw_output_hash new;
     Decision.recommendation := Decision.recommendation new;
     Decision.confidence := Decision.confidence new;
     Decision.signals := Decision.signals new;
     Decision.embedding_text := Decision.embedding_text new;
     Decision.embedding := Decision.embedding old;
     Decision.graph_relations := Decision.graph_relations new;
     Decision.created_at := Decision.created_at old |}.

(** The VALUES row of the decisions upsert: the id of the new row is
    stored as the UUID it denotes. *)
Definition insert_decision (new : Decision.t) : Decision.t :=
  {| Decision.id := uuid_value (Decision.id new);
     Decision.objective := Decision.objective new;
     Decision.command := Decision.command new;
     Decision.raw_output_hash := Decision.raw_output_hash new;
     Decision.recommendation := Decision.recommendation new;
     Decision.confidence := Decision.confidence new;
     Decision.signals := Decision.signals new;
     Decision.embedding_text := Decision.embedding_text new;
     Decision.embedding := Decision.embedding new;
     Decision.graph_relations := Decision.graph_relations new;
     Decision.created_at := Decision.created_at new |}.

(** INSERT INTO decisions ... ON CONFLICT (id) DO UPDATE SET ...: the
    conflict is on the UUID the id of the new row denotes. *)
Fixpoint upsert_decision (new : Decision.t) (tbl : list Decision.t) : list Decision.t :=
  match tbl with
  | [] => [insert_decision new]
  | d :: tbl' =>
      if String.eqb (Decision.id d) (uuid_value (Decision.id new))
      then overwrite_decision new d :: tbl'
      else d :: upsert_decision new tbl'
  end.

(** ** The monad of a handler run *)

Inductive Exn : Type := ZodError | QueryError.

(** What a run receives from outside: the round-trip that fails, if any
    (counted from 0 within the run), the identifiers [uuidv4()] draws and
    the instants [new Date()] reads. *)
Record Env : Type := {
  fault : option nat;
  uuids : nat -> string;
  clock : nat -> Z
}.

Record Run : Type := {
  db : Db;
  issued : nat;
  drawn : nat;
  ticks : nat
}.

Definition M (A : Type) : Type := Env -> Run -> (Exn + A) * Run.

Definition ret {A} (a : A) : M A := fun _ r => (inr a, r).

Definition bind {A B} (m : M A) (k : A -> M B) : M B :=
  fun e r =>
    match m e r with
    | (inr a, r') => k a e r'
    | (inl x, r') => (inl x, r')
    end.

Definition throw {A} (x : Exn) : M A := fun _ r => (inl x, r).

Notation "x <- m ;; k" := (bind m (fun x => k))
  (at level 61, m at next level, right associativity).
Notation "m ;; k" := (bind m (fun _ => k))
  (at level 61, right associativity).

(** [uuidv4()] *)
Definition uuidv4 : M string :=
  fun e r =>
    (inr (uuids e (drawn r)),
     {| db := db r; issued := issued r; drawn := S (drawn r); ticks := ticks r |}).

(** [new Date().toISOString()] *)
Definition Date_now : M Z :=
  fun e r =>
    (inr (clock e (ticks r)),
     {| db := db r; issued := issued r; drawn := drawn r; ticks := S (ticks r) |}).

(** The round-trip a run is about to issue is the one that fails. *)
Definition fails (e : Env) (r : Run) : bool :=
  match fault e with
  | Some k => Nat.eqb k (issued r)
  | None => false
  end.

(** The run after one more round-trip, which left the store as [d]. *)
Definition after_query (r : Run) (d : Db) : Run :=
  {| db := d; issued := S (issued r); drawn := drawn r; ticks := ticks r |}.

(** [await dbClient.query(...)]: the statement runs atomically on the
    store, or the round-trip fails and the store is left as it was. *)
Definition query {A} (stmt : Db -> Db * A) : M A :=
  fun e r =>
    if fails e r then (inl QueryError, after_query r (db r))
    else (inr (snd (stmt (db r))), after_query r (fst (stmt (db r)))).

(** [for (const x of xs) { acc = body(x, acc) }] *)
Fixpoint for_of {A S} (xs : list A) (body : A -> S -> M S) (acc : S) : M S :=
  match xs with
  | [] => ret acc
  | x :: xs' => acc' <- body x acc ;; for_of xs' body acc'
  end.

(** ** Responses *)

Record CreateApprovalResponse : Type := {
  car_id : string;
  car_decision_id : string;
  car_reward : Q;
  weights_updated : Z;
  learning_applied : bool
}.

Record CreateDecisionResponse : Type := {
  cdr_id : string;
  cdr_created : bool;
  cdr_decision : Decision.t
}.

Record ListDecisionsResponse : Type := {
  data : list Decision.t;
  total : Z;
  limit : Z;
  offset : Z
}.

(** The JSON body of a response; the correlation id and the field-level
    details of an error body are left out. *)
Inductive Body : Type :=
| ErrorBody (error message : string)
| ApprovalBody (r : CreateApprovalResponse)
| CreatedBody (r : CreateDecisionResponse)
| DecisionBody (d : Decision.t)
| ListBody (r : ListDecisionsResponse).

Record Response : Type := {
  status : Z;
  body : Body
}.

Definition json (code : Z) (b : Body) : Response := {| status := code; body := b |}.

(** [try { ... } catch (error) { ... }] around the body of a handler,
    started on the store [d]. *)
Definition try_catch (m : M Response) (handler : Exn -> Response)
  (e : Env) (d : Db) : Response * Db :=
  match m e {| db := d; issued := 0; drawn := 0; ticks := 0 |} with
  | (inr resp, r) => (resp, db r)
  | (inl x, r) => (handler x, db r)
  end.

(** ** Request bodies *)

Module CreateApprovalRequest.
Record t : Type := {
  decision_id : string;
  approved : bool;
  confidence_adjustment : option Q;
  timestamp : option Z
}.
End CreateApprovalRequest.

Module CreateDecisionRequest.
Record t : Type := {
  id : string;
  objective : string;
  command : string;
  raw_output_hash : string;
  recommendation : string;
  confidence : string;
  signals : DecisionSignals;
  embedding_text : string;
  graph_relations : DecisionGraphRelations;
  created_at : option Z
}.
End CreateDecisionRequest.

(** The query string of GET /v1/decisions. *)
Record ListQuery : Type := {
  q_objective : option string;
  q_limit : option string;
  q_offset : option string
}.

(** [Object.entries(signals)] for the signals of a row read from the
    store: the JSONB column gives the three keys back in the order risk,
    financial, complexity, whatever their order in the request. *)
Definition Object_entries (s : DecisionSignals) : list (string * string) :=
  [("risk", risk s); ("financial", financial s); ("complexity", complexity s)].

(** [z.enum(['HIGH', 'MEDIUM', 'LOW'])] *)
Definition parse_confidence (s : string) : option DecisionConfidence :=
  if String.eqb s "HIGH" then Some HIGH
  else if String.eqb s "MEDIUM" then Some MEDIUM
  else if String.eqb s "LOW" then Some LOW
  else None.

(** [x ? a : b] and [x || null] for an optional number: undefined, 0 and
    NaN are falsy. *)
Definition truthy (x : option Q) : option Q :=
  match x with
  | Some a => if Qeq_bool a 0 then None else Some a
  | None => None
  end.

(** [approved ? 1.0 : -1.0] *)
Definition base_reward (approved : bool) : Q := if approved then 1 else - (1).

(** [confidence_adjustment ? reward * (1 + confidence_adjustment) : reward] *)
Definition adjustedReward (approved : bool) (confidence_adjustment : option Q) : Q :=
  match truthy confidence_adjustment with
  | Some a => (base_reward approved * (1 + a))%Q
  | None => base_reward approved
  end.

Definition set_learning_weights (d : Db) (tbl : list Weight.t) : Db :=
  {| decisions := decisions d; approvals := approvals d; learning_weights := tbl |}.

Definition set_approvals (d : Db) (tbl : list Approval.t) : Db :=
  {| decisions := decisions d; approvals := tbl; learning_weights := learning_weights d |}.

Definition set_decisions (d : Db) (tbl : list Decision.t) : Db :=
  {| decisions := tbl; approvals := approvals d; learning_weights := learning_weights d |}.

(** The upsert statement of [updateLearningWeight] and of step 4 of the
    approval handler, as a statement on the store. *)
Definition upsert_statement (id : string) (sourceType : Source.t)
  (sourceId targetValue : string) (reward : Q) (now : Z) (d : Db) : Db * unit :=
  (set_learning_weights d
     (upsert_learning_weight (seed_row id sourceType sourceId targetValue reward now)
        LEARNING_RATE reward now (learning_weights d)), tt).

(** [updateLearningWeight(dbClient, sourceType, sourceId, targetValue, reward)] *)
Definition updateLearningWeight (sourceType : Source.t)
  (sourceId targetValue : string) (reward : Q) : M unit :=
  id <- uuidv4 ;;
  now <- Date_now ;;
  query (upsert_statement id sourceType sourceId targetValue reward now).

(** The rows of the listing query: a decision with the learning weight
    joined to it, if any. *)
Definition Row : Type := (Decision.t * option Weight.t)%type.

(** LEFT JOIN learning_weights lw ON lw.source_type = 'decision'
    AND lw.source_id = d.id::text AND lw.target_type = 'recommendation' *)
Definition join_on (d : Decision.t) (lw : Weight.t) : bool :=
  Source.eqb (Weight.source_type lw) Source.decision &&
  String.eqb (Weight.source_id lw) (Decision.id d) &&
  String.eqb (Weight.target_type lw) "recommendation".

Definition left_join (ds : list Decision.t) (lws : list Weight.t) : list Row :=
  flat_map
    (fun d =>
       match filter (join_on d) lws with
       | [] => [(d, None)]
       | ms => map (fun lw => (d, Some lw)) ms
       end) ds.

(** COALESCE(lw.weight, 0) *)
Definition approval_weight (r : Row) : Q :=
  match snd r with
  | Some lw => Weight.weight lw
  | None => 0
  end.

(** ORDER BY COALESCE(lw.weight, 0) DESC, d.created_at DESC: [a] may
    stand before [b]. *)
Definition order_by (a b : Row) : bool :=
  if Qeq_bool (approval_weight a) (approval_weight b)
  then Decision.created_at (fst b) <=? Decision.created_at (fst a)
  else Qle_bool (approval_weight b) (approval_weight a).

(** The store is free in the order of rows that agree on both sort keys;
    the embedding keeps them in the order of the join. *)
Fixpoint insert_row (x : Row) (l : list Row) : list Row :=
  match l with
  | [] => [x]
  | y :: l' => if order_by x y then x :: l else y :: insert_row x l'
  end.

Definition sort_rows (l : list Row) : list Row := fold_right insert_row [] l.

(** LIMIT $n OFFSET $m *)
Definition limit_offset {A} (n m : Z) (l : list A) : list A :=
  firstn (Z.to_nat n) (skipn (Z.to_nat m) l).

(** [Math.min(Math.max(parseInt(limit, 10) || 50, 1), 1000)], with the
    default ['50'] of an absent parameter. *)
Definition parsedLimit (limit : option string) : Z :=
  let limit := match limit with Some s => s | None => "50" end in
  Z.min (Z.max (Js.or_default (Js.parseInt limit) 50) 1) 1000.

(** [Math.max(parseInt(offset, 10) || 0, 0)], with the default ['0']. *)
Definition parsedOffset (offset : option string) : Z :=
  let offset := match offset with Some s => s | None => "0" end in
  Z.max (Js.or_default (Js.parseInt offset) 0) 0.

(** The pattern of the objective filter: [`%${objective.trim()}%`] when
    the parameter is present and not blank. *)
Definition objective_pattern (objective : option string) : option string :=
  match objective with
  | Some o =>
      if (0 <? String.length (Js.trim o))%nat
      then Some ("%" ++ Js.trim o ++ "%")
      else None
  | None => None
  end.

(** ** Concrete instances of what the service takes from its libraries,
    and sample data *)

Definition is_hex (c : ascii) : bool :=
  let n := nat_of_ascii c in
  (((48 <=? n) && (n <=? 57)) || ((65 <=? n) && (n <=? 70)) ||
   ((97 <=? n) && (n <=? 102)))%nat.

Fixpoint hex_run (n : nat) (s : string) : option string :=
  match n, s with
  | O, _ => Some s
  | S n', String c s' => if is_hex c then hex_run n' s' else None
  | S _, EmptyString => None
  end.

(** [n] hexadecimal digits, then a dash. *)
Definition hex_group (n : nat) (s : string) : option string :=
  match hex_run n s with
  | Some (String "-" s') => Some s'
  | _ => None
  end.

Definition and_then {A B} (o : option A) (f : A -> option B) : option B :=
  match o with
  | Some a => f a
  | None => None
  end.

(** The 8-4-4-4-12 layout of hexadecimal digits. *)
Definition uuid_shape (s : string) : bool :=
  match and_then (and_then (and_then (and_then (hex_group 8 s) (hex_group 4))
                    (hex_group 4)) (hex_group 4)) (hex_run 12) with
  | Some EmptyString => true
  | _ => false
  end.

Fixpoint contains_i (needle hay : string) : bool :=
  Js.match_literal_i needle hay ||
  match hay with
  | EmptyString => false
  | String _ hay' => contains_i needle hay'
  end.

(** ILIKE for a pattern [%text%] whose text has no wildcard of its own. *)
Definition ilike_contains (text pattern : string) : bool :=
  contains_i (substring 1 (String.length pattern - 2) pattern) text.

Definition hex_digit (n : nat) : ascii :=
  match get (n mod 16) "0123456789abcdef" with
  | Some c => c
  | None => "0"%char
  end.

(** Distinct identifiers in the layout of a version 4 uuid. *)
Definition uuid_of (n : nat) : string :=
  "00000000-0000-4000-8000-0000000000" ++
  String (hex_digit (n / 16)) (String (hex_digit n) EmptyString).

(** The inputs of the run of the [seed]-th request: its own identifiers
    and instants, and the round-trip that fails, if any. *)
Definition run_env (seed : nat) (failing : option nat) : Env :=
  {| fault := failing;
     uuids := fun n => uuid_of (8 * seed + n);
     clock := fun n => 1000 * Z.of_nat seed + Z.of_nat n |}.

Definition ship_signals : DecisionSignals :=
  {| financial := "ok"; risk := "low"; complexity := "low" |}.

Definition no_relations : DecisionGraphRelations :=
  {| objective_to_repos := []; repos_to_signals := [];
     signals_to_recommendation := [] |}.

Definition sha_zero : string :=
  "0000000000000000000000000000000000000000000000000000000000000000".

Definition new_decision (id objective recommendation : string) (t : Z)
  : CreateDecisionRequest.t :=
  {| CreateDecisionRequest.id := id;
     CreateDecisionRequest.objective := objective;
     CreateDecisionRequest.command := "agentics simulate";
     CreateDecisionRequest.raw_output_hash := sha_zero;
     CreateDecisionRequest.recommendation := recommendation;
     CreateDecisionRequest.confidence := "HIGH";
     CreateDecisionRequest.signals := ship_signals;
     CreateDecisionRequest.embedding_text := objective;
     CreateDecisionRequest.graph_relations := no_relations;
     CreateDecisionRequest.created_at := Some t |}.

Definition approval (id : string) (approved : bool) (adj : option Q)
  : CreateApprovalRequest.t :=
  {| CreateApprovalRequest.decision_id := id;
     CreateApprovalRequest.approved := approved;
     CreateApprovalRequest.confidence_adjustment := adj;
     CreateApprovalRequest.timestamp := None |}.

Definition id_a : string := "3f2504e0-4f89-41d3-9a0c-0305e82c3301".
Definition id_b : string := "7c9e6679-7425-40de-944b-e07fc1f90ae7".

(** The identifier [id_a] with its digits in upper case. *)
Definition id_a_upper : string := "3F2504E0-4F89-41D3-9A0C-0305E82C3301".

Definition decision_a : Decision.t :=
  {| Decision.id := id_a;
     Decision.objective := "ship";
     Decision.command := "agentics simulate";
     Decision.raw_output_hash := sha_zero;
     Decision.recommendation := "PROCEED: ship it";
     Decision.confidence := HIGH;
     Decision.signals := ship_signals;
     Decision.embedding_text := "ship";
     Decision.embedding := None;
     Decision.graph_relations := no_relations;
     Decision.created_at := 10 |}.

(** A store with the decision [id_a] and nothing else. *)
Definition db_a : Db :=
  {| decisions := [decision_a]; approvals := []; learning_weights := [] |}.

(** The requests of the service on the three tables. The handlers of
    plans and deployments work on tables of their own and are left out. *)
Inductive Request : Type :=
| PostDecision (b : CreateDecisionRequest.t)
| GetDecision (id : string)
| GetDecisions (q : ListQuery)
| PostApproval (b : CreateApprovalRequest.t).

(** Two decisions are stored and approved, then the first one is stored
    again with a recommendation of another type. *)
Definition restated_scenario : list (Request * Env) :=
  [ (PostDecision (new_decision id_a "ship" "PROCEED: ship it" 10), run_env 0 None);
    (PostApproval (approval id_a true None), run_env 1 None);
    (PostDecision (new_decision id_b "other" "PROCEED: other" 20), run_env 2 None);
    (PostApproval (approval id_b true (Some (- (1) # 2))), run_env 3 None);
    (PostDecision (new_decision id_a "ship" "HALT: stop" 10), run_env 4 None) ].

Definition list_all : ListQuery :=
  {| q_objective := None; q_limit := None; q_offset := None |}.

Definition shi_page : ListQuery :=
  {| q_objective := Some " SHI "; q_limit := Some "0"; q_offset := Some "-3" |}.

(** ** The vector client and its circuit breaker (clients/VectorClient.ts)

    The transport of the client is a stub: its operations check the
    circuit, build a fixed result and record a success. Logging is left
    out, and so are the arguments the stub does not read. The instants
    [Date.now()] reads within one call are an input of the call. *)

Module VectorClient.

Inductive CircuitState : Type := CLOSED | OPEN | HALF_OPEN.

Module CircuitBreakerConfig.
Record t : Type := {
  threshold : Z;
  timeout : Z;
  resetTimeout : Z
}.
End CircuitBreakerConfig.

Record VectorClientConfig : Type := {
  config_serviceUrl : string;
  config_apiKey : option string;
  config_timeout : Z;
  config_poolSize : Z;
  config_circuitBreaker : CircuitBreakerConfig.t
}.

(** The fields of a client. *)
Record t : Type := {
  serviceUrl : string;
  apiKey : option string;
  timeout : Z;
  connected : bool;
  circuitState : CircuitState;
  failureCount : Z;
  lastFailureTime : Z;
  circuitConfig : CircuitBreakerConfig.t
}.

(** [new VectorClient(config)] *)
Definition new (config : VectorClientConfig) : t :=
  {| serviceUrl := config_serviceUrl config;
     apiKey := config_apiKey config;
     timeout := config_timeout config;
     connected := false;
     circuitState := CLOSED;
     failureCount := 0;
     lastFailureTime := 0;
     circuitConfig := config_circuitBreaker config |}.

(** What a call throws: an [Error] or the [AppError] of the error
    middleware, each with its message. *)
Inductive Thrown : Type :=
| Error (message : string)
| AppError (statusCode : Z) (code message : string).

Definition message_of (x : Thrown) : string :=
  match x with
  | Error m => m
  | AppError _ _ m => m
  end.

(** A call on a client: it reads the clock, may throw and may change the
    fields of the client. The number counts the readings of the clock. *)
Definition Op (A : Type) : Type :=
  (nat -> Z) -> t * nat -> (Thrown + A) * (t * nat).

Definition ret {A} (a : A) : Op A := fun _ s => (inr a, s).

Definition bind {A B} (m : Op A) (k : A -> Op B) : Op B :=
  fun clock s =>
    match m clock s with
    | (inr a, s') => k a clock s'
    | (inl x, s') => (inl x, s')
    end.

Definition throw {A} (x : Thrown) : Op A := fun _ s => (inl x, s).

Notation "x <~ m ;; k" := (bind m (fun x => k))
  (at level 61, m at next level, right associativity).
Notation "m ~;; k" := (bind m (fun _ => k))
  (at level 61, right associativity).

(** [Date.now()] *)
Definition Date_now : Op Z :=
  fun clock s => (inr (clock (snd s)), (fst s, S (snd s))).

(** [this] *)
Definition this : Op t := fun _ s => (inr (fst s), s).

Definition assign (c : t) : Op unit := fun _ s => (inr tt, (c, snd s)).

(** [try { body } catch (error) { handler; throw error }] *)
Definition try_rethrow {A} (body : Op A) (handler : Op unit) : Op A :=
  fun clock s =>
    match body clock s with
    | (inr a, s') => (inr a, s')
    | (inl x, s') =>
        match handler clock s' with
        | (inr _, s'') => (inl x, s'')
        | (inl y, s'') => (inl y, s'')
        end
    end.

Definition set_circuit (st : CircuitState) (count last : Z) (c : t) : t :=
  {| serviceUrl := serviceUrl c;
     apiKey := apiKey c;
     timeout := timeout c;
     connected := connected c;
     circuitState := st;
     failureCount := count;
     lastFailureTime := last;
     circuitConfig := circuitConfig c |}.

Definition circuit_open : Thrown :=
  Error "Circuit breaker is open - RuvVector unavailable".

(** [checkCircuit()] *)
Definition checkCircuit : Op unit :=
  c <~ this ;;
  match circuitState c with
  | OPEN =>
      now <~ Date_now ;;
      let timeSinceFailure := now - lastFailureTime c in
      if CircuitBreakerConfig.timeout (circuitConfig c) <=? timeSinceFailure
      then assign (set_circuit HALF_OPEN (failureCount c) (lastFailureTime c) c)
      else throw circuit_open
  | _ => ret tt
  end.

(** [recordSuccess()] *)
Definition recordSuccess : Op unit :=
  c <~ this ;;
  match circuitState c with
  | HALF_OPEN => assign (set_circuit CLOSED 0 (lastFailureTime c) c)
  | _ => ret tt
  end.

(** [recordFailure()] *)
Definition recordFailure : Op unit :=
  c <~ this ;;
  let failureCount := failureCount c + 1 in
  now <~ Date_now ;;
  match circuitState c with
  | HALF_OPEN => assign (set_circuit OPEN failureCount now c)
  | st =>
      if CircuitBreakerConfig.threshold (circuitConfig c) <=? failureCount
      then assign (set_circuit OPEN failureCount now c)
      else assign (set_circuit st failureCount now c)
  end.

(** [connect()] *)
Definition connect : Op unit :=
  c <~ this ;;
  assign {| serviceUrl := serviceUrl c;
            apiKey := apiKey c;
            timeout := timeout c;
            connected := true;
            circuitState := CLOSED;
            failureCount := 0;
            lastFailureTime := lastFailureTime c;
            circuitConfig := circuitConfig c |}.

Record UpsertResult : Type := {
  upsert_id : string;
  upsert_namespace : string;
  upsert_status : string
}.

(** Items and neighbors stand for themselves by their ids. *)
Record VectorQueryResult : Type := {
  items : list string;
  total : Z;
  query_executionTime : Z
}.

Record VectorSimilarityResult : Type := {
  neighbors : list string;
  processed : Z;
  similarity_executionTime : Z
}.

(** The output object stands for its keys. *)
Record PredictionResult : Type := {
  model : string;
  output : list string;
  confidence : Q;
  executionTime : Z
}.

(** [upsert(namespace, id, vector, metadata)] *)
Definition upsert (namespace id : string) : Op UpsertResult :=
  checkCircuit ~;;
  startTime <~ Date_now ;;
  try_rethrow
    (let result := {| upsert_id := id; upsert_namespace := namespace;
                      upsert_status := "upserted" |} in
     recordSuccess ~;;
     duration <~ Date_now ;;
     ret result)
    recordFailure.

(** [insert(params)], of which the stub reads [params.id]. *)
Definition insert (id : string) : Op string :=
  startTime <~ Date_now ;;
  checkCircuit ~;;
  try_rethrow
    (let result := id in
     recordSuccess ~;;
     duration <~ Date_now ;;
     ret result)
    recordFailure.

(** [query(params)] *)
Definition query : Op VectorQueryResult :=
  startTime <~ Date_now ;;
  checkCircuit ~;;
  try_rethrow
    (now <~ Date_now ;;
     let result := {| items := []; total := 0;
                      query_executionTime := now - startTime |} in
     recordSuccess ~;;
     ret result)
    recordFailure.

(** [similarity(params)], of which the stub reads
    [params.contextVectors.length]. *)
Definition similarity (contextVectors : Z) : Op VectorSimilarityResult :=
  startTime <~ Date_now ;;
  checkCircuit ~;;
  try_rethrow
    (now <~ Date_now ;;
     let result := {| neighbors := []; processed := contextVectors;
                      similarity_executionTime := now - startTime |} in
     recordSuccess ~;;
     ret result)
    recordFailure.

(** [run_prediction(model, input)] *)
Definition run_prediction (model : string) : Op PredictionResult :=
  checkCircuit ~;;
  startTime <~ Date_now ;;
  try_rethrow
    (now <~ Date_now ;;
     let result := {| model := model; output := []; confidence := 0;
                      executionTime := now - startTime |} in
     recordSuccess ~;;
     ret result)
    recordFailure.

(** [try { body } catch (error) { handler; return false }] *)
Definition try_false (body : Op bool) (handler : Op unit) : Op bool :=
  fun clock s =>
    match body clock s with
    | (inr a, s') => (inr a, s')
    | (inl x, s') =>
        match handler clock s' with
        | (inr _, s'') => (inr false, s'')
        | (inl y, s'') => (inl y, s'')
        end
    end.

(** [ping()] *)
Definition ping : Op bool :=
  c <~ this ;;
  let probe := try_false (recordSuccess ~;; ret true) recordFailure in
  match circuitState c with
  | OPEN =>
      now <~ Date_now ;;
      let timeSinceFailure := now - lastFailureTime c in
      if CircuitBreakerConfig.timeout (circuitConfig c) <=? timeSinceFailure
      then assign (set_circuit HALF_OPEN (failureCount c) (lastFailureTime c) c) ~;;
           probe
      else ret false
  | _ => probe
  end.

(** The calls a user of the client can make, and what they return. *)
Inductive Call : Type :=
| Connect
| Upsert (namespace id : string)
| Insert (id : string)
| Query
| Similarity (contextVectors : Z)
| RunPrediction (model : string)
| Ping.

Inductive Reply : Type :=
| Connected
| Upserted (r : UpsertResult)
| Inserted (id : string)
| Queried (r : VectorQueryResult)
| Similar (r : VectorSimilarityResult)
| Predicted (r : PredictionResult)
| Pinged (alive : bool).

Definition call (k : Call) : Op Reply :=
  match k with
  | Connect => connect ~;; ret Connected
  | Upsert namespace id => r <~ upsert namespace id ;; ret (Upserted r)
  | Insert id => r <~ insert id ;; ret (Inserted r)
  | Query => r <~ query ;; ret (Queried r)
  | Similarity n => r <~ similarity n ;; ret (Similar r)
  | RunPrediction m => r <~ run_prediction m ;; ret (Predicted r)
  | Ping => r <~ ping ;; ret (Pinged r)
  end.

(** A call on the client [c] with the instants its clock readings give. *)
Definition run {A} (op : Op A) (clock : nat -> Z) (c : t) : (Thrown + A) * t :=
  let '(res, (c', _)) := op clock (c, 0%nat) in (res, c').

(** The answers to a sequence of calls, each with its own instants, and
    the client after them. *)
Fixpoint session (calls : list (Call * (nat -> Z))) (c : t)
  : list (Thrown + Reply) * t :=
  match calls with
  | [] => ([], c)
  | (k, clock) :: calls' =>
      let (r, c') := run (call k) clock c in
      let (rs, c'') := session calls' c' in
      (r :: rs, c'')
  end.

Definition returned {E A} (r : E + A) : bool :=
  match r with
  | inr _ => true
  | inl _ => false
  end.

(** The calls that start with [checkCircuit()]. *)
Definition guarded (k : Call) : bool :=
  match k with
  | Connect | Ping => false
  | _ => true
  end.

(** The reading of the clock a call compares with the last failure when
    the circuit is open: the first one, or the second one in the calls
    that read their start time before the check. *)
Definition check_reading (k : Call) : nat :=
  match k with
  | Insert _ | Query | Similarity _ => 1%nat
  | _ => 0%nat
  end.

(** The outcomes of the breaker the properties count: [true] for
    [recordSuccess()], [false] for [recordFailure()] at an instant. *)
Fixpoint record (events : list (bool * Z)) (c : t) : t :=
  match events with
  | [] => c
  | (true, _) :: events' => record events' (snd (run recordSuccess (fun _ => 0) c))
  | (false, now) :: events' => record events' (snd (run recordFailure (fun _ => now) c))
  end.

Definition failures (events : list (bool * Z)) : list Z :=
  map snd (filter (fun ev => negb (fst ev)) events).

(** ** The prediction handler (handlers/predict.ts) *)

Fixpoint includes (needle hay : string) : bool :=
  prefix needle hay ||
  match hay with
  | EmptyString => false
  | String _ hay' => includes needle hay'
  end.

Record PredictResponse : Type := {
  response_model : string;
  response_output : list string;
  response_confidence : Q;
  metadata_correlationId : string;
  metadata_executionTime : Z
}.

(** [try { body } catch (error) { handler }] *)
Definition try_catch {A} (body : Op A) (handler : Thrown -> Op A) : Op A :=
  fun clock s =>
    match body clock s with
    | (inr a, s') => (inr a, s')
    | (inl error, s') => handler error clock s'
    end.

(** [predictHandler(req, res, vectorClient)] with [req.correlationId] and
    [req.body.model]. A result is the body of the answer with status 200;
    what is thrown goes to the error middleware, which answers with the
    status code of an [AppError]. *)
Definition predictHandler (correlationId body_model : string) : Op PredictResponse :=
  startTime <~ Date_now ;;
  try_catch
    (result <~ run_prediction body_model ;;
     now <~ Date_now ;;
     let executionTime := now - startTime in
     ret {| response_model := model result;
            response_output := output result;
            response_confidence := confidence result;
            metadata_correlationId := correlationId;
            metadata_executionTime := executionTime |})
    (fun error =>
       if includes "Circuit breaker" (message_of error)
       then throw (AppError 503 "service_unavailable" "Service temporarily unavailable")
       else throw (AppError 502 "upstream_error" "Upstream service error")).

End VectorClient.

(** ** The configuration (config/index.ts)

    [process.env] is a map from the names of the variables to their
    values; a thrown [Error] is its message. *)

Module Config.

Definition Env : Type := string -> option string.

Definition Result (A : Type) : Type := (string + A)%type.

Definition bind {A B} (m : Result A) (k : A -> Result B) : Result B :=
  match m with
  | inr a => k a
  | inl message => inl message
  end.

Notation "x <- m ;;; k" := (bind m (fun x => k))
  (at level 61, m at next level, right associativity).

Definition is_empty (s : string) : bool :=
  match s with
  | EmptyString => true
  | String _ _ => false
  end.

(** [getRequiredEnvVar(key)] *)
Definition getRequiredEnvVar (env : Env) (key : string) : Result string :=
  match env key with
  | Some value =>
      if is_empty value
      then inl ("FATAL: Missing required environment variable: " ++ key ++
                ". Service cannot start without this configuration.")
      else inr value
  | None =>
      inl ("FATAL: Missing required environment variable: " ++ key ++
           ". Service cannot start without this configuration.")
  end.

(** [getEnvVar(key, defaultValue)] *)
Definition getEnvVar (env : Env) (key defaultValue : string) : string :=
  match env key with
  | Some value => if is_empty value then defaultValue else value
  | None => defaultValue
  end.

(** [getOptionalEnvVar(key)] *)
Definition getOptionalEnvVar (env : Env) (key : string) : option string :=
  match env key with
  | Some value => if is_empty value then None else Some value
  | None => None
  end.

(** [getEnvNumber(key, defaultValue)] *)
Definition getEnvNumber (env : Env) (key : string) (defaultValue : Z) : Result Z :=
  match env key with
  | None => inr defaultValue
  | Some value =>
      match Js.parseInt value with
      | None => inl ("Environment variable " ++ key ++ " must be a valid number")
      | Some parsed => inr parsed
      end
  end.

(** [getEnvBoolean(key, defaultValue)]; no character other than the
    letters A to Z is lowered to a letter of [true]. *)
Definition getEnvBoolean (env : Env) (key : string) (defaultValue : bool) : bool :=
  match env key with
  | None => defaultValue
  | Some value => String.eqb (Js.toLowerCase value) "true"
  end.

Module RuvVector.
Record t : Type := {
  serviceUrl : string;
  apiKey : option string;
  timeout : Z;
  poolSize : Z
}.
End RuvVector.

Module Metrics.
Record t : Type := {
  enabled : bool;
  port : Z
}.
End Metrics.

Module Shutdown.
Record t : Type := {
  timeout : Z
}.
End Shutdown.

Record t : Type := {
  port : Z;
  logLevel : string;
  ruvVector : RuvVector.t;
  circuitBreaker : VectorClient.CircuitBreakerConfig.t;
  metrics : Metrics.t;
  shutdown : Shutdown.t
}.

(** The [config] object: its fields are evaluated in the order they are
    written, and the first error thrown ends the evaluation. *)
Definition config (env : Env) : Result t :=
  port <- getEnvNumber env "PORT" 3000 ;;;
  let logLevel := getEnvVar env "LOG_LEVEL" "info" in
  serviceUrl <- getRequiredEnvVar env "RUVVECTOR_SERVICE_URL" ;;;
  let apiKey := getOptionalEnvVar env "RUVVECTOR_API_KEY" in
  timeout <- getEnvNumber env "RUVVECTOR_TIMEOUT" 30000 ;;;
  poolSize <- getEnvNumber env "RUVVECTOR_POOL_SIZE" 10 ;;;
  threshold <- getEnvNumber env "CIRCUIT_BREAKER_THRESHOLD" 5 ;;;
  breaker_timeout <- getEnvNumber env "CIRCUIT_BREAKER_TIMEOUT" 30000 ;;;
  resetTimeout <- getEnvNumber env "CIRCUIT_BREAKER_RESET" 60000 ;;;
  let enabled := getEnvBoolean env "METRICS_ENABLED" true in
  metrics_port <- getEnvNumber env "METRICS_PORT" 9090 ;;;
  shutdown_timeout <- getEnvNumber env "SHUTDOWN_TIMEOUT" 30000 ;;;
  inr {| port := port;
         logLevel := logLevel;
         ruvVector := {| RuvVector.serviceUrl := serviceUrl;
                         RuvVector.apiKey := apiKey;
                         RuvVector.timeout := timeout;
                         RuvVector.poolSize := poolSize |};
         circuitBreaker :=
           {| VectorClient.CircuitBreakerConfig.threshold := threshold;
              VectorClient.CircuitBreakerConfig.timeout := breaker_timeout;
              VectorClient.CircuitBreakerConfig.resetTimeout := resetTimeout |};
         metrics := {| Metrics.enabled := enabled; Metrics.port := metrics_port |};
         shutdown := {| Shutdown.timeout := shutdown_timeout |} |}.

(** The variables read as numbers, with their defaults, in the order
    they are read. *)
Definition numbers : list (string * Z) :=
  [("PORT", 3000); ("RUVVECTOR_TIMEOUT", 30000); ("RUVVECTOR_POOL_SIZE", 10);
   ("CIRCUIT_BREAKER_THRESHOLD", 5); ("CIRCUIT_BREAKER_TIMEOUT", 30000);
   ("CIRCUIT_BREAKER_RESET", 60000); ("METRICS_PORT", 9090);
   ("SHUTDOWN_TIMEOUT", 30000)].

(** A variable that is set to a text with no leading integer. *)
Definition not_a_number (env : Env) (key : string) : bool :=
  match env key with
  | Some value =>
      match Js.parseInt value with
      | None => true
      | Some _ => false
      end
  | None => false
  end.

(** A variable that is unset or empty. *)
Definition missing (env : Env) (key : string) : bool :=
  match env key with
  | Some value => is_empty value
  | None => true
  end.

(** The Number [parseInt] reads from a variable, or the default when it
    is unset. *)
Definition number_of (env : Env) (key : string) (defaultValue : Z) : Z :=
  match env key with
  | Some value =>
      match Js.parseInt value with
      | Some parsed => parsed
      | None => defaultValue
      end
  | None => defaultValue
  end.

End Config.

(** ** Sample clients and a sample environment *)

Definition breaker_config : VectorClient.CircuitBreakerConfig.t :=
  {| VectorClient.CircuitBreakerConfig.threshold := 5;
     VectorClient.CircuitBreakerConfig.timeout := 30000;
     VectorClient.CircuitBreakerConfig.resetTimeout := 60000 |}.

Definition sample_client : VectorClient.t :=
  VectorClient.new
    {| VectorClient.config_serviceUrl := "http://ruvvector:6379";
       VectorClient.config_apiKey := None;
       VectorClient.config_timeout := 30000;
       VectorClient.config_poolSize := 10;
       VectorClient.config_circuitBreaker := breaker_config |}.

(** A client whose circuit opened at the instant 1000, and one whose
    circuit is half open. *)
Definition open_client : VectorClient.t :=
  VectorClient.set_circuit VectorClient.OPEN 5 1000 sample_client.

Definition probing_client : VectorClient.t :=
  VectorClient.set_circuit VectorClient.HALF_OPEN 5 1000 sample_client.

(** A clock that starts at [t] and advances by one at every reading. *)
Definition clock_from (t : Z) : nat -> Z := fun n => t + Z.of_nat n.

Definition sample_env : Config.Env :=
  fun key =>
    if String.eqb key "RUVVECTOR_SERVICE_URL" then Some "http://ruvvector:6379"
    else if String.eqb key "PORT" then Some "8080"
    else if String.eqb key "CIRCUIT_BREAKER_THRESHOLD" then Some "3 failures"
    else None.

Section Service.

(** [z.string().uuid()] of the validation library. *)
Variable is_uuid : string -> bool.

(** [text ILIKE pattern] of the store. *)
Variable ilike : string -> string -> bool.

(** *** handlers/approvals.ts *)

(** The checks of [createApprovalSchema]: [decision_id] is a uuid and
    [confidence_adjustment], when present, is a number between -1 and 1. *)
Definition createApprovalSchema_ok (b : CreateApprovalRequest.t) : bool :=
  is_uuid (CreateApprovalRequest.decision_id b) &&
  match CreateApprovalRequest.confidence_adjustment b with
  | Some a => Qle_bool (- (1)) a && Qle_bool a 1
  | None => true
  end.

(** [createApprovalSchema.parse(req.body)] *)
Definition createApprovalSchema (b : CreateApprovalRequest.t) : M CreateApprovalRequest.t :=
  if createApprovalSchema_ok b then ret b else throw ZodError.

Definition createApproval_body (req_body : CreateApprovalRequest.t) : M Response :=
  validatedData <- createApprovalSchema req_body ;;
  let decision_id := CreateApprovalRequest.decision_id validatedData in
  let approved := CreateApprovalRequest.approved validatedData in
  let confidence_adjustment := CreateApprovalRequest.confidence_adjustment validatedData in
  let timestamp := CreateApprovalRequest.timestamp validatedData in
  decisionResult <- query (fun d => (d, select_decision decision_id (decisions d))) ;;
  match decisionResult with
  | [] =>
      ret (json 404 (ErrorBody "not_found"
             ("Decision with ID " ++ decision_id ++ " not found")))
  | decision :: _ =>
      let adjustedReward := adjustedReward approved confidence_adjustment in
      approvalId <- uuidv4 ;;
      eventTimestamp <- match timestamp with Some t => ret t | None => Date_now end ;;
      now <- Date_now ;;
      query (fun d =>
        (set_approvals d
           (approvals d ++
              [{| Approval.id := approvalId;
                  Approval.decision_id := uuid_value decision_id;
                  Approval.approved := approved;
                  Approval.confidence_adjustment := truthy confidence_adjustment;
                  Approval.reward := adjustedReward;
                  Approval.timestamp := eventTimestamp;
                  Approval.created_at := now |}]), tt)) ;;
      let recommendationType :=
        extractRecommendationType (Decision.recommendation decision) in
      let weightsUpdated := 0 in
      updateLearningWeight Source.decision decision_id recommendationType
        adjustedReward ;;
      let weightsUpdated := weightsUpdated + 1 in
      weightsUpdated <-
        for_of (Object_entries (Decision.signals decision))
          (fun '(signalType, signalValue) weightsUpdated =>
             let signalId := signalType ++ ":" ++ Js.substring0 50 signalValue in
             updateLearningWeight Source.signal signalId recommendationType
               adjustedReward ;;
             ret (weightsUpdated + 1))
          weightsUpdated ;;
      let objectiveId := Js.substring0 200 (Decision.objective decision) in
      updateLearningWeight Source.objective objectiveId recommendationType
        adjustedReward ;;
      let weightsUpdated := weightsUpdated + 1 in
      trajectoryId <- uuidv4 ;;
      query (upsert_statement trajectoryId Source.decision
               ("trajectory:" ++ decision_id)
               ("pattern:" ++ recommendationType) adjustedReward now) ;;
      let weightsUpdated := weightsUpdated + 1 in
      ret (json 201 (ApprovalBody
             {| car_id := approvalId;
                car_decision_id := decision_id;
                car_reward := adjustedReward;
                weights_updated := weightsUpdated;
                learning_applied := true |}))
  end.

(** POST /decision/approval *)
Definition createApprovalHandler (req_body : CreateApprovalRequest.t)
  : Env -> Db -> Response * Db :=
  try_catch (createApproval_body req_body)
    (fun error =>
       match error with
       | ZodError => json 400 (ErrorBody "validation_error" "Request validation failed")
       | _ => json 500 (ErrorBody "internal_error" "Failed to process approval")
       end).

(** *** handlers/decisions.ts *)

(** [createDecisionSchema.parse(req.body)]; the result carries the parsed
    confidence. *)
Definition createDecisionSchema (b : CreateDecisionRequest.t)
  : M (CreateDecisionRequest.t * DecisionConfidence) :=
  match parse_confidence (CreateDecisionRequest.confidence b) with
  | Some c =>
      if is_uuid (CreateDecisionRequest.id b) &&
         (1 <=? String.length (CreateDecisionRequest.objective b))%nat &&
         (1 <=? String.length (CreateDecisionRequest.command b))%nat &&
         (String.length (CreateDecisionRequest.raw_output_hash b) =? 64)%nat &&
         (1 <=? String.length (CreateDecisionRequest.recommendation b))%nat &&
         (1 <=? String.length (CreateDecisionRequest.embedding_text b))%nat
      then ret (b, c)
      else throw ZodError
  | None => throw ZodError
  end.

Definition createDecision_body (req_body : CreateDecisionRequest.t) : M Response :=
  validatedData <- createDecisionSchema req_body ;;
  let '(v, confidence) := validatedData in
  createdAt <- match CreateDecisionRequest.created_at v with
               | Some t => ret t
               | None => Date_now
               end ;;
  let storedDecision :=
    {| Decision.id := CreateDecisionRequest.id v;
       Decision.objective := CreateDecisionRequest.objective v;
       Decision.command := CreateDecisionRequest.command v;
       Decision.raw_output_hash := CreateDecisionRequest.raw_output_hash v;
       Decision.recommendation := CreateDecisionRequest.recommendation v;
       Decision.confidence := confidence;
       Decision.signals := CreateDecisionRequest.signals v;
       Decision.embedding_text := CreateDecisionRequest.embedding_text v;
       Decision.embedding := None;
       Decision.graph_relations := CreateDecisionRequest.graph_relations v;
       Decision.created_at := createdAt |} in
  query (fun d => (set_decisions d (upsert_decision storedDecision (decisions d)), tt)) ;;
  ret (json 201 (CreatedBody
         {| cdr_id := CreateDecisionRequest.id v;
            cdr_created := true;
            cdr_decision := storedDecision |})).

(** POST /v1/decisions *)
Definition createDecisionHandler (req_body : CreateDecisionRequest.t)
  : Env -> Db -> Response * Db :=
  try_catch (createDecision_body req_body)
    (fun error =>
       match error with
       | ZodError => json 400 (ErrorBody "validation_error" "Request validation failed")
       | _ => json 500 (ErrorBody "internal_error" "Failed to store decision")
       end).

Definition getDecision_body (id : string) : M Response :=
  if negb (is_uuid id)
  then ret (json 400 (ErrorBody "validation_error"
                        "Invalid decision ID format (must be UUID)"))
  else
    result <- query (fun d => (d, select_decision id (decisions d))) ;;
    match result with
    | [] => ret (json 404 (ErrorBody "not_found"
                             ("Decision with ID " ++ id ++ " not found")))
    | row :: _ => ret (json 200 (DecisionBody row))
    end.

(** GET /v1/decisions/:id *)
Definition getDecisionHandler (id : string) : Env -> Db -> Response * Db :=
  try_catch (getDecision_body id)
    (fun _ => json 500 (ErrorBody "internal_error" "Failed to retrieve decision")).

(** The WHERE clause built from the objective parameter. *)
Definition whereClause (objective : option string) (d : Decision.t) : bool :=
  match objective_pattern objective with
  | Some p => ilike (Decision.objective d) p
  | None => true
  end.

(** SELECT COUNT( * ) as total FROM decisions WHERE ...; the handler
    reads the count back from its decimal text with [parseInt]. *)
Definition countQuery (objective : option string) (d : Db) : Db * Z :=
  (d, Z.of_nat (List.length (filter (whereClause objective) (decisions d)))).

(** The rows of [selectQuery], before they are cut to a page. *)
Definition ranked_rows (objective : option string) (d : Db) : list Row :=
  sort_rows (left_join (filter (whereClause objective) (decisions d))
               (learning_weights d)).

(** SELECT d.*, COALESCE(lw.weight, 0) as approval_weight FROM decisions d
    LEFT JOIN learning_weights lw ON ... WHERE ...
    ORDER BY COALESCE(lw.weight, 0) DESC, d.created_at DESC
    LIMIT $n OFFSET $m *)
Definition selectQuery (objective : option string) (n m : Z) (d : Db) : Db * list Row :=
  (d, limit_offset n m (ranked_rows objective d)).

Definition listDecisions_body (q : ListQuery) : M Response :=
  let objective := q_objective q in
  let parsedLimit := parsedLimit (q_limit q) in
  let parsedOffset := parsedOffset (q_offset q) in
  total <- query (countQuery objective) ;;
  result <- query (selectQuery objective parsedLimit parsedOffset) ;;
  let decisions := map fst result in
  ret (json 200 (ListBody
         {| data := decisions;
            total := total;
            limit := parsedLimit;
            offset := parsedOffset |})).

(** GET /v1/decisions *)
Definition listDecisionsHandler (q : ListQuery) : Env -> Db -> Response * Db :=
  try_catch (listDecisions_body q)
    (fun _ => json 500 (ErrorBody "internal_error" "Failed to list decisions")).

(** *** The service as a transition system *)

Definition handle (rq : Request) : Env -> Db -> Response * Db :=
  match rq with
  | PostDecision b => createDecisionHandler b
  | GetDecision id => getDecisionHandler id
  | GetDecisions q => listDecisionsHandler q
  | PostApproval b => createApprovalHandler b
  end.

(** The store after a sequence of requests, each with the inputs of its
    own run. *)
Fixpoint serve (rqs : list (Request * Env)) (d : Db) : Db :=
  match rqs with
  | [] => d
  | (rq, e) :: rqs' => serve rqs' (snd (handle rq e d))
  end.

(** ** Notions of the specification and of the runs *)

(** An edge [(sourceType, sourceId) -> targetValue] of the ledger. *)
Definition Edge : Type := (Source.t * string * string)%type.

Definition edge_key (e : Edge) : Weight.key :=
  let '(st, sid, tv) := e in (st, sid, "recommendation", tv).

(** [applyReward] on the table: the upsert with the learning rate of the
    module, for an edge, a drawn identifier and the current instant. *)
Definition applyReward (reward : Q) (tbl : list Weight.t)
  (it : string * Z * Edge) : list Weight.t :=
  let '(id, now, (st, sid, tv)) := it in
  upsert_learning_weight (seed_row id st sid tv reward now) LEARNING_RATE reward now tbl.

(** What one application of the rule does to the row of an edge: [o] is
    the row before, if any, and [r] the row after. *)
Definition rewarded (reward : Q) (o : option Weight.t) (r : Weight.t) : Prop :=
  match o with
  | None => Weight.weight r = reward /\ Weight.update_count r = 1
  | Some old =>
      Weight.weight r =
        (Weight.weight old + (1 # 10) * (reward - Weight.weight old))%Q /\
      Weight.update_count r = Weight.update_count old + 1
  end.

(** The ledger [tbl'] comes from [tbl] by applications of the rule. *)
Inductive ema_trace : list Weight.t -> list Weight.t -> Prop :=
| ema_done : forall tbl, ema_trace tbl tbl
| ema_next : forall reward it tbl tbl',
    ema_trace (applyReward reward tbl it) tbl' -> ema_trace tbl tbl'.

(** The edges of an approval of the decision [d] under the identifier
    [decisionId], in the words of the specification and in the order in
    which the handler updates them. *)
Definition approval_edges (decisionId : string) (d : Decision.t) : list Edge :=
  let T := extractRecommendationType (Decision.recommendation d) in
  [ (Source.decision, decisionId, T);
    (Source.signal, "risk:" ++ Js.substring0 50 (risk (Decision.signals d)), T);
    (Source.signal, "financial:" ++ Js.substring0 50 (financial (Decision.signals d)), T);
    (Source.signal, "complexity:" ++ Js.substring0 50 (complexity (Decision.signals d)), T);
    (Source.objective, Js.substring0 200 (Decision.objective d), T);
    (Source.decision, "trajectory:" ++ decisionId, "pattern:" ++ T) ].

(** The sort key the specification gives to a decision in a listing: the
    weight of the edge from the decision to the type of its own
    recommendation, 0 without such an edge. *)
Definition edge_weight (tbl : list Weight.t) (d : Decision.t) : Q :=
  match find_weight
          (edge_key (Source.decision, Decision.id d,
                     extractRecommendationType (Decision.recommendation d))) tbl with
  | Some lw => Weight.weight lw
  | None => 0
  end.

(** A listing in the order the specification states: descending by
    [edge_weight]. *)
Definition ranked_by_edge_weight (tbl : list Weight.t) (l : list Decision.t) : Prop :=
  forall i j a b,
    nth_error l i = Some a -> nth_error l j = Some b -> (i < j)%nat ->
    (edge_weight tbl b <= edge_weight tbl a)%Q.


(** The instants a run reads for the timestamp of the event: none when
    the request carries one. *)
Definition clock_reads (b : CreateApprovalRequest.t) : nat :=
  match CreateApprovalRequest.timestamp b with
  | Some _ => 0%nat
  | None => 1%nat
  end.

(** The ApprovalRecord a run inserts: its identifier is the first one
    drawn, its timestamp the one of the request or the first instant
    read, its created_at the instant read next. *)
Definition approval_record (b : CreateApprovalRequest.t) (e : Env) : Approval.t :=
  {| Approval.id := uuids e 0%nat;
     Approval.decision_id := uuid_value (CreateApprovalRequest.decision_id b);
     Approval.approved := CreateApprovalRequest.approved b;
     Approval.confidence_adjustment :=
       truthy (CreateApprovalRequest.confidence_adjustment b);
     Approval.reward :=
       adjustedReward (CreateApprovalRequest.approved b)
         (CreateApprovalRequest.confidence_adjustment b);
     Approval.timestamp :=
       match CreateApprovalRequest.timestamp b with
       | Some t => t
       | None => clock e 0%nat
       end;
     Approval.created_at := clock e (clock_reads b) |}.

(** The edges of [approval_edges], each with the identifier drawn and the
    instant read for its upsert. *)
Definition approval_items (b : CreateApprovalRequest.t) (e : Env)
  (d : Decision.t) : list (string * Z * Edge) :=
  let t := clock_reads b in
  match approval_edges (CreateApprovalRequest.decision_id b) d with
  | [e1; e2; e3; e4; e5; e6] =>
      [ (uuids e 1%nat, clock e (1 + t)%nat, e1);
        (uuids e 2%nat, clock e (2 + t)%nat, e2);
        (uuids e 3%nat, clock e (3 + t)%nat, e3);
        (uuids e 4%nat, clock e (4 + t)%nat, e4);
        (uuids e 5%nat, clock e (5 + t)%nat, e5);
        (uuids e 6%nat, clock e t, e6) ]
  | _ => []
  end.

(** The store once the ApprovalRecord is inserted and the first [n] edges
    are updated. *)
Definition approved_db (n : nat) (b : CreateApprovalRequest.t) (e : Env)
  (dec : Decision.t) (d : Db) : Db :=
  {| decisions := decisions d;
     approvals := approvals d ++ [approval_record b e];
     learning_weights :=
       fold_left
         (applyReward (adjustedReward (CreateApprovalRequest.approved b)
                         (CreateApprovalRequest.confidence_adjustment b)))
         (firstn n (approval_items b e dec)) (learning_weights d) |}.

Definition validation_error : Response :=
  json 400 (ErrorBody "validation_error" "Request validation failed").

Definition approval_failed : Response :=
  json 500 (ErrorBody "internal_error" "Failed to process approval").

Definition approval_created (b : CreateApprovalRequest.t) (e : Env) : Response :=
  json 201 (ApprovalBody
    {| car_id := uuids e 0%nat;
       car_decision_id := CreateApprovalRequest.decision_id b;
       car_reward :=
         adjustedReward (CreateApprovalRequest.approved b)
           (CreateApprovalRequest.confidence_adjustment b);
       weights_updated := 6;
       learning_applied := true |}).

(** The outcomes of a run of the approval handler on the store [d]. *)
Inductive approval_outcome (b : CreateApprovalRequest.t) (e : Env) (d : Db)
  : Response * Db -> Prop :=
| rejected :
    createApprovalSchema_ok b = false ->
    approval_outcome b e d (validation_error, d)
| lookup_failed :
    createApprovalSchema_ok b = true ->
    fault e = Some 0%nat ->
    approval_outcome b e d (approval_failed, d)
| not_found :
    createApprovalSchema_ok b = true ->
    fault e <> Some 0%nat ->
    select_decision (CreateApprovalRequest.decision_id b) (decisions d) = [] ->
    approval_outcome b e d
      (json 404 (ErrorBody "not_found"
         ("Decision with ID " ++ CreateApprovalRequest.decision_id b ++ " not found")), d)
| insert_failed : forall dec rest,
    createApprovalSchema_ok b = true ->
    select_decision (CreateApprovalRequest.decision_id b) (decisions d) = dec :: rest ->
    fault e = Some 1%nat ->
    approval_outcome b e d (approval_failed, d)
| edge_failed : forall dec rest n,
    createApprovalSchema_ok b = true ->
    select_decision (CreateApprovalRequest.decision_id b) (decisions d) = dec :: rest ->
    fault e = Some (2 + n)%nat ->
    (n < 6)%nat ->
    approval_outcome b e d (approval_failed, approved_db n b e dec d)
| applied : forall dec rest,
    createApprovalSchema_ok b = true ->
    select_decision (CreateApprovalRequest.decision_id b) (decisions d) = dec :: rest ->
    (forall k, fault e = Some k -> (8 <= k)%nat) ->
    approval_outcome b e d (approval_created b e, approved_db 6 b e dec d).

(** The key of the row an item of [approval_items] is upserted under. *)
Definition item_key (it : string * Z * Edge) : Weight.key := edge_key (snd it).

(** The record a valid creation request sends to the store and answers
    with. *)
Definition stored_decision (b : CreateDecisionRequest.t) (c : DecisionConfidence)
  (e : Env) : Decision.t :=
  {| Decision.id := CreateDecisionRequest.id b;
     Decision.objective := CreateDecisionRequest.objective b;
     Decision.command := CreateDecisionRequest.command b;
     Decision.raw_output_hash := CreateDecisionRequest.raw_output_hash b;
     Decision.recommendation := CreateDecisionRequest.recommendation b;
     Decision.confidence := c;
     Decision.signals := CreateDecisionRequest.signals b;
     Decision.embedding_text := CreateDecisionRequest.embedding_text b;
     Decision.embedding := None;
     Decision.graph_relations := CreateDecisionRequest.graph_relations b;
     Decision.created_at :=
       match CreateDecisionRequest.created_at b with
       | Some t => t
       | None => clock e 0%nat
       end |}.

(** The response to a listing whose two round-trips succeed. *)
Definition listing (q : ListQuery) (d : Db) : Response :=
  json 200 (ListBody
    {| data := map fst (limit_offset (parsedLimit (q_limit q)) (parsedOffset (q_offset q))
                          (ranked_rows (q_objective q) d));
       total := Z.of_nat (List.length (filter (whereClause (q_objective q)) (decisions d)));
       limit := parsedLimit (q_limit q);
       offset := parsedOffset (q_offset q) |}).

Definition listing_failed : Response :=
  json 500 (ErrorBody "internal_error" "Failed to list decisions").

(** The order of the rows of a listing. *)
Definition before (a b : Row) : Prop := order_by a b = true.

(** ** Notions of the further properties *)

(** The sum of the update counts of a ledger. *)
Definition total_updates (tbl : list Weight.t) : Z :=
  fold_right (fun r acc => Weight.update_count r + acc) 0 tbl.

(** A weight or a reward between -2 and 2. *)
Definition within_two (w : Q) : Prop := (- (2) <= w)%Q /\ (w <= 2)%Q.

(** The approval [b] is sent once in each of the runs [es], one after
    the other, and is answered 201 every time. *)
Fixpoint approvals_created (b : CreateApprovalRequest.t) (es : list Env) (d : Db)
  : Prop :=
  match es with
  | [] => True
  | e :: es' =>
      status (fst (createApprovalHandler b e d)) = 201 /\
      approvals_created b es' (snd (createApprovalHandler b e d))
  end.

(** The rows of the listing query before they are sorted and cut: the
    decisions under the filter, joined to the ledger. *)
Definition joined_rows (objective : option string) (d : Db) : list Row :=
  left_join (filter (whereClause objective) (decisions d)) (learning_weights d).

(** The ledger has no row yet for the edge. *)
Definition absent (tbl : list Weight.t) (ed : Edge) : bool :=
  match find_weight (edge_key ed) tbl with
  | Some _ => false
  | None => true
  end.

(** Every ApprovalRecord refers to a stored decision. *)
Definition referenced (d : Db) : Prop :=
  forall a, In a (approvals d) ->
  exists dec, In dec (decisions d) /\ Decision.id dec = Approval.decision_id a.

(** A text of white space only. *)
Fixpoint blank (s : string) : bool :=
  match s with
  | EmptyString => true
  | String c s' => Js.is_space c && blank s'
  end.

(** What the creation schema demands of the fields a decision row keeps:
    the id is the value of a text the schema admits. *)
Definition valid_decision (dec : Decision.t) : Prop :=
  (exists text, is_uuid text = true /\ Decision.id dec = uuid_value text) /\
  (1 <= String.length (Decision.objective dec))%nat /\
  (1 <= String.length (Decision.command dec))%nat /\
  String.length (Decision.raw_output_hash dec) = 64%nat /\
  (1 <= String.length (Decision.recommendation dec))%nat /\
  (1 <= String.length (Decision.embedding_text dec))%nat.

(** * Properties *)

(** ** Strings *)

Arguments Js.upper_char : simpl never.

Lemma match_literal_i_spec (p s : string) :
  Js.match_literal_i p s = true <->
  Js.toUpperCase (Js.substring0 (String.length p) s) = Js.toUpperCase p.
Proof.
  unfold Js.substring0. revert s.
  induction p as [|a p IH]; intros s.
  - destruct s; simpl; split; auto.
  - destruct s as [|c s]; simpl.
    + split; discriminate.
    + destruct (Ascii.eqb (Js.upper_char a) (Js.upper_char c)) eqn:E.
      * apply Ascii.eqb_eq in E. rewrite IH, E. split.
        -- intros ->. reflexivity.
        -- intros H. now injection H.
      * apply Ascii.eqb_neq in E. split; [discriminate|].
        intros H. injection H as H1 _. congruence.
Qed.

Lemma append_length (p s : string) :
  String.length (p ++ s) = (String.length p + String.length s)%nat.
Proof. induction p; simpl; congruence. Qed.

(** ** The learning_weights table *)

Lemma source_eqb_eq (a b : Source.t) : Source.eqb a b = true <-> a = b.
Proof. destruct a, b; simpl; split; congruence. Qed.

Lemma key_eqb_eq (a b : Weight.key) : Weight.key_eqb a b = true <-> a = b.
Proof.
  destruct a as [[[s1 i1] t1] v1], b as [[[s2 i2] t2] v2]. simpl.
  rewrite !andb_true_iff, source_eqb_eq, !String.eqb_eq.
  split; [intros [[[-> ->] ->] ->]; reflexivity | intros H; injection H; auto].
Qed.

Lemma key_eqb_refl (a : Weight.key) : Weight.key_eqb a a = true.
Proof. now apply key_eqb_eq. Qed.

Lemma key_eqb_neq (a b : Weight.key) : Weight.key_eqb a b = false <-> a <> b.
Proof.
  rewrite <- key_eqb_eq. destruct (Weight.key_eqb a b); split; congruence.
Qed.

Arguments Weight.key_eqb : simpl never.
Arguments Weight.key_of : simpl never.

Lemma key_of_ema_update rate reward now r :
  Weight.key_of (ema_update rate reward now r) = Weight.key_of r.
Proof. reflexivity. Qed.

(** The row found under the key of the upserted row. *)
Lemma find_upsert_same new rate reward now tbl :
  find_weight (Weight.key_of new) (upsert_learning_weight new rate reward now tbl) =
  Some match find_weight (Weight.key_of new) tbl with
       | Some old => ema_update rate reward now old
       | None => new
       end.
Proof.
  unfold find_weight. induction tbl as [|r tbl IH]; simpl.
  - now rewrite key_eqb_refl.
  - destruct (Weight.key_eqb (Weight.key_of r) (Weight.key_of new)) eqn:E; simpl.
    + now rewrite key_of_ema_update, E.
    + now rewrite E.
Qed.

(** The rows under the other keys are left alone. *)
Lemma find_upsert_other k new rate reward now tbl :
  k <> Weight.key_of new ->
  find_weight k (upsert_learning_weight new rate reward now tbl) = find_weight k tbl.
Proof.
  intros Hk. unfold find_weight. induction tbl as [|r tbl IH]; simpl.
  - assert (Weight.key_eqb (Weight.key_of new) k = false) as ->
      by (apply key_eqb_neq; congruence).
    reflexivity.
  - destruct (Weight.key_eqb (Weight.key_of r) (Weight.key_of new)) eqn:E; simpl.
    + rewrite key_of_ema_update. apply key_eqb_eq in E.
      assert (Weight.key_eqb (Weight.key_of r) k = false) as ->
        by (apply key_eqb_neq; congruence).
      reflexivity.
    + now rewrite IH.
Qed.

Lemma keys_upsert new rate reward now tbl :
  map Weight.key_of (upsert_learning_weight new rate reward now tbl) =
  if existsb (fun r => Weight.key_eqb (Weight.key_of r) (Weight.key_of new)) tbl
  then map Weight.key_of tbl
  else (map Weight.key_of tbl ++ [Weight.key_of new])%list.
Proof.
  induction tbl as [|r tbl IH]; simpl; [reflexivity|].
  destruct (Weight.key_eqb (Weight.key_of r) (Weight.key_of new)) eqn:E; simpl.
  - reflexivity.
  - rewrite IH. now destruct (existsb _ tbl).
Qed.

(** UNIQUE(source_type, source_id, target_type, target_value) is kept. *)
Lemma upsert_unique new rate reward now tbl :
  NoDup (map Weight.key_of tbl) ->
  NoDup (map Weight.key_of (upsert_learning_weight new rate reward now tbl)).
Proof.
  intros H. rewrite keys_upsert.
  destruct (existsb _ tbl) eqn:E; [exact H|].
  apply NoDup_app; [exact H | repeat constructor; intros [] |].
  intros k Hk [<-|[]].
  apply in_map_iff in Hk. destruct Hk as [r [Hr Hin]].
  assert (existsb (fun r => Weight.key_eqb (Weight.key_of r) (Weight.key_of new)) tbl = true).
  { apply existsb_exists. exists r. split; [exact Hin|]. now apply key_eqb_eq. }
  congruence.
Qed.

(** ** Runs of the approval handler *)

Lemma outcome_eq b e d x y :
  approval_outcome b e d x -> x = y -> approval_outcome b e d y.
Proof. now intros H <-. Qed.

(** *** Equations of the monad *)

Lemma bind_ret {A B} (a : A) (k : A -> M B) e r : bind (ret a) k e r = k a e r.
Proof. reflexivity. Qed.

Lemma bind_throw {A B} (x : Exn) (k : A -> M B) e r :
  bind (throw x) k e r = (inl x, r).
Proof. reflexivity. Qed.

Lemma bind_assoc {A B C} (m : M A) (f : A -> M B) (k : B -> M C) e r :
  bind (bind m f) k e r = bind m (fun a => bind (f a) k) e r.
Proof. unfold bind. destruct (m e r) as [[x|a] r']; reflexivity. Qed.

Lemma bind_uuidv4 {B} (k : string -> M B) e r :
  bind uuidv4 k e r =
  k (uuids e (drawn r)) e
    {| db := db r; issued := issued r; drawn := S (drawn r); ticks := ticks r |}.
Proof. reflexivity. Qed.

Lemma bind_Date_now {B} (k : Z -> M B) e r :
  bind Date_now k e r =
  k (clock e (ticks r)) e
    {| db := db r; issued := issued r; drawn := drawn r; ticks := S (ticks r) |}.
Proof. reflexivity. Qed.

Lemma bind_query {A B} (stmt : Db -> Db * A) (k : A -> M B) e r :
  bind (query stmt) k e r =
  if fails e r then (inl QueryError, after_query r (db r))
  else k (snd (stmt (db r))) e (after_query r (fst (stmt (db r)))).
Proof. unfold bind, query. destruct (fails e r); reflexivity. Qed.

Lemma fails_at e r k : fault e = Some k -> fails e r = Nat.eqb k (issued r).
Proof. unfold fails. now intros ->. Qed.

Lemma fails_never e r : fault e = None -> fails e r = false.
Proof. unfold fails. now intros ->. Qed.

(** One step of a run whose failing round-trip is told by [F]. *)
Ltac step F :=
  first [ rewrite bind_ret
        | rewrite bind_throw
        | rewrite bind_assoc
        | rewrite bind_uuidv4
        | rewrite bind_Date_now
        | rewrite bind_query;
          first [ rewrite (fails_at _ _ _ F) | rewrite (fails_never _ _ F) ]
        | progress unfold updateLearningWeight ];
  cbn [Nat.eqb issued drawn ticks db after_query fst snd for_of Object_entries
       updateLearningWeight upsert_statement set_learning_weights set_approvals
       set_decisions decisions approvals learning_weights].

Ltac same_run T :=
  unfold approval_created, approval_failed, approved_db, approval_items,
    approval_record, clock_reads, approval_edges;
  rewrite T; reflexivity.

Lemma createApproval_outcome b e d :
  approval_outcome b e d (createApprovalHandler b e d).
Proof.
  unfold createApprovalHandler, try_catch, createApproval_body, createApprovalSchema.
  destruct (createApprovalSchema_ok b) eqn:V.
  2:{ rewrite bind_throw. now constructor. }
  rewrite bind_ret.
  destruct (select_decision (CreateApprovalRequest.decision_id b) (decisions d))
    as [|dec rest] eqn:S.
  - destruct (fault e) as [[|k]|] eqn:F; step F; rewrite ?S.
    + now apply lookup_failed.
    + apply not_found; auto; congruence.
    + apply not_found; auto; congruence.
  - destruct (CreateApprovalRequest.timestamp b) eqn:T;
      (destruct (fault e) as [k|] eqn:F; [do 8 (try destruct k as [|k])|]).
    all: step F; rewrite ?S, ?T; repeat step F.
    all: unfold ret.
    1,11: now apply lookup_failed.
    1,10: now apply (insert_failed b e d dec rest).
    1-6,9-14: (eapply outcome_eq;
                [ apply (edge_failed b e d dec rest _ V S F); lia | same_run T ]).
    all: eapply outcome_eq;
           [ apply (applied b e d dec rest V S);
             intros k' Hk'; rewrite F in Hk'; try discriminate Hk'; injection Hk' as <-; lia
           | same_run T ].
Qed.

(** *** Lookups after a run *)

Lemma find_applyReward_same reward tbl id now (ed : Edge) :
  exists r,
    find_weight (edge_key ed) (applyReward reward tbl (id, now, ed)) = Some r /\
    rewarded reward (find_weight (edge_key ed) tbl) r.
Proof.
  destruct ed as [[st sid] tv]. unfold applyReward.
  change (edge_key (st, sid, tv))
    with (Weight.key_of (seed_row id st sid tv reward now)).
  rewrite find_upsert_same.
  destruct (find_weight _ tbl) as [old|]; eexists; split; try reflexivity;
    simpl; split; reflexivity.
Qed.

Lemma find_applyReward_other reward tbl (it : string * Z * Edge) k :
  k <> edge_key (snd it) ->
  find_weight k (applyReward reward tbl it) = find_weight k tbl.
Proof.
  destruct it as [[id now] [[st sid] tv]]. intros Hk.
  unfold applyReward. now apply find_upsert_other.
Qed.

Lemma find_fold_other reward items : forall tbl k,
  ~ In k (map item_key items) ->
  find_weight k (fold_left (applyReward reward) items tbl) = find_weight k tbl.
Proof.
  induction items as [|it items IH]; intros tbl k Hk; simpl in *; [reflexivity|].
  rewrite IH by tauto. apply find_applyReward_other. intros ->. tauto.
Qed.

Lemma find_fold_touched reward items :
  NoDup (map item_key items) ->
  forall tbl it, In it items ->
  exists r,
    find_weight (item_key it) (fold_left (applyReward reward) items tbl) = Some r /\
    rewarded reward (find_weight (item_key it) tbl) r.
Proof.
  induction items as [|it0 items IH]; intros Hnd tbl it Hin; [destruct Hin|].
  simpl in Hnd. inversion Hnd as [|k ks Hnotin Hnd']; subst.
  simpl. destruct Hin as [<-|Hin].
  - rewrite find_fold_other by exact Hnotin.
    destruct it0 as [[id now] ed]. apply find_applyReward_same.
  - destruct (IH Hnd' (applyReward reward tbl it0) it Hin) as [r [Hr Hrew]].
    exists r. split; [exact Hr|].
    rewrite find_applyReward_other in Hrew; [exact Hrew|].
    intros Heq. apply Hnotin.
    change (item_key it0) with (edge_key (snd it0)). rewrite <- Heq.
    now apply (in_map item_key).
Qed.

Lemma ema_trace_fold reward items : forall tbl,
  ema_trace tbl (fold_left (applyReward reward) items tbl).
Proof.
  induction items as [|it items IH]; intros tbl; simpl.
  - constructor.
  - eapply ema_next. apply IH.
Qed.

Lemma ema_trace_trans t1 t2 t3 :
  ema_trace t1 t2 -> ema_trace t2 t3 -> ema_trace t1 t3.
Proof.
  induction 1 as [|reward it tbl tbl' _ IH]; intros H; [exact H|].
  eapply ema_next. now apply IH.
Qed.

Lemma approval_items_edges b e dec :
  map snd (approval_items b e dec) =
  approval_edges (CreateApprovalRequest.decision_id b) dec.
Proof. reflexivity. Qed.

Lemma approval_items_keys n b e dec :
  map item_key (firstn n (approval_items b e dec)) =
  map edge_key (firstn n (approval_edges (CreateApprovalRequest.decision_id b) dec)).
Proof.
  rewrite <- (approval_items_edges b e dec), firstn_map, map_map. reflexivity.
Qed.

Lemma prefixed_neq (p s : string) : p <> "" -> s <> p ++ s.
Proof.
  intros Hp H. apply (f_equal String.length) in H. rewrite append_length in H.
  destruct p; [congruence | simpl in H; lia].
Qed.

Lemma approval_edges_distinct id dec :
  NoDup (map edge_key (approval_edges id dec)).
Proof.
  clear is_uuid ilike. unfold approval_edges. cbn [map edge_key].
  repeat constructor; simpl; intuition (try discriminate).
  match goal with H : _ = _ |- _ => injection H as H1 _ end.
  apply (prefixed_neq "trajectory:" id); [discriminate | symmetry; exact H1].
Qed.

Lemma firstn_incl {A} (l : list A) : forall n a, In a (firstn n l) -> In a l.
Proof.
  induction l as [|x l IH]; intros [|n] a H; simpl in *; try tauto.
  destruct H as [H|H]; [now left | right; now apply (IH n)].
Qed.

Lemma firstn_distinct {A} n (l : list A) : NoDup l -> NoDup (firstn n l).
Proof.
  revert n. induction l as [|a l IH]; intros [|n] H; simpl; try constructor.
  - inversion H as [|? ? Hnotin Hnd]; subst.
    intros Hin. apply Hnotin. revert Hin. apply firstn_incl.
  - inversion H; subst. now apply IH.
Qed.

(** The ledger after the first [n] edge updates of an approval. *)
Lemma approved_db_ledger n b e dec d :
  let tbl := learning_weights d in
  let tbl' := learning_weights (approved_db n b e dec d) in
  let edges := firstn n (approval_edges (CreateApprovalRequest.decision_id b) dec) in
  let reward := adjustedReward (CreateApprovalRequest.approved b)
                  (CreateApprovalRequest.confidence_adjustment b) in
  (forall ed, In ed edges ->
     exists r, find_weight (edge_key ed) tbl' = Some r /\
               rewarded reward (find_weight (edge_key ed) tbl) r) /\
  (forall k, ~ In k (map edge_key edges) -> find_weight k tbl' = find_weight k tbl) /\
  ema_trace tbl tbl'.
Proof.
  cbn zeta. unfold approved_db. cbn [learning_weights].
  split; [|split].
  - intros ed Hin.
    rewrite <- (approval_items_edges b e dec), firstn_map in Hin.
    apply in_map_iff in Hin. destruct Hin as [it [<- Hin]].
    apply (find_fold_touched _ (firstn n (approval_items b e dec))); [|exact Hin].
    rewrite approval_items_keys. rewrite <- firstn_map.
    apply firstn_distinct, approval_edges_distinct.
  - intros k Hk. apply find_fold_other. now rewrite approval_items_keys.
  - apply ema_trace_fold.
Qed.

(** ** Runs of the other handlers *)

Lemma createDecision_store b e d :
  snd (createDecisionHandler b e d) = d \/
  exists c,
    snd (createDecisionHandler b e d) =
    set_decisions d (upsert_decision (stored_decision b c e) (decisions d)).
Proof.
  unfold createDecisionHandler, try_catch, createDecision_body, createDecisionSchema.
  destruct (parse_confidence (CreateDecisionRequest.confidence b)) as [c|];
    [|left; reflexivity].
  match goal with |- context [if ?c then _ else _] => destruct c end;
    [|left; reflexivity].
  destruct (fault e) as [[|k]|] eqn:F;
    destruct (CreateDecisionRequest.created_at b) eqn:T;
    repeat (first [step F | rewrite T]); unfold ret; cbn [snd db];
    first [ left; reflexivity
          | right; exists c; unfold stored_decision; rewrite T; reflexivity ].
Qed.

Lemma getDecision_store id e d : snd (getDecisionHandler id e d) = d.
Proof.
  unfold getDecisionHandler, try_catch, getDecision_body.
  destruct (is_uuid id); [|reflexivity]. cbn [negb].
  destruct (fault e) as [[|k]|] eqn:F; step F; try reflexivity;
    destruct (select_decision id (decisions d)); reflexivity.
Qed.

Lemma listDecisions_outcome q e d :
  listDecisionsHandler q e d =
  (match fault e with
   | Some 0%nat | Some 1%nat => listing_failed
   | _ => listing q d
   end, d).
Proof.
  unfold listDecisionsHandler, try_catch, listDecisions_body.
  destruct (fault e) as [[|[|k]]|] eqn:F; repeat step F; reflexivity.
Qed.

Lemma handle_ledger rq e d :
  ema_trace (learning_weights d) (learning_weights (snd (handle rq e d))).
Proof.
  destruct rq as [b|id|q|b]; cbn [handle].
  - destruct (createDecision_store b e d) as [->|[c ->]]; constructor.
  - rewrite getDecision_store. constructor.
  - rewrite listDecisions_outcome. constructor.
  - destruct (createApproval_outcome b e d); cbn [snd]; try constructor;
      apply approved_db_ledger.
Qed.

Lemma handle_decisions rq e d :
  match rq with
  | PostDecision b =>
      decisions (snd (handle rq e d)) = decisions d \/
      exists c, decisions (snd (handle rq e d)) =
                upsert_decision (stored_decision b c e) (decisions d)
  | _ => decisions (snd (handle rq e d)) = decisions d
  end.
Proof.
  destruct rq as [b|id|q|b]; cbn [handle].
  - destruct (createDecision_store b e d) as [->|[c ->]];
      [left; reflexivity | right; exists c; reflexivity].
  - now rewrite getDecision_store.
  - now rewrite listDecisions_outcome.
  - destruct (createApproval_outcome b e d); reflexivity.
Qed.

(** ** The Weight Ledger *)

Lemma upsert_absent new rate reward now tbl :
  find_weight (Weight.key_of new) tbl = None ->
  upsert_learning_weight new rate reward now tbl = (tbl ++ [new])%list.
Proof.
  unfold find_weight. induction tbl as [|r tbl IH]; simpl; [reflexivity|].
  destruct (Weight.key_eqb (Weight.key_of r) (Weight.key_of new)); [discriminate|].
  intros H. now rewrite IH.
Qed.

Lemma serve_ledger rqs : forall d,
  ema_trace (learning_weights d) (learning_weights (serve rqs d)).
Proof.
  induction rqs as [|[rq e] rqs IH]; intros d; simpl; [constructor|].
  eapply ema_trace_trans; [apply handle_ledger | apply IH].
Qed.

Lemma ema_trace_unique tbl tbl' :
  ema_trace tbl tbl' ->
  NoDup (map Weight.key_of tbl) -> NoDup (map Weight.key_of tbl').
Proof.
  induction 1 as [|reward [[id now] [[st sid] tv]] tbl tbl' _ IH]; intros H;
    [exact H|].
  apply IH. now apply upsert_unique.
Qed.

(** The stores the service reaches from the empty one have one ledger row
    per key. *)
Lemma serve_unique rqs :
  NoDup (map Weight.key_of (learning_weights (serve rqs empty_db))).
Proof.
  apply (ema_trace_unique _ _ (serve_ledger rqs empty_db)). constructor.
Qed.

(** ** The approval handler *)

Lemma status_created b e d :
  status (fst (createApprovalHandler b e d)) = 201 ->
  exists dec rest,
    select_decision (CreateApprovalRequest.decision_id b) (decisions d) = dec :: rest /\
    createApprovalHandler b e d = (approval_created b e, approved_db 6 b e dec d).
Proof.
  intros Hst. pose proof (createApproval_outcome b e d) as H.
  destruct (createApprovalHandler b e d) as [resp d'].
  inversion H; subst; try discriminate Hst.
  exists dec, rest. split; [assumption | reflexivity].
Qed.

(** C1. The upsert that [updateLearningWeight] and the trajectory step
    of the approval handler send creates the row of the edge, with the
    reward as weight and an update count of 1, when the ledger has no
    row under the key of the edge; otherwise it moves the weight of the
    row by a tenth of its distance to the reward and adds 1 to the
    update count; the rows of the other keys, the decisions and the
    approvals are left as they are. A call of [updateLearningWeight]
    runs this upsert once, with the identifier it draws and the instant
    it reads, or fails with the store unchanged. An approval answered
    201 applies the rule six times, to its six edges in their order and
    with its reward. Whatever requests the service handles, the ledger
    changes by such upserts only. *)
Theorem updateLearningWeight_rule :
  (forall id st sid tv reward now d,
     let k := edge_key (st, sid, tv) in
     let d' := fst (upsert_statement id st sid tv reward now d) in
     decisions d' = decisions d /\
     approvals d' = approvals d /\
     learning_weights d' =
       applyReward reward (learning_weights d) (id, now, (st, sid, tv)) /\
     (find_weight k (learning_weights d) = None ->
      exists r,
        learning_weights d' = (learning_weights d ++ [r])%list /\
        find_weight k (learning_weights d') = Some r /\
        Weight.weight r = reward /\
        Weight.update_count r = 1) /\
     (forall old,
        find_weight k (learning_weights d) = Some old ->
        exists r,
          find_weight k (learning_weights d') = Some r /\
          Weight.weight r =
            (Weight.weight old + (1 # 10) * (reward - Weight.weight old))%Q /\
          Weight.update_count r = Weight.update_count old + 1) /\
     (forall k', k' <> k ->
        find_weight k' (learning_weights d') = find_weight k' (learning_weights d))) /\
  (forall st sid tv reward e r,
     let out := updateLearningWeight st sid tv reward e r in
     (fails e r = false ->
      fst out = inr tt /\
      db (snd out) =
        fst (upsert_statement (uuids e (drawn r)) st sid tv reward
               (clock e (ticks r)) (db r))) /\
     (fails e r = true -> fst out = inl QueryError /\ db (snd out) = db r)) /\
  (forall b e d,
     status (fst (createApprovalHandler b e d)) = 201 ->
     exists dec rest,
       select_decision (CreateApprovalRequest.decision_id b) (decisions d) =
         dec :: rest /\
       map snd (approval_items b e dec) =
         approval_edges (CreateApprovalRequest.decision_id b) dec /\
       learning_weights (snd (createApprovalHandler b e d)) =
         fold_left
           (applyReward (adjustedReward (CreateApprovalRequest.approved b)
                           (CreateApprovalRequest.confidence_adjustment b)))
           (approval_items b e dec) (learning_weights d)) /\
  (forall rqs d,
     ema_trace (learning_weights d) (learning_weights (serve rqs d))).
Proof.
  split; [|split; [|split; [|intros rqs d; apply serve_ledger]]].
  3:{ intros b e d Hst.
      destruct (status_created b e d Hst) as [dec [rest [Hsel Hrun]]].
      exists dec, rest. split; [exact Hsel|]. split; [reflexivity|].
      rewrite Hrun. reflexivity. }
  - intros id st sid tv reward now d. cbn zeta.
    unfold upsert_statement. cbn [fst set_learning_weights decisions approvals
                                  learning_weights].
    do 3 (split; [reflexivity|]).
    change (edge_key (st, sid, tv))
      with (Weight.key_of (seed_row id st sid tv reward now)).
    rewrite find_upsert_same. split; [|split].
    + intros Hnone. rewrite Hnone.
      exists (seed_row id st sid tv reward now).
      rewrite (upsert_absent _ _ _ _ _ Hnone). repeat split; reflexivity.
    + intros old Hold. rewrite Hold.
      exists (ema_update LEARNING_RATE reward now old). repeat split; reflexivity.
    + intros k' Hk'. now apply find_upsert_other.
  - intros st sid tv reward e r. cbn zeta.
    unfold updateLearningWeight.
    rewrite bind_uuidv4, bind_Date_now. unfold query.
    cbn [fails issued]. unfold fails. cbn [issued].
    fold (fails e r).
    destruct (fails e r); split; intros H; try discriminate H;
      split; reflexivity.
Qed.

(** C2. A successful approval updates the ledger on exactly the six
    edges the specification lists, with the derived reward: the edge from
    the decision, one edge per signal, the edge from the objective and
    the trajectory edge; these six keys are distinct, each of their rows
    is seeded or blended once, and the row of every other key is as it
    was. *)
Theorem approval_updates_edges b e d :
  status (fst (createApprovalHandler b e d)) = 201 ->
  exists dec rest,
    select_decision (CreateApprovalRequest.decision_id b) (decisions d) = dec :: rest /\
    let edges := approval_edges (CreateApprovalRequest.decision_id b) dec in
    let reward := adjustedReward (CreateApprovalRequest.approved b)
                    (CreateApprovalRequest.confidence_adjustment b) in
    let tbl := learning_weights d in
    let tbl' := learning_weights (snd (createApprovalHandler b e d)) in
    List.length edges = 6%nat /\
    NoDup (map edge_key edges) /\
    (forall ed, In ed edges ->
       exists r, find_weight (edge_key ed) tbl' = Some r /\
                 rewarded reward (find_weight (edge_key ed) tbl) r) /\
    (forall k, ~ In k (map edge_key edges) ->
       find_weight k tbl' = find_weight k tbl).
Proof.
  intros Hst. destruct (status_created b e d Hst) as [dec [rest [Hsel Hrun]]].
  exists dec, rest. split; [exact Hsel|]. cbn zeta. rewrite Hrun. cbn [snd].
  destruct (approved_db_ledger 6 b e dec d) as [Htouched [Hother _]].
  change (firstn 6 (approval_edges (CreateApprovalRequest.decision_id b) dec))
    with (approval_edges (CreateApprovalRequest.decision_id b) dec) in *.
  repeat split; auto using approval_edges_distinct.
Qed.

(** C10. A response with status 201 to an approval always carries
    [weights_updated = 6] and [learning_applied = true]. *)
Theorem approval_success_counts_six b e d :
  status (fst (createApprovalHandler b e d)) = 201 ->
  exists r,
    body (fst (createApprovalHandler b e d)) = ApprovalBody r /\
    weights_updated r = 6 /\
    learning_applied r = true.
Proof.
  intros Hst. destruct (status_created b e d Hst) as [dec [rest [_ Hrun]]].
  rewrite Hrun. eexists. split; [reflexivity|]. split; reflexivity.
Qed.

(** C4. Without an adjustment the reward is 1 for an approval and -1 for
    a rejection; with an adjustment between -1 and 1 it is that base
    reward times one plus the adjustment; an adjustment outside this
    range is answered by 400 validation_error without any change of the
    store; the reward so derived is the one a successful run stores in
    the ApprovalRecord and reports. *)
Theorem reward_derivation :
  (adjustedReward true None = 1%Q /\ adjustedReward false None = (- (1))%Q) /\
  (forall approved a,
     (- (1) <= a)%Q -> (a <= 1)%Q ->
     (adjustedReward approved (Some a) == base_reward approved * (1 + a))%Q) /\
  (forall b e d a,
     CreateApprovalRequest.confidence_adjustment b = Some a ->
     ~ ((- (1) <= a)%Q /\ (a <= 1)%Q) ->
     createApprovalHandler b e d = (validation_error, d)) /\
  (forall b e d,
     status (fst (createApprovalHandler b e d)) = 201 ->
     let reward := adjustedReward (CreateApprovalRequest.approved b)
                     (CreateApprovalRequest.confidence_adjustment b) in
     exists r a,
       body (fst (createApprovalHandler b e d)) = ApprovalBody r /\
       car_reward r = reward /\
       approvals (snd (createApprovalHandler b e d)) = (approvals d ++ [a])%list /\
       Approval.reward a = reward).
Proof.
  split; [split; reflexivity|]. split; [|split].
  - intros approved a _ _. unfold adjustedReward, truthy.
    destruct (Qeq_bool a 0) eqn:E; [|reflexivity].
    apply Qeq_bool_eq in E. rewrite E. ring.
  - intros b e d a Ha Hrange.
    assert (createApprovalSchema_ok b = false) as V.
    { unfold createApprovalSchema_ok. rewrite Ha.
      destruct (Qle_bool (- (1)) a) eqn:E1; destruct (Qle_bool a 1) eqn:E2;
        try (now rewrite andb_comm).
      exfalso. apply Hrange. now rewrite <- !Qle_bool_iff. }
    unfold createApprovalHandler, try_catch, createApproval_body, createApprovalSchema.
    rewrite V. reflexivity.
  - intros b e d Hst. cbn zeta.
    destruct (status_created b e d Hst) as [dec [rest [_ Hrun]]].
    rewrite Hrun. do 2 eexists. repeat split; reflexivity.
Qed.

(** A lookup finds nothing exactly when no stored id is the UUID the
    parameter denotes. *)
Lemma select_decision_nil id tbl :
  select_decision id tbl = [] <->
  forall dec, In dec tbl -> Decision.id dec <> uuid_value id.
Proof.
  unfold select_decision. induction tbl as [|x l IH]; cbn [filter].
  - split; [intros _ dec [] | reflexivity].
  - destruct (String.eqb (Decision.id x) (uuid_value id)) eqn:E.
    + apply String.eqb_eq in E. split; [discriminate|].
      intros H. exfalso. apply (H x); [now left | exact E].
    + apply String.eqb_neq in E. rewrite IH. split.
      * intros H dec [<-|Hin]; [exact E | now apply H].
      * intros H dec Hin. apply H. now right.
Qed.

(** C7, as the handler has it. An approval whose decision_id denotes no
    stored decision leaves the store as it is: no ApprovalRecord and no
    LearningWeight row is written. Its answer is 400 validation_error
    when the request fails the schema, as it does when the decision_id
    is not a uuid; 500 internal_error when the lookup fails; and 404
    not_found otherwise. The decision_id is compared as the UUID it
    denotes: an approval under another spelling of a stored id is
    answered 201 when no round-trip fails. *)
Theorem approval_of_unknown_decision b e d :
  ((forall dec, In dec (decisions d) ->
      Decision.id dec <> uuid_value (CreateApprovalRequest.decision_id b)) ->
   createApprovalHandler b e d =
   (if createApprovalSchema_ok b
    then match fault e with
         | Some 0%nat => approval_failed
         | _ => json 404 (ErrorBody "not_found"
                  ("Decision with ID " ++ CreateApprovalRequest.decision_id b ++
                   " not found"))
         end
    else validation_error, d)) /\
  (forall dec,
     In dec (decisions d) ->
     Decision.id dec = uuid_value (CreateApprovalRequest.decision_id b) ->
     createApprovalSchema_ok b = true ->
     fault e = None ->
     status (fst (createApprovalHandler b e d)) = 201).
Proof.
  split.
  - intros Hnone. apply select_decision_nil in Hnone.
    pose proof (createApproval_outcome b e d) as H.
    destruct (createApprovalHandler b e d) as [resp d'].
    inversion H as [V|V F|V F S|dec rest V S F|dec rest n V S F|dec rest V S F];
      subst; try congruence; rewrite V; try reflexivity.
    + rewrite F. reflexivity.
    + destruct (fault e) as [[|k]|]; [congruence | reflexivity | reflexivity].
  - intros dec Hin Hid V F.
    assert (select_decision (CreateApprovalRequest.decision_id b) (decisions d) <> [])
      as Hsel.
    { intros Hnil. rewrite select_decision_nil in Hnil. exact (Hnil dec Hin Hid). }
    pose proof (createApproval_outcome b e d) as H.
    destruct (createApprovalHandler b e d) as [resp d'].
    inversion H; subst; try congruence. reflexivity.
Qed.

(** C6, as the handler has it. When the update of an edge fails, the
    submission fails as a whole: the answer is 500 internal_error and
    carries no count; the ApprovalRecord inserted before and the edge
    updates before the failing one stay in the store, the decisions are
    untouched and the later edges are not attempted. *)
Theorem approval_edge_failure b e d dec rest n :
  createApprovalSchema_ok b = true ->
  select_decision (CreateApprovalRequest.decision_id b) (decisions d) = dec :: rest ->
  fault e = Some (2 + n)%nat ->
  (n < 6)%nat ->
  let edges := firstn n (approval_edges (CreateApprovalRequest.decision_id b) dec) in
  let reward := adjustedReward (CreateApprovalRequest.approved b)
                  (CreateApprovalRequest.confidence_adjustment b) in
  let tbl := learning_weights d in
  let out := createApprovalHandler b e d in
  fst out = json 500 (ErrorBody "internal_error" "Failed to process approval") /\
  decisions (snd out) = decisions d /\
  approvals (snd out) = (approvals d ++ [approval_record b e])%list /\
  (forall ed, In ed edges ->
     exists r, find_weight (edge_key ed) (learning_weights (snd out)) = Some r /\
               rewarded reward (find_weight (edge_key ed) tbl) r) /\
  (forall k, ~ In k (map edge_key edges) ->
     find_weight k (learning_weights (snd out)) = find_weight k tbl).
Proof.
  intros V Hsel F Hn. cbn zeta.
  pose proof (createApproval_outcome b e d) as H.
  destruct (createApprovalHandler b e d) as [resp d'].
  inversion H; subst; cbn [fst snd]; try congruence;
    try match goal with
        | Hk : forall k, fault e = Some k -> _ |- _ => specialize (Hk _ F); lia
        | H1 : fault e = Some _ |- _ =>
            rewrite F in H1; simpl in H1; try discriminate H1; injection H1 as ?
        end.
  subst.
  match goal with
  | H1 : select_decision _ _ = _ |- _ => rewrite Hsel in H1; injection H1 as ? ?
  end.
  subst.
  match goal with
  | |- context [approved_db ?m _ _ ?dc _] =>
      destruct (approved_db_ledger m b e dc d) as [Htouched [Hother _]]
  end.
  repeat split; auto.
Qed.

(** ** The Decision Store *)

(** A creation answered 201 passed the schema and upserted its row. *)
Lemma createDecision_created b e d :
  status (fst (createDecisionHandler b e d)) = 201 ->
  exists c,
    parse_confidence (CreateDecisionRequest.confidence b) = Some c /\
    valid_decision (insert_decision (stored_decision b c e)) /\
    createDecisionHandler b e d =
    (json 201 (CreatedBody
       {| cdr_id := CreateDecisionRequest.id b;
          cdr_created := true;
          cdr_decision := stored_decision b c e |}),
     set_decisions d (upsert_decision (stored_decision b c e) (decisions d))).
Proof.
  unfold createDecisionHandler, try_catch, createDecision_body, createDecisionSchema,
    valid_decision.
  destruct (parse_confidence (CreateDecisionRequest.confidence b)) as [c|];
    [|discriminate].
  match goal with |- context [if ?c then _ else _] => destruct c eqn:V end;
    [|discriminate].
  repeat (apply andb_true_iff in V; destruct V as [V ?]).
  intros Hst. exists c. split; [reflexivity|]. split.
  { cbn [insert_decision stored_decision Decision.id Decision.objective
         Decision.command Decision.raw_output_hash Decision.recommendation
         Decision.embedding_text].
    repeat match goal with
           | H : (_ <=? _)%nat = true |- _ => apply Nat.leb_le in H
           | H : (_ =? _)%nat = true |- _ => apply Nat.eqb_eq in H
           end.
    split; [|repeat split; assumption].
    exists (CreateDecisionRequest.id b). split; [exact V | reflexivity]. }
  revert Hst.
  destruct (fault e) as [[|k]|] eqn:F;
    destruct (CreateDecisionRequest.created_at b) eqn:T;
    repeat (first [step F | rewrite T]); unfold ret; cbn [fst status json];
    intros Hst; try discriminate Hst;
    unfold stored_decision; rewrite T; reflexivity.
Qed.

Lemma createDecision_unchanged b e d :
  status (fst (createDecisionHandler b e d)) <> 201 ->
  snd (createDecisionHandler b e d) = d.
Proof.
  unfold createDecisionHandler, try_catch, createDecision_body, createDecisionSchema.
  destruct (parse_confidence (CreateDecisionRequest.confidence b)) as [c|];
    [|reflexivity].
  match goal with |- context [if ?c then _ else _] => destruct c end;
    [|reflexivity].
  destruct (fault e) as [[|k]|] eqn:F;
    destruct (CreateDecisionRequest.created_at b) eqn:T;
    repeat (first [step F | rewrite T]); unfold ret; cbn [fst snd status json db];
    intros Hst; first [reflexivity | now exfalso; apply Hst].
Qed.

Lemma createDecision_cases b e d :
  snd (createDecisionHandler b e d) = d \/
  exists c,
    parse_confidence (CreateDecisionRequest.confidence b) = Some c /\
    valid_decision (insert_decision (stored_decision b c e)) /\
    snd (createDecisionHandler b e d) =
    set_decisions d (upsert_decision (stored_decision b c e) (decisions d)).
Proof.
  destruct (Z.eq_dec (status (fst (createDecisionHandler b e d))) 201) as [Hst|Hst].
  - destruct (createDecision_created b e d Hst) as [c [Hc [Hval Hrun]]].
    right. exists c. rewrite Hrun.
    split; [exact Hc | split; [exact Hval | reflexivity]].
  - left. now apply createDecision_unchanged.
Qed.

(** What the upsert does to a stored row: it stays, with its id, its
    created_at and its embedding; it is left as it is when the new id
    denotes another UUID, and overwritten when the new id denotes its
    own, the ids of the table being distinct. *)
Lemma upsert_decision_keeps new tbl dec :
  In dec tbl ->
  exists dec',
    In dec' (upsert_decision new tbl) /\
    Decision.id dec' = Decision.id dec /\
    Decision.created_at dec' = Decision.created_at dec /\
    Decision.embedding dec' = Decision.embedding dec /\
    (uuid_value (Decision.id new) <> Decision.id dec -> dec' = dec) /\
    (uuid_value (Decision.id new) = Decision.id dec ->
     NoDup (map Decision.id tbl) ->
     dec' = overwrite_decision new dec).
Proof.
  induction tbl as [|x tbl IH]; intros Hin; [destruct Hin|].
  cbn [upsert_decision].
  destruct (String.eqb (Decision.id x) (uuid_value (Decision.id new))) eqn:E.
  - apply String.eqb_eq in E. destruct Hin as [->|Hin].
    + exists (overwrite_decision new dec).
      repeat split; try reflexivity; [now left | congruence].
    + exists dec. repeat split; auto; [now right|].
      intros Hid Hnd. exfalso. cbn [map] in Hnd.
      inversion Hnd as [|? ? Hnotin _]; subst. apply Hnotin.
      rewrite E, Hid. now apply in_map.
  - apply String.eqb_neq in E. destruct Hin as [->|Hin].
    + exists dec. repeat split; auto; [now left|].
      intros Hid. congruence.
    + destruct (IH Hin) as (dec' & Hin' & H1 & H2 & H3 & H4 & H5).
      exists dec'. repeat split; auto; [now right|].
      intros Hid Hnd. apply H5; [exact Hid|].
      cbn [map] in Hnd. now inversion Hnd.
Qed.

(** A new row is added only when no stored id is the UUID of the new
    one. *)
Lemma upsert_decision_length new tbl dec :
  In dec tbl -> Decision.id dec = uuid_value (Decision.id new) ->
  List.length (upsert_decision new tbl) = List.length tbl.
Proof.
  induction tbl as [|x tbl IH]; intros Hin Hid; [destruct Hin|].
  cbn [upsert_decision].
  destruct (String.eqb (Decision.id x) (uuid_value (Decision.id new))) eqn:E;
    [reflexivity|].
  apply String.eqb_neq in E. destruct Hin as [->|Hin]; [congruence|].
  cbn [List.length]. now rewrite IH.
Qed.

(** C8, as the handlers have it. A stored decision is never removed and
    keeps its id, its created_at and its embedding. An approval, a read
    and a listing leave the decisions table as it is; so does a creation
    that is not answered 201, and a creation under an id that denotes
    another UUID leaves the decision as it is. A creation answered 201
    under an id that denotes the UUID of the decision, in whatever case
    its digits are written, adds no row and replaces the objective, the
    command, the hash, the recommendation, the confidence, the signals,
    the embedding text and the graph relations of the decision by the
    ones of the request. *)
Theorem decision_identity_kept rq e d dec :
  In dec (decisions d) ->
  exists dec',
    In dec' (decisions (snd (handle rq e d))) /\
    Decision.id dec' = Decision.id dec /\
    Decision.created_at dec' = Decision.created_at dec /\
    Decision.embedding dec' = Decision.embedding dec /\
    match rq with
    | PostDecision b =>
        (uuid_value (CreateDecisionRequest.id b) <> Decision.id dec -> dec' = dec) /\
        (status (fst (handle rq e d)) <> 201 ->
         decisions (snd (handle rq e d)) = decisions d /\ dec' = dec) /\
        (uuid_value (CreateDecisionRequest.id b) = Decision.id dec ->
         status (fst (handle rq e d)) = 201 ->
         NoDup (map Decision.id (decisions d)) ->
         List.length (decisions (snd (handle rq e d))) = List.length (decisions d) /\
         Decision.objective dec' = CreateDecisionRequest.objective b /\
         Decision.command dec' = CreateDecisionRequest.command b /\
         Decision.raw_output_hash dec' = CreateDecisionRequest.raw_output_hash b /\
         Decision.recommendation dec' = CreateDecisionRequest.recommendation b /\
         parse_confidence (CreateDecisionRequest.confidence b) =
           Some (Decision.confidence dec') /\
         Decision.signals dec' = CreateDecisionRequest.signals b /\
         Decision.embedding_text dec' = CreateDecisionRequest.embedding_text b /\
         Decision.graph_relations dec' = CreateDecisionRequest.graph_relations b)
    | _ => decisions (snd (handle rq e d)) = decisions d /\ dec' = dec
    end.
Proof.
  intros Hin. pose proof (handle_decisions rq e d) as H.
  destruct rq as [b|id|q|b];
    try (exists dec; rewrite H; repeat split; auto).
  clear H. cbn [handle].
  destruct (Z.eq_dec (status (fst (createDecisionHandler b e d))) 201) as [Hst|Hst].
  - destruct (createDecision_created b e d Hst) as (c & Hc & _ & Hrun).
    rewrite Hrun. cbn [fst snd set_decisions decisions status json].
    destruct (upsert_decision_keeps (stored_decision b c e) _ _ Hin)
      as (dec' & Hin' & H1 & H2 & H3 & H4 & H5).
    cbn [stored_decision Decision.id] in H4, H5.
    exists dec'. do 4 (split; [assumption|]).
    split; [exact H4|]. split; [intros Hne; now exfalso; apply Hne|].
    intros Hid _ Hnd. split.
    { apply (upsert_decision_length _ _ dec Hin). cbn [stored_decision Decision.id].
      congruence. }
    rewrite (H5 Hid Hnd).
    cbn [overwrite_decision stored_decision Decision.objective Decision.command
         Decision.raw_output_hash Decision.recommendation Decision.confidence
         Decision.signals Decision.embedding_text Decision.graph_relations].
    repeat split; first [reflexivity | exact Hc].
  - rewrite (createDecision_unchanged b e d Hst).
    exists dec. repeat split; auto. all: intros; now exfalso; apply Hst.
Qed.

(** ** The Ranking Query *)

Lemma order_by_spec (a b : Row) :
  order_by a b = true <->
  (approval_weight b < approval_weight a)%Q \/
  ((approval_weight a == approval_weight b)%Q /\
   Decision.created_at (fst b) <= Decision.created_at (fst a)).
Proof.
  unfold order_by.
  destruct (Qeq_bool (approval_weight a) (approval_weight b)) eqn:E.
  - apply Qeq_bool_iff in E. rewrite Z.leb_le. split.
    + intros H. right. now split.
    + intros [H|[_ H]]; [|exact H]. rewrite E in H. now apply Qlt_irrefl in H.
  - apply Qeq_bool_neq in E. rewrite Qle_bool_iff. split.
    + intros H. left. apply Qle_lteq in H. destruct H as [H|H]; [exact H|].
      exfalso. apply E. now symmetry.
    + intros [H|[H _]]; [now apply Qlt_le_weak | contradiction].
Qed.

Lemma before_total a b : before a b \/ before b a.
Proof.
  unfold before. rewrite !order_by_spec.
  destruct (Q_dec (approval_weight a) (approval_weight b)) as [[H|H]|H].
  - right. now left.
  - left. now left.
  - destruct (Z.le_ge_cases (Decision.created_at (fst a)) (Decision.created_at (fst b))).
    + right. right. split; [now symmetry | assumption].
    + left. right. now split.
Qed.

Lemma before_trans a b c : before a b -> before b c -> before a c.
Proof.
  unfold before. rewrite !order_by_spec.
  intros [H1|[H1 H1']] [H2|[H2 H2']].
  - left. now apply Qlt_trans with (approval_weight b).
  - left. now rewrite <- H2.
  - left. now rewrite H1.
  - right. split; [now rewrite H1 | lia].
Qed.

Lemma insert_row_perm x l : Permutation (insert_row x l) (x :: l).
Proof.
  induction l as [|y l IH]; simpl; [reflexivity|].
  destruct (order_by x y); [reflexivity|].
  rewrite IH. apply perm_swap.
Qed.

Lemma insert_row_sorted x l :
  StronglySorted before l -> StronglySorted before (insert_row x l).
Proof.
  induction 1 as [|y l Hs IH Hall]; simpl.
  - repeat constructor.
  - destruct (order_by x y) eqn:E.
    + constructor; [now constructor|].
      constructor; [exact E|].
      eapply Forall_impl; [|exact Hall]. intros z Hz.
      now apply before_trans with y.
    + constructor; [exact IH|].
      apply Forall_forall. intros z Hz.
      apply (Permutation_in _ (insert_row_perm x l)) in Hz.
      destruct Hz as [<-|Hz].
      * destruct (before_total y x) as [H|H]; [exact H|].
        unfold before in H. congruence.
      * rewrite Forall_forall in Hall. now apply Hall.
Qed.

Lemma sort_rows_perm l : Permutation (sort_rows l) l.
Proof.
  induction l as [|x l IH]; simpl; [reflexivity|].
  rewrite insert_row_perm. now constructor.
Qed.

Lemma sort_rows_sorted l : StronglySorted before (sort_rows l).
Proof.
  induction l as [|x l IH]; simpl; [constructor|].
  now apply insert_row_sorted.
Qed.

Lemma sorted_skipn {A} (R : A -> A -> Prop) n : forall l,
  StronglySorted R l -> StronglySorted R (skipn n l).
Proof.
  induction n as [|n IH]; intros l H; [exact H|].
  destruct l as [|x l]; [exact H|]. simpl. apply IH. now inversion H.
Qed.

Lemma sorted_firstn {A} (R : A -> A -> Prop) n : forall l,
  StronglySorted R l -> StronglySorted R (firstn n l).
Proof.
  induction n as [|n IH]; intros l H; [constructor|].
  destruct l as [|x l]; [constructor|]. simpl.
  inversion H as [|? ? Hs Hall]; subst. constructor; [now apply IH|].
  apply Forall_forall. intros z Hz. rewrite Forall_forall in Hall.
  apply Hall. revert Hz. apply firstn_incl.
Qed.

Lemma sorted_nth {A} (R : A -> A -> Prop) l :
  StronglySorted R l ->
  forall i j a b,
    nth_error l i = Some a -> nth_error l j = Some b -> (i < j)%nat -> R a b.
Proof.
  induction 1 as [|x l Hs IH Hall]; intros i j a b Hi Hj Hlt.
  - destruct i; discriminate.
  - destruct j as [|j]; [lia|]. destruct i as [|i]; simpl in *.
    + injection Hi as <-. rewrite Forall_forall in Hall.
      apply Hall. now apply nth_error_In with j.
    + apply (IH i j); auto. lia.
Qed.

Lemma skipn_incl {A} n : forall (l : list A) a, In a (skipn n l) -> In a l.
Proof.
  induction n as [|n IH]; intros l a H; [exact H|].
  destruct l as [|x l]; [exact H|]. right. now apply IH.
Qed.

Lemma limit_offset_incl {A} n m (l : list A) a :
  In a (limit_offset n m l) -> In a l.
Proof. unfold limit_offset. intros H. eapply skipn_incl, firstn_incl, H. Qed.

(** A row of the join carries a ledger row the join condition accepts,
    or none when the ledger has no such row. *)
Lemma left_join_rows ds lws (row : Row) :
  In row (left_join ds lws) ->
  In (fst row) ds /\
  match snd row with
  | Some lw => In lw lws /\ join_on (fst row) lw = true
  | None => forall lw, In lw lws -> join_on (fst row) lw = false
  end.
Proof.
  unfold left_join. rewrite in_flat_map. intros [dec [Hdec Hrow]].
  destruct (filter (join_on dec) lws) as [|m ms] eqn:E.
  - destruct Hrow as [<-|[]]. split; [exact Hdec|]. simpl.
    intros lw Hlw. destruct (join_on dec lw) eqn:J; [|reflexivity].
    assert (In lw (filter (join_on dec) lws)) as H by (apply filter_In; auto).
    rewrite E in H. destruct H.
  - apply in_map_iff in Hrow. destruct Hrow as [lw [<- Hlw]].
    rewrite <- E in Hlw. apply filter_In in Hlw. simpl. tauto.
Qed.

Lemma find_unique lw tbl :
  NoDup (map Weight.key_of tbl) -> In lw tbl ->
  find_weight (Weight.key_of lw) tbl = Some lw.
Proof.
  unfold find_weight. induction tbl as [|r tbl IH]; intros Hnd Hin; [destruct Hin|].
  simpl in *. inversion Hnd as [|? ? Hnotin Hnd']; subst.
  destruct (Weight.key_eqb (Weight.key_of r) (Weight.key_of lw)) eqn:E.
  - destruct Hin as [->|Hin]; [reflexivity|].
    apply key_eqb_eq in E. exfalso. apply Hnotin. rewrite E. now apply in_map.
  - destruct Hin as [->|Hin]; [now rewrite key_eqb_refl in E | now apply IH].
Qed.

Lemma find_none k tbl :
  (forall lw, In lw tbl -> Weight.key_of lw <> k) -> find_weight k tbl = None.
Proof.
  unfold find_weight. induction tbl as [|r tbl IH]; intros H; [reflexivity|].
  simpl. destruct (Weight.key_eqb (Weight.key_of r) k) eqn:E.
  - apply key_eqb_eq in E. exfalso. apply (H r); [now left | exact E].
  - apply IH. intros lw Hlw. apply H. now right.
Qed.

Lemma join_on_key dec lw :
  join_on dec lw = true <->
  exists tv, Weight.key_of lw = edge_key (Source.decision, Decision.id dec, tv).
Proof.
  unfold join_on, Weight.key_of, edge_key.
  rewrite !andb_true_iff, source_eqb_eq, !String.eqb_eq. split.
  - intros [[-> ->] ->]. now exists (Weight.target_value lw).
  - intros [tv H]. injection H as -> -> -> _. auto.
Qed.

Lemma listing_body q e d :
  status (fst (listDecisionsHandler q e d)) = 200 ->
  listDecisionsHandler q e d = (listing q d, d).
Proof.
  rewrite listDecisions_outcome.
  destruct (fault e) as [[|[|k]]|]; cbn [fst]; intros H;
    try discriminate H; reflexivity.
Qed.

(** C3, as the query has it. The rows of a listing are the decisions
    under the filter, each joined to the ledger rows whose source is
    (decision, id of the decision) and whose target type is
    recommendation, whatever their target value, and to none when there
    is no such row; the page is cut from these rows sorted by the joined
    weight, 0 without a joined row, in descending order and then by
    created_at in descending order, so that a row of greater weight
    stands before a row of smaller weight whatever their creation times.
    When the ledger rows of every decision all have the recommendation
    type of the decision as target value, the joined weight is the
    weight of the edge the specification names. *)
Theorem listing_order q e d :
  status (fst (listDecisionsHandler q e d)) = 200 ->
  let tbl := learning_weights d in
  let joined := left_join (filter (whereClause (q_objective q)) (decisions d)) tbl in
  exists r page,
    body (fst (listDecisionsHandler q e d)) = ListBody r /\
    data r = map fst page /\
    page = limit_offset (limit r) (offset r) (ranked_rows (q_objective q) d) /\
    Permutation (ranked_rows (q_objective q) d) joined /\
    (forall row, In row page -> In row joined) /\
    (forall i j r1 r2,
       nth_error page i = Some r1 -> nth_error page j = Some r2 -> (i < j)%nat ->
       (approval_weight r2 < approval_weight r1)%Q \/
       ((approval_weight r1 == approval_weight r2)%Q /\
        Decision.created_at (fst r2) <= Decision.created_at (fst r1))) /\
    (forall i j r1 r2,
       nth_error page i = Some r1 -> nth_error page j = Some r2 ->
       (approval_weight r2 < approval_weight r1)%Q -> (i < j)%nat) /\
    (NoDup (map Weight.key_of tbl) ->
     (forall dec lw,
        In dec (decisions d) -> In lw tbl -> join_on dec lw = true ->
        Weight.target_value lw =
        extractRecommendationType (Decision.recommendation dec)) ->
     forall row, In row page -> approval_weight row = edge_weight tbl (fst row)).
Proof.
  intros Hst. cbn zeta. rewrite (listing_body q e d Hst).
  cbn [fst body listing json].
  set (page := limit_offset (parsedLimit (q_limit q)) (parsedOffset (q_offset q))
                 (ranked_rows (q_objective q) d)).
  assert (StronglySorted before page) as Hsorted.
  { unfold page, limit_offset, ranked_rows.
    apply sorted_firstn, sorted_skipn, sort_rows_sorted. }
  assert (forall row, In row page ->
            In row (left_join (filter (whereClause (q_objective q)) (decisions d))
                      (learning_weights d))) as Hin.
  { intros row H. apply limit_offset_incl in H.
    apply (Permutation_in _ (sort_rows_perm _)) in H. exact H. }
  eexists. exists page. split; [reflexivity|]. cbn [data limit offset].
  repeat split; auto.
  - apply sort_rows_perm.
  - intros i j r1 r2 Hi Hj Hlt. apply order_by_spec.
    exact (sorted_nth before page Hsorted i j r1 r2 Hi Hj Hlt).
  - intros i j r1 r2 Hi Hj Hw.
    destruct (Nat.lt_trichotomy i j) as [H|[H|H]]; [exact H| |].
    + subst j. rewrite Hi in Hj. injection Hj as <-. now apply Qlt_irrefl in Hw.
    + pose proof (sorted_nth before page Hsorted j i r2 r1 Hj Hi H) as Hb.
      apply order_by_spec in Hb. destruct Hb as [Hb|[Hb _]].
      * exfalso. apply (Qlt_irrefl (approval_weight r1)).
        now apply Qlt_trans with (approval_weight r2).
      * rewrite Hb in Hw. now apply Qlt_irrefl in Hw.
  - intros Hnd Htyped row Hrow. apply Hin, left_join_rows in Hrow.
    destruct Hrow as [Hdec Hjoin]. apply filter_In in Hdec. destruct Hdec as [Hdec _].
    unfold approval_weight, edge_weight. destruct (snd row) as [lw|].
    + destruct Hjoin as [Hlw Hj].
      assert (Weight.key_of lw =
              edge_key (Source.decision, Decision.id (fst row),
                        extractRecommendationType (Decision.recommendation (fst row))))
        as <-.
      { pose proof (Htyped _ _ Hdec Hlw Hj) as Ht.
        apply join_on_key in Hj. destruct Hj as [tv Hk]. rewrite Hk.
        unfold Weight.key_of, edge_key in Hk. injection Hk as _ _ _ Htv.
        unfold edge_key. congruence. }
      now rewrite find_unique.
    + rewrite find_none; [reflexivity|].
      intros lw Hlw Hk. specialize (Hjoin lw Hlw).
      assert (join_on (fst row) lw = true) by (apply join_on_key; eauto).
      congruence.
Qed.



(** ** Recommendation types *)

Lemma not_leading s t u :
  (forall c0 c1 c2 s',
     Js.toUpperCase (Js.substring0 (String.length t) (String c0 (String c1 (String c2 s')))) = t ->
     Js.toUpperCase (Js.substring0 (String.length u) (String c0 (String c1 (String c2 s')))) = u ->
     False) ->
  (3 <= String.length t)%nat -> (3 <= String.length u)%nat ->
  begins_with t s -> begins_with u s -> False.
Proof.
  unfold begins_with. intros H Ht Hu H1 H2.
  destruct s as [|c0 [|c1 [|c2 s]]].
  4: exact (H c0 c1 c2 s H1 H2).
  all: apply (f_equal String.length) in H1;
    destruct t as [|? [|? [|? t]]]; simpl in Ht, H1; try lia; discriminate H1.
Qed.

Lemma toUpperCase_length s : String.length (Js.toUpperCase s) = String.length s.
Proof. induction s; cbn [Js.toUpperCase String.length]; congruence. Qed.

Lemma substring0_prefix p s : Js.substring0 (String.length p) (p ++ s) = p.
Proof.
  unfold Js.substring0. induction p as [|c p IH]; cbn.
  - now destruct s.
  - now rewrite IH.
Qed.

Lemma leading_token_prefix s : exists rest, s = leading_token s ++ rest.
Proof.
  induction s as [|c s [rest IH]]; cbn [leading_token].
  - now exists EmptyString.
  - destruct (is_word_char c).
    + exists rest. cbn. now rewrite <- IH.
    + now exists (String c s).
Qed.

(** A text whose leading token is the word begins with the word. *)
Lemma leading_token_begins t s : leading_token_is t s -> begins_with t s.
Proof.
  unfold leading_token_is, begins_with. intros H.
  destruct (leading_token_prefix s) as [rest Hs].
  assert (String.length t = String.length (leading_token s)) as ->
    by (rewrite <- H; apply toUpperCase_length).
  rewrite Hs at 2. now rewrite substring0_prefix.
Qed.

(** C5, as the function has it. Every recommendation text is classified
    as one of PROCEED, DEFER, REJECT, REVIEW, HALT and UNKNOWN; it is
    classified as one of the five types exactly when it begins with that
    word, the case of the letters being ignored and whether or not the
    word ends there, and as UNKNOWN exactly when it begins with none of
    them. A text whose leading token is one of the five words is
    classified as that word. *)
Theorem extractRecommendationType_classifies (s : string) :
  In (extractRecommendationType s)
     ["PROCEED"; "DEFER"; "REJECT"; "REVIEW"; "HALT"; "UNKNOWN"] /\
  (forall t, In t recommendation_types ->
     (extractRecommendationType s = t <-> begins_with t s)) /\
  (extractRecommendationType s = "UNKNOWN" <->
   forall t, In t recommendation_types -> ~ begins_with t s) /\
  (forall t, In t recommendation_types ->
     leading_token_is t s -> extractRecommendationType s = t).
Proof.
  clear is_uuid ilike.
  enough (In (extractRecommendationType s)
            ["PROCEED"; "DEFER"; "REJECT"; "REVIEW"; "HALT"; "UNKNOWN"] /\
          (forall t, In t recommendation_types ->
             (extractRecommendationType s = t <-> begins_with t s)) /\
          (extractRecommendationType s = "UNKNOWN" <->
           forall t, In t recommendation_types -> ~ begins_with t s)) as H.
  { destruct H as (H1 & H2 & H3). repeat split; try assumption;
      try apply H3; try (apply H2; assumption).
    intros t Ht Hl. apply H2; [exact Ht|]. now apply leading_token_begins. }
  assert (forall t u, In t recommendation_types -> In u recommendation_types ->
            begins_with t s -> begins_with u s -> t = u) as Huniq.
  { intros t u Ht Hu H1 H2. simpl in Ht, Hu.
    destruct Ht as [<-|[<-|[<-|[<-|[<-|[]]]]]];
      destruct Hu as [<-|[<-|[<-|[<-|[<-|[]]]]]]; try reflexivity; exfalso.
    all: refine (not_leading s _ _ _ _ _ H1 H2); [|simpl; lia|simpl; lia].
    all: unfold Js.substring0; simpl; intros c0 c1 c2 s' E1 E2; congruence. }
  assert (forall t, In t recommendation_types -> t <> "UNKNOWN") as Hunk.
  { intros t Ht. simpl in Ht.
    destruct Ht as [<-|[<-|[<-|[<-|[<-|[]]]]]]; discriminate. }
  assert (forall t, In t recommendation_types ->
            Js.match_literal_i t s = true <-> begins_with t s) as Hlit.
  { intros t Ht. rewrite match_literal_i_spec. unfold begins_with.
    simpl in Ht.
    destruct Ht as [<-|[<-|[<-|[<-|[<-|[]]]]]]; reflexivity. }
  assert ((exists t, In t recommendation_types /\ begins_with t s /\
                     extractRecommendationType s = t) \/
          ((forall t, In t recommendation_types -> ~ begins_with t s) /\
           extractRecommendationType s = "UNKNOWN")) as Hcases.
  { unfold extractRecommendationType, recommendation_types.
    cbn [Js.match_alternation_i].
    destruct (Js.match_literal_i "PROCEED" s) eqn:E1;
      [|destruct (Js.match_literal_i "DEFER" s) eqn:E2;
        [|destruct (Js.match_literal_i "REJECT" s) eqn:E3;
          [|destruct (Js.match_literal_i "REVIEW" s) eqn:E4;
            [|destruct (Js.match_literal_i "HALT" s) eqn:E5]]]].
    1-5: left.
    1-5: match goal with
         | E : Js.match_literal_i ?t _ = true |- _ =>
             exists t; apply Hlit in E; [|simpl; tauto];
             split; [simpl; tauto | split; [exact E | exact E]]
         end.
    right. split; [|reflexivity].
    intros t Ht Hl. apply Hlit in Hl; [|exact Ht]. simpl in Ht.
    destruct Ht as [<-|[<-|[<-|[<-|[<-|[]]]]]]; congruence. }
  destruct Hcases as [[t [Ht [Hl He]]]|[Hnone He]].
  - rewrite He. split; [|split].
    + simpl in Ht |- *. tauto.
    + intros u Hu. split; [intros <-; exact Hl | intros Hu'; eauto].
    + split.
      * intros E. exfalso. now apply (Hunk t).
      * intros H. exfalso. now apply (H t).
  - rewrite He. split; [|split].
    + simpl. tauto.
    + intros u Hu. split.
      * intros E. exfalso. apply (Hunk u Hu). now symmetry.
      * intros Hl. exfalso. now apply (Hnone u).
    + split; auto.
Qed.

(** * Further properties of the handlers *)

(** ** The ledger under repeated rewards *)

(** One approval answered 201 blends the row of each of its edges once. *)
Lemma approval_blends b e d dec rest ed r0 :
  status (fst (createApprovalHandler b e d)) = 201 ->
  select_decision (CreateApprovalRequest.decision_id b) (decisions d) = dec :: rest ->
  In ed (approval_edges (CreateApprovalRequest.decision_id b) dec) ->
  find_weight (edge_key ed) (learning_weights d) = Some r0 ->
  let reward := adjustedReward (CreateApprovalRequest.approved b)
                  (CreateApprovalRequest.confidence_adjustment b) in
  decisions (snd (createApprovalHandler b e d)) = decisions d /\
  exists r1,
    find_weight (edge_key ed) (learning_weights (snd (createApprovalHandler b e d))) =
      Some r1 /\
    Weight.weight r1 =
      (Weight.weight r0 + (1 # 10) * (reward - Weight.weight r0))%Q /\
    Weight.update_count r1 = Weight.update_count r0 + 1.
Proof.
  intros Hst Hsel Hin H0. cbn zeta.
  destruct (status_created b e d Hst) as [dec' [rest' [Hsel' Hrun]]].
  rewrite Hsel in Hsel'. injection Hsel' as <- <-.
  rewrite Hrun. cbn [snd]. split; [reflexivity|].
  destruct (approved_db_ledger 6 b e dec d) as [Htouched _].
  destruct (Htouched ed Hin) as [r1 [H1 Hrew]].
  rewrite H0 in Hrew. exists r1. split; [exact H1 | exact Hrew].
Qed.

(** X1. When an approval is sent again and again for a decision and is
    answered 201 every time, the weight of each of its edges that had a
    row moves towards the reward and never past it: it stays between the
    weight before and the reward; and the update count of the row grows
    by the number of the approvals. *)
Theorem repeated_approvals_approach b (es : list Env) : forall d dec rest ed r0,
  approvals_created b es d ->
  select_decision (CreateApprovalRequest.decision_id b) (decisions d) = dec :: rest ->
  In ed (approval_edges (CreateApprovalRequest.decision_id b) dec) ->
  find_weight (edge_key ed) (learning_weights d) = Some r0 ->
  let reward := adjustedReward (CreateApprovalRequest.approved b)
                  (CreateApprovalRequest.confidence_adjustment b) in
  exists r,
    find_weight (edge_key ed)
      (learning_weights (serve (map (fun e => (PostApproval b, e)) es) d)) = Some r /\
    Weight.update_count r = Weight.update_count r0 + Z.of_nat (List.length es) /\
    ((Weight.weight r0 <= reward)%Q ->
     (Weight.weight r0 <= Weight.weight r)%Q /\ (Weight.weight r <= reward)%Q) /\
    ((reward <= Weight.weight r0)%Q ->
     (reward <= Weight.weight r)%Q /\ (Weight.weight r <= Weight.weight r0)%Q).
Proof.
  induction es as [|e es IH]; intros d dec rest ed r0 Hall Hsel Hin H0; cbn zeta.
  - exists r0. cbn [map serve List.length]. split; [exact H0|].
    split; [simpl; lia|]. split; intros; split; lra.
  - destruct Hall as [Hst Hall]. cbn [map serve handle List.length].
    destruct (approval_blends b e d dec rest ed r0 Hst Hsel Hin H0)
      as [Hdec [r1 [H1 [Hw Hc]]]].
    rewrite <- Hdec in Hsel.
    destruct (IH _ dec rest ed r1 Hall Hsel Hin H1) as [r [Hr [Hcount [Hup Hdown]]]].
    exists r. split; [exact Hr|]. split; [rewrite Hcount, Hc; lia|].
    rewrite Hw in Hup, Hdown.
    split; intros Hle; [destruct Hup as [? ?] | destruct Hdown as [? ?]];
      try lra; split; lra.
Qed.

(** ** Rewards and weights stay in range *)

(** X2. The reward of a request that passes the schema lies between -2
    and 2; it is not negative for an approval and not positive for a
    rejection. *)
Theorem reward_bounds b :
  createApprovalSchema_ok b = true ->
  let reward := adjustedReward (CreateApprovalRequest.approved b)
                  (CreateApprovalRequest.confidence_adjustment b) in
  within_two reward /\
  (CreateApprovalRequest.approved b = true -> (0 <= reward)%Q) /\
  (CreateApprovalRequest.approved b = false -> (reward <= 0)%Q).
Proof.
  unfold createApprovalSchema_ok, adjustedReward, truthy, within_two, base_reward.
  intros V. apply andb_true_iff in V. destruct V as [_ V].
  destruct (CreateApprovalRequest.confidence_adjustment b) as [a|];
    destruct (CreateApprovalRequest.approved b); cbn zeta.
  1,2: apply andb_true_iff in V; destruct V as [V1 V2];
       apply Qle_bool_iff in V1; apply Qle_bool_iff in V2;
       destruct (Qeq_bool a 0).
  all: repeat split; intros; try discriminate; try lra.
Qed.

Lemma within_two_blend w reward :
  within_two w -> within_two reward ->
  within_two (w + LEARNING_RATE * (reward - w)).
Proof. unfold within_two, LEARNING_RATE. intros [? ?] [? ?]. split; lra. Qed.

Lemma applyReward_within reward tbl it :
  within_two reward ->
  Forall (fun r => within_two (Weight.weight r)) tbl ->
  Forall (fun r => within_two (Weight.weight r)) (applyReward reward tbl it).
Proof.
  destruct it as [[id now] [[st sid] tv]]. intros Hr. unfold applyReward.
  induction 1 as [|r tbl Hw Hall IH]; cbn [upsert_learning_weight].
  - constructor; [exact Hr | constructor].
  - destruct (Weight.key_eqb _ _).
    + constructor; [|exact Hall]. now apply within_two_blend.
    + constructor; assumption.
Qed.

Lemma fold_applyReward_within reward items : forall tbl,
  within_two reward ->
  Forall (fun r => within_two (Weight.weight r)) tbl ->
  Forall (fun r => within_two (Weight.weight r))
    (fold_left (applyReward reward) items tbl).
Proof.
  induction items as [|it items IH]; intros tbl Hr H; [exact H|].
  cbn [fold_left]. apply IH; [exact Hr|]. now apply applyReward_within.
Qed.

Lemma handle_within rq e d :
  Forall (fun r => within_two (Weight.weight r)) (learning_weights d) ->
  Forall (fun r => within_two (Weight.weight r))
    (learning_weights (snd (handle rq e d))).
Proof.
  intros H. destruct rq as [b|id|q|b]; cbn [handle].
  - destruct (createDecision_store b e d) as [->|[c ->]]; exact H.
  - now rewrite getDecision_store.
  - now rewrite listDecisions_outcome.
  - destruct (createApproval_outcome b e d) as [ | | | | dec rest n V _ _ _ | dec rest V _ _ ];
      cbn [snd]; try exact H.
    all: unfold approved_db; cbn [learning_weights];
      apply fold_applyReward_within; [|exact H];
      apply (reward_bounds b V).
Qed.

(** X3. When every weight of the ledger lies between -2 and 2, so does
    every weight after any sequence of requests, whichever round-trips
    fail. *)
Theorem ledger_stays_bounded rqs : forall d,
  Forall (fun r => within_two (Weight.weight r)) (learning_weights d) ->
  Forall (fun r => within_two (Weight.weight r)) (learning_weights (serve rqs d)).
Proof.
  induction rqs as [|[rq e] rqs IH]; intros d H; [exact H|].
  cbn [serve]. apply IH. now apply handle_within.
Qed.

(** ** Rows of the ledger are kept *)

Lemma ema_trace_keeps tbl tbl' :
  ema_trace tbl tbl' ->
  forall k r, find_weight k tbl = Some r ->
  exists r',
    find_weight k tbl' = Some r' /\
    Weight.id r' = Weight.id r /\
    Weight.created_at r' = Weight.created_at r /\
    Weight.update_count r <= Weight.update_count r'.
Proof.
  induction 1 as [tbl|reward [[id now] ed] tbl tbl' _ IH]; intros k r Hk.
  - exists r. repeat split; auto. lia.
  - assert (exists r1, find_weight k (applyReward reward tbl (id, now, ed)) = Some r1 /\
              Weight.id r1 = Weight.id r /\
              Weight.created_at r1 = Weight.created_at r /\
              Weight.update_count r <= Weight.update_count r1) as [r1 [H1 [Hi [Hc Hu]]]].
    { destruct (Weight.key_eqb k (edge_key ed)) eqn:E.
      - apply key_eqb_eq in E. subst k. destruct ed as [[st sid] tv].
        unfold applyReward.
        change (edge_key (st, sid, tv))
          with (Weight.key_of (seed_row id st sid tv reward now)) in *.
        rewrite find_upsert_same, Hk. eexists. split; [reflexivity|].
        cbn. repeat split; lia.
      - apply key_eqb_neq in E.
        rewrite (find_applyReward_other reward tbl (id, now, ed) k E).
        exists r. repeat split; auto. lia. }
    destruct (IH _ _ H1) as [r' [H' [Hi' [Hc' Hu']]]].
    exists r'. repeat split; try congruence. lia.
Qed.

(** X4. A row of the ledger is never removed: after any sequence of
    requests the key of the row still has a row, with the same id and
    the same created_at and with an update count that is not smaller. *)
Theorem ledger_rows_persist rqs d k r :
  find_weight k (learning_weights d) = Some r ->
  exists r',
    find_weight k (learning_weights (serve rqs d)) = Some r' /\
    Weight.id r' = Weight.id r /\
    Weight.created_at r' = Weight.created_at r /\
    Weight.update_count r <= Weight.update_count r'.
Proof. apply ema_trace_keeps, serve_ledger. Qed.

(** ** Counting updates and rows *)

Lemma total_updates_cons r tbl :
  total_updates (r :: tbl) = Weight.update_count r + total_updates tbl.
Proof. reflexivity. Qed.

Lemma total_updates_applyReward reward tbl it :
  total_updates (applyReward reward tbl it) = total_updates tbl + 1.
Proof.
  destruct it as [[id now] [[st sid] tv]]. unfold applyReward.
  induction tbl as [|r tbl IH]; cbn [upsert_learning_weight].
  - cbn. lia.
  - destruct (Weight.key_eqb _ _); rewrite !total_updates_cons.
    + cbn [ema_update Weight.update_count]. lia.
    + rewrite IH. lia.
Qed.

Lemma total_updates_fold reward items : forall tbl,
  total_updates (fold_left (applyReward reward) items tbl) =
  total_updates tbl + Z.of_nat (List.length items).
Proof.
  induction items as [|it items IH]; intros tbl; cbn [fold_left List.length].
  - lia.
  - rewrite IH, total_updates_applyReward. lia.
Qed.

Lemma firstn_items_length n b e dec :
  (n <= 6)%nat -> List.length (firstn n (approval_items b e dec)) = n.
Proof.
  intros H. rewrite length_firstn.
  apply Nat.min_l. exact H.
Qed.

(** X5. The update counts of the ledger add up to six more after an
    approval answered 201; after any request they add up to at least as
    much as before and to at most six more. *)
Theorem approval_counts_updates rq e d :
  let before := total_updates (learning_weights d) in
  let after := total_updates (learning_weights (snd (handle rq e d))) in
  before <= after <= before + 6 /\
  (forall b, rq = PostApproval b ->
     status (fst (createApprovalHandler b e d)) = 201 -> after = before + 6).
Proof.
  cbn zeta. destruct rq as [b|id|q|b]; cbn [handle].
  - split; [|discriminate].
    destruct (createDecision_store b e d) as [->|[c ->]];
      cbn [learning_weights set_decisions]; lia.
  - rewrite getDecision_store. split; [lia | discriminate].
  - rewrite listDecisions_outcome. cbn [snd]. split; [lia | discriminate].
  - split.
    + destruct (createApproval_outcome b e d) as [ | | | | dec rest n _ _ _ Hn | dec rest _ _ _ ];
        cbn [snd]; try lia.
      all: unfold approved_db; cbn [learning_weights];
        rewrite total_updates_fold, firstn_items_length; lia.
    + intros b' Hb Hst. injection Hb as <-.
      destruct (status_created b e d Hst) as [dec [rest [_ Hrun]]].
      rewrite Hrun. cbn [snd]. unfold approved_db. cbn [learning_weights].
      rewrite total_updates_fold, firstn_items_length; lia.
Qed.

Lemma length_applyReward reward tbl (id : string) (now : Z) (ed : Edge) :
  List.length (applyReward reward tbl (id, now, ed)) =
  (List.length tbl + if absent tbl ed then 1 else 0)%nat.
Proof.
  destruct ed as [[st sid] tv]. unfold absent, applyReward, find_weight.
  change (edge_key (st, sid, tv))
    with (Weight.key_of (seed_row id st sid tv reward now)).
  induction tbl as [|r tbl IH]; cbn [upsert_learning_weight find List.length].
  - reflexivity.
  - destruct (Weight.key_eqb _ _); cbn [List.length].
    + lia.
    + rewrite IH. lia.
Qed.

Lemma absent_applyReward_other reward tbl it ed :
  edge_key ed <> item_key it ->
  absent (applyReward reward tbl it) ed = absent tbl ed.
Proof.
  intros H. unfold absent. now rewrite find_applyReward_other.
Qed.

Lemma length_fold_applyReward reward items : forall tbl,
  NoDup (map item_key items) ->
  List.length (fold_left (applyReward reward) items tbl) =
  (List.length tbl + List.length (filter (absent tbl) (map snd items)))%nat.
Proof.
  induction items as [|[[id now] ed] items IH]; intros tbl Hnd;
    cbn [fold_left map filter snd]; [cbn; lia|].
  inversion Hnd as [|k ks Hnotin Hnd']; subst.
  rewrite (IH _ Hnd'), length_applyReward.
  assert (filter (absent (applyReward reward tbl (id, now, ed))) (map snd items) =
          filter (absent tbl) (map snd items)) as ->.
  { apply filter_ext_in. intros ed' Hin. apply absent_applyReward_other.
    intros Heq. apply Hnotin. apply in_map_iff in Hin.
    destruct Hin as [it [<- Hit]]. apply in_map_iff. exists it. split; auto. }
  destruct (absent tbl ed); cbn [List.length]; lia.
Qed.

(** X6. An approval answered 201 adds to the ledger one row for each of
    its six edges that had no row and removes none: the ledger grows by
    the number of edges that were absent, six at most. *)
Theorem approval_adds_missing_rows b e d :
  status (fst (createApprovalHandler b e d)) = 201 ->
  exists dec rest,
    select_decision (CreateApprovalRequest.decision_id b) (decisions d) = dec :: rest /\
    let missing := filter (absent (learning_weights d))
                     (approval_edges (CreateApprovalRequest.decision_id b) dec) in
    List.length (learning_weights (snd (createApprovalHandler b e d))) =
      (List.length (learning_weights d) + List.length missing)%nat /\
    (List.length missing <= 6)%nat.
Proof.
  intros Hst. destruct (status_created b e d Hst) as [dec [rest [Hsel Hrun]]].
  exists dec, rest. split; [exact Hsel|]. cbn zeta. rewrite Hrun. cbn [snd].
  unfold approved_db. cbn [learning_weights].
  change (firstn 6 (approval_items b e dec)) with (approval_items b e dec).
  rewrite length_fold_applyReward.
  - rewrite approval_items_edges. split; [reflexivity|].
    etransitivity; [apply filter_length_le|]. cbn. lia.
  - change (approval_items b e dec) with (firstn 6 (approval_items b e dec)).
    rewrite approval_items_keys. apply approval_edges_distinct.
Qed.

(** ** The Approval Recorder *)

Lemma handle_approvals rq e d :
  approvals (snd (handle rq e d)) = approvals d \/
  exists b dec,
    rq = PostApproval b /\
    In dec (decisions d) /\
    Decision.id dec = uuid_value (CreateApprovalRequest.decision_id b) /\
    approvals (snd (handle rq e d)) = (approvals d ++ [approval_record b e])%list.
Proof.
  destruct rq as [b|id|q|b]; cbn [handle].
  - left. destruct (createDecision_store b e d) as [->|[c ->]]; reflexivity.
  - left. now rewrite getDecision_store.
  - left. now rewrite listDecisions_outcome.
  - destruct (createApproval_outcome b e d) as [ | | | | dec rest n _ Hsel _ _ | dec rest _ Hsel _ ];
      cbn [snd]; try (left; reflexivity).
    all: right; exists b, dec; split; [reflexivity|].
    all: assert (In dec (select_decision (CreateApprovalRequest.decision_id b)
                           (decisions d))) as Hin by (rewrite Hsel; now left).
    all: apply filter_In in Hin; destruct Hin as [Hin Heq];
      apply String.eqb_eq in Heq.
    all: repeat split; auto.
Qed.

(** X7. The approvals table only grows at its end: after any sequence of
    requests it is the table before followed by new records, at most one
    for each request. *)
Theorem approvals_append_only rqs : forall d,
  exists l,
    approvals (serve rqs d) = (approvals d ++ l)%list /\
    (List.length l <= List.length rqs)%nat.
Proof.
  induction rqs as [|[rq e] rqs IH]; intros d; cbn [serve].
  - exists []. split; [now rewrite app_nil_r | cbn; lia].
  - destruct (IH (snd (handle rq e d))) as [l [Hl Hlen]].
    destruct (handle_approvals rq e d) as [H|[b [dec [_ [_ [_ H]]]]]];
      rewrite H in Hl.
    + exists l. split; [exact Hl | cbn; lia].
    + exists (approval_record b e :: l). split.
      * rewrite Hl, <- app_assoc. reflexivity.
      * cbn. lia.
Qed.

Lemma handle_referenced rq e d : referenced d -> referenced (snd (handle rq e d)).
Proof.
  intros Href a Ha.
  assert (forall dec, In dec (decisions d) ->
            exists dec', In dec' (decisions (snd (handle rq e d))) /\
                         Decision.id dec' = Decision.id dec) as Hkeep.
  { intros dec Hdec. pose proof (handle_decisions rq e d) as H.
    destruct rq as [b|id|q|b]; try (exists dec; rewrite H; auto).
    destruct H as [->|[c ->]]; [exists dec; auto|].
    destruct (upsert_decision_keeps (stored_decision b c e) _ _ Hdec)
      as [dec' [Hin' [Hid _]]].
    exists dec'. auto. }
  destruct (handle_approvals rq e d) as [H|[b [dec [_ [Hdec [Hid H]]]]]];
    rewrite H in Ha.
  - destruct (Href a Ha) as [dec [Hdec Hid]].
    destruct (Hkeep dec Hdec) as [dec' [Hin' Hid']].
    exists dec'. split; [exact Hin' | congruence].
  - apply in_app_or in Ha. destruct Ha as [Ha|[<-|[]]].
    + destruct (Href a Ha) as [dec0 [Hdec0 Hid0]].
      destruct (Hkeep dec0 Hdec0) as [dec' [Hin' Hid']].
      exists dec'. split; [exact Hin' | congruence].
    + destruct (Hkeep dec Hdec) as [dec' [Hin' Hid']].
      exists dec'. split; [exact Hin'|]. cbn. congruence.
Qed.

(** X8. When every ApprovalRecord refers to a stored decision, this is
    so after any sequence of requests: an approval is recorded for a
    stored decision only, and a stored decision keeps its id. *)
Theorem approvals_reference_decisions rqs : forall d,
  referenced d -> referenced (serve rqs d).
Proof.
  induction rqs as [|[rq e] rqs IH]; intros d H; [exact H|].
  cbn [serve]. apply IH. now apply handle_referenced.
Qed.

(** ** Keys of the edges *)

Lemma substring0_length n : forall s,
  String.length (Js.substring0 n s) = Nat.min n (String.length s).
Proof.
  unfold Js.substring0.
  induction n as [|n IH]; intros [|c s]; cbn [substring String.length Nat.min];
    try reflexivity.
  now rewrite IH.
Qed.

Lemma substring0_short n : forall s,
  (String.length s <= n)%nat -> Js.substring0 n s = s.
Proof.
  unfold Js.substring0.
  induction n as [|n IH]; intros [|c s] H; cbn [substring String.length] in *;
    try reflexivity; [lia|].
  rewrite IH; [reflexivity | lia].
Qed.

(** X9. The source id of a signal edge has at most 61 code units and the
    source id of the objective edge at most 200; an objective of at most
    200 code units is its own source id. *)
Theorem edge_keys_bounded id dec st sid tv :
  In (st, sid, tv) (approval_edges id dec) ->
  (st = Source.signal -> (String.length sid <= 61)%nat) /\
  (st = Source.objective ->
   (String.length sid <= 200)%nat /\
   ((String.length (Decision.objective dec) <= 200)%nat ->
    sid = Decision.objective dec)).
Proof.
  clear is_uuid ilike. unfold approval_edges. cbn [In].
  intros [H|[H|[H|[H|[H|[H|[]]]]]]]; injection H as <- <- <-;
    split; intros Hst; try discriminate Hst.
  1-3: cbn [append String.length]; rewrite substring0_length; lia.
  split; [rewrite substring0_length; lia | apply substring0_short].
Qed.

(** ** Recommendation types *)

Lemma upper_char_idem c : Js.upper_char (Js.upper_char c) = Js.upper_char c.
Proof. destruct c as [[] [] [] [] [] [] [] []]; reflexivity. Qed.

Lemma toUpperCase_substring0 n : forall s,
  Js.toUpperCase (Js.substring0 n s) = Js.substring0 n (Js.toUpperCase s).
Proof.
  unfold Js.substring0.
  induction n as [|n IH]; intros [|c s]; cbn [substring Js.toUpperCase];
    try reflexivity.
  now rewrite IH.
Qed.

Lemma match_literal_i_same p s1 s2 :
  Js.toUpperCase s1 = Js.toUpperCase s2 ->
  Js.match_literal_i p s1 = Js.match_literal_i p s2.
Proof.
  intros H.
  pose proof (match_literal_i_spec p s1) as H1.
  pose proof (match_literal_i_spec p s2) as H2.
  rewrite toUpperCase_substring0 in H1, H2. rewrite H in H1.
  destruct (Js.match_literal_i p s1), (Js.match_literal_i p s2); try reflexivity.
  - symmetry. apply H2, H1. reflexivity.
  - apply H1, H2. reflexivity.
Qed.

(** X10. The classification ignores the case of the letters of the whole
    text: two texts that are equal once put in upper case have the same
    recommendation type. *)
Theorem extract_case_insensitive s1 s2 :
  Js.toUpperCase s1 = Js.toUpperCase s2 ->
  extractRecommendationType s1 = extractRecommendationType s2.
Proof.
  clear is_uuid ilike. intros H. unfold extractRecommendationType.
  induction recommendation_types as [|a alts IH]; cbn [Js.match_alternation_i];
    [reflexivity|].
  rewrite (match_literal_i_same a s1 s2 H).
  destruct (Js.match_literal_i a s2); [|exact IH].
  now rewrite !toUpperCase_substring0, H.
Qed.

Lemma extract_cases s :
  extractRecommendationType s = "UNKNOWN" \/
  In (extractRecommendationType s) recommendation_types.
Proof.
  clear is_uuid ilike.
  unfold extractRecommendationType, recommendation_types.
  cbn [Js.match_alternation_i].
  repeat match goal with
         | |- context [Js.match_literal_i ?t s] =>
             let E := fresh "E" in
             destruct (Js.match_literal_i t s) eqn:E;
             [apply match_literal_i_spec in E; rewrite E; right; cbn; tauto|]
         end.
  now left.
Qed.

(** X11. A text that begins with one of the five type words, written in
    upper case, has that type whatever follows the word; the type of a
    text is its own type, so that classifying twice changes nothing. *)
Theorem extract_of_typed_text s :
  (forall t rest, In t recommendation_types ->
     extractRecommendationType (t ++ rest) = t) /\
  extractRecommendationType (extractRecommendationType s) =
  extractRecommendationType s.
Proof.
  clear is_uuid ilike.
  assert (forall t rest, In t recommendation_types ->
            extractRecommendationType (t ++ rest) = t) as H.
  { intros t rest Ht. cbn in Ht.
    destruct Ht as [<-|[<-|[<-|[<-|[<-|[]]]]]]; destruct rest; reflexivity. }
  split; [exact H|].
  destruct (extract_cases s) as [->|Hin]; [reflexivity|].
  pose proof (H _ "" Hin) as Ht.
  assert (forall u : string, u ++ "" = u) as Happ
    by (induction u; cbn; congruence).
  rewrite Happ in Ht. exact Ht.
Qed.

(** ** The decisions handlers *)



Lemma ids_upsert_decision new tbl :
  map Decision.id (upsert_decision new tbl) =
  if existsb (fun x => String.eqb (Decision.id x) (uuid_value (Decision.id new))) tbl
  then map Decision.id tbl
  else (map Decision.id tbl ++ [uuid_value (Decision.id new)])%list.
Proof.
  induction tbl as [|x tbl IH]; cbn [upsert_decision map existsb]; [reflexivity|].
  destruct (String.eqb (Decision.id x) (uuid_value (Decision.id new))) eqn:E;
    cbn [orb map].
  - reflexivity.
  - rewrite IH. now destruct (existsb _ tbl).
Qed.

Lemma upsert_decision_unique new tbl :
  NoDup (map Decision.id tbl) -> NoDup (map Decision.id (upsert_decision new tbl)).
Proof.
  intros H. rewrite ids_upsert_decision.
  destruct (existsb _ tbl) eqn:E; [exact H|].
  apply NoDup_app; [exact H | repeat constructor; intros [] |].
  intros k Hk [<-|[]].
  apply in_map_iff in Hk. destruct Hk as [x [Hx Hin]].
  assert (existsb (fun x => String.eqb (Decision.id x) (uuid_value (Decision.id new)))
            tbl = true).
  { apply existsb_exists. exists x. split; [exact Hin|]. now apply String.eqb_eq. }
  congruence.
Qed.

Lemma upsert_decision_valid new tbl :
  valid_decision (insert_decision new) -> Forall valid_decision tbl ->
  Forall valid_decision (upsert_decision new tbl).
Proof.
  intros Hnew. induction 1 as [|x tbl Hx Hall IH]; cbn [upsert_decision].
  - constructor; [exact Hnew | constructor].
  - destruct (String.eqb (Decision.id x) (uuid_value (Decision.id new))).
    + constructor; [|exact Hall].
      destruct Hnew as [? [? [? [? [? ?]]]]], Hx as [? _].
      unfold valid_decision. cbn in *. tauto.
    + constructor; assumption.
Qed.

(** X13. The decisions table keeps one row per id, and every row keeps
    what the creation schema demands (an id that is the value of a uuid,
    a hash of 64 code units, an objective, a command, a recommendation
    and an embedding text that are not empty), after any sequence of
    requests. *)
Theorem decisions_stay_keyed_and_valid rqs : forall d,
  NoDup (map Decision.id (decisions d)) ->
  Forall valid_decision (decisions d) ->
  NoDup (map Decision.id (decisions (serve rqs d))) /\
  Forall valid_decision (decisions (serve rqs d)).
Proof.
  induction rqs as [|[rq e] rqs IH]; intros d Hnd Hv; [now split|].
  cbn [serve]. pose proof (handle_decisions rq e d) as H.
  destruct rq as [b|id|q|b]; try (apply IH; rewrite H; assumption).
  clear H.
  cbn [handle].
  destruct (createDecision_cases b e d) as [->|[c [_ [Hval ->]]]]; [now apply IH|].
  apply IH; cbn [decisions set_decisions].
  - now apply upsert_decision_unique.
  - now apply upsert_decision_valid.
Qed.

(** X14. Storing a decision a second time with the same body changes
    nothing: the store after the second creation is the store after the
    first, whatever the clock of the second run reads. *)
Theorem createDecision_idempotent b e1 e2 d :
  status (fst (createDecisionHandler b e1 d)) = 201 ->
  snd (createDecisionHandler b e2 (snd (createDecisionHandler b e1 d))) =
  snd (createDecisionHandler b e1 d).
Proof.
  intros Hst.
  destruct (createDecision_created b e1 d Hst) as [c [Hc [_ Hrun]]].
  rewrite Hrun. cbn [snd].
  set (d1 := set_decisions d (upsert_decision (stored_decision b c e1) (decisions d))).
  destruct (createDecision_cases b e2 d1) as [H|[c2 [Hc2 [_ H]]]]; [exact H|].
  rewrite H. unfold d1, set_decisions.
  cbn [decisions approvals learning_weights]. f_equal.
  assert (c2 = c) as -> by congruence.
  assert (forall tbl,
            upsert_decision (stored_decision b c e2)
              (upsert_decision (stored_decision b c e1) tbl) =
            upsert_decision (stored_decision b c e1) tbl) as Hup.
  { induction tbl as [|x tbl IHt];
      cbn [upsert_decision insert_decision stored_decision Decision.id].
    - rewrite String.eqb_refl. reflexivity.
    - destruct (String.eqb (Decision.id x) (uuid_value (CreateDecisionRequest.id b)))
        eqn:E;
        cbn [upsert_decision overwrite_decision stored_decision Decision.id].
      + rewrite E. reflexivity.
      + rewrite E. f_equal. exact IHt. }
  apply Hup.
Qed.

(** X15. What a request leaves alone: a read and a listing change
    nothing in the store; a creation of a decision changes neither the
    approvals nor the ledger, and nothing at all unless it is answered
    201; an approval changes no decision, and nothing at all when it is
    answered 400 or 404. *)
Theorem requests_frame rq e d :
  let out := handle rq e d in
  match rq with
  | GetDecision _ | GetDecisions _ => snd out = d
  | PostDecision _ =>
      approvals (snd out) = approvals d /\
      learning_weights (snd out) = learning_weights d /\
      (status (fst out) <> 201 -> snd out = d)
  | PostApproval _ =>
      decisions (snd out) = decisions d /\
      (status (fst out) = 400 \/ status (fst out) = 404 -> snd out = d)
  end.
Proof.
  cbn zeta. destruct rq as [b|id|q|b]; cbn [handle].
  - split; [|split].
    + destruct (createDecision_store b e d) as [->|[c ->]]; reflexivity.
    + destruct (createDecision_store b e d) as [->|[c ->]]; reflexivity.
    + apply createDecision_unchanged.
  - apply getDecision_store.
  - now rewrite listDecisions_outcome.
  - destruct (createApproval_outcome b e d); cbn [fst snd]; split;
      try reflexivity; intros [Hs|Hs]; try reflexivity; discriminate Hs.
Qed.

(** ** Listings *)

(** X16. Every decision of a listing is a stored decision that passes the
    filter of the listing, and the total does not exceed the number of
    stored decisions. *)
Theorem listing_members q e d :
  status (fst (listDecisionsHandler q e d)) = 200 ->
  exists r,
    body (fst (listDecisionsHandler q e d)) = ListBody r /\
    (forall dec, In dec (data r) ->
       In dec (decisions d) /\ whereClause (q_objective q) dec = true) /\
    0 <= total r <= Z.of_nat (List.length (decisions d)).
Proof.
  intros Hst. rewrite (listing_body q e d Hst).
  eexists. split; [reflexivity|]. cbn [data total]. split.
  - intros dec Hin. apply in_map_iff in Hin. destruct Hin as [row [<- Hrow]].
    apply limit_offset_incl in Hrow. unfold ranked_rows in Hrow.
    apply (Permutation_in _ (sort_rows_perm _)) in Hrow.
    apply left_join_rows in Hrow. destruct Hrow as [Hrow _].
    now apply filter_In in Hrow.
  - pose proof (filter_length_le (whereClause (q_objective q)) (decisions d)). lia.
Qed.



Lemma trimStart_blank s : blank s = true -> Js.trimStart s = "".
Proof.
  induction s as [|c s IH]; cbn [blank Js.trimStart]; [reflexivity|].
  intros H. apply andb_true_iff in H. destruct H as [-> H]. now apply IH.
Qed.

(** X18. An objective parameter of white space only is no filter: the
    listing is the one of the same request without the parameter. *)
Theorem blank_filter_lists_all o lim off e d :
  blank o = true ->
  listDecisionsHandler
    {| q_objective := Some o; q_limit := lim; q_offset := off |} e d =
  listDecisionsHandler
    {| q_objective := None; q_limit := lim; q_offset := off |} e d.
Proof.
  intros Hb. rewrite !listDecisions_outcome.
  unfold listing, ranked_rows, whereClause, objective_pattern. cbn [q_objective q_limit q_offset].
  unfold Js.trim. rewrite (trimStart_blank o Hb). reflexivity.
Qed.

Lemma left_join_cons x ds lws :
  left_join (x :: ds) lws =
  (match filter (join_on x) lws with
   | [] => [(x, None)]
   | ms => map (fun lw => (x, Some lw)) ms
   end ++ left_join ds lws)%list.
Proof. reflexivity. Qed.

Lemma left_join_length ds lws :
  List.length (left_join ds lws) =
  list_sum (map (fun dec => Nat.max 1 (List.length (filter (join_on dec) lws))) ds).
Proof.
  induction ds as [|x ds IH]; [reflexivity|].
  rewrite left_join_cons, length_app. unfold Row in *. rewrite IH.
  cbn [map list_sum].
  destruct (filter (join_on x) lws) as [|m ms]; [reflexivity|].
  cbn [List.length]. rewrite length_map. reflexivity.
Qed.

Lemma list_sum_ones {A} (f : A -> nat) l :
  (forall a, In a l -> (1 <= f a)%nat) ->
  (List.length l <= list_sum (map f l))%nat /\
  ((forall a, In a l -> f a = 1%nat) -> list_sum (map f l) = List.length l).
Proof.
  induction l as [|x l IH]; intros H; cbn [map List.length].
  - split; [apply Nat.le_refl | reflexivity].
  - change (list_sum (f x :: map f l)) with (f x + list_sum (map f l))%nat.
    destruct IH as [IH1 IH2]; [intros a Ha; apply H; now right|].
    pose proof (H x (or_introl eq_refl)). split; [lia|].
    intros H1. rewrite IH2 by (intros a Ha; apply H1; now right).
    rewrite (H1 x (or_introl eq_refl)). reflexivity.
Qed.

Lemma limit_offset_length {A} n m (l : list A) :
  0 <= n -> 0 <= m ->
  Z.of_nat (List.length (limit_offset n m l)) =
  Z.max 0 (Z.min n (Z.of_nat (List.length l) - m)).
Proof.
  intros Hn Hm. unfold limit_offset. rewrite length_firstn, length_skipn. lia.
Qed.

(** X19. The size of a page: a listing holds as many decisions as the
    limit allows of the joined rows that are left after the offset. A
    decision under the filter has one joined row for each row of the
    ledger that is joined to it, and one when there is none: the joined
    rows are at least as many as the total the listing reports, and as
    many when no decision is joined to two rows of the ledger. *)
Theorem listing_page_size q e d :
  status (fst (listDecisionsHandler q e d)) = 200 ->
  exists r,
    body (fst (listDecisionsHandler q e d)) = ListBody r /\
    let rows := List.length (joined_rows (q_objective q) d) in
    Z.of_nat (List.length (data r)) =
      Z.max 0 (Z.min (limit r) (Z.of_nat rows - offset r)) /\
    rows =
      list_sum
        (map (fun dec =>
                Nat.max 1 (List.length (filter (join_on dec) (learning_weights d))))
           (filter (whereClause (q_objective q)) (decisions d))) /\
    total r <= Z.of_nat rows /\
    ((forall dec, In dec (decisions d) ->
        (List.length (filter (join_on dec) (learning_weights d)) <= 1)%nat) ->
     Z.of_nat rows = total r).
Proof.
  intros Hst. rewrite (listing_body q e d Hst).
  eexists. split; [reflexivity|]. cbn [data limit offset total]. cbn zeta.
  unfold joined_rows.
  set (ds := filter (whereClause (q_objective q)) (decisions d)).
  set (f := fun dec =>
              Nat.max 1 (List.length (filter (join_on dec) (learning_weights d)))).
  pose proof (left_join_length ds (learning_weights d)) as Hlen. fold f in Hlen.
  destruct (list_sum_ones f ds) as [Hle Heq]; [intros a _; unfold f; lia|].
  unfold Row in *.
  split; [|split; [exact Hlen | split]].
  - rewrite length_map, limit_offset_length.
    + unfold ranked_rows. fold ds.
      now rewrite (Permutation_length (sort_rows_perm _)).
    + unfold parsedLimit. lia.
    + unfold parsedOffset. lia.
  - rewrite Hlen. lia.
  - intros H. rewrite Hlen, Heq; [reflexivity|].
    intros dec Hdec. apply filter_In in Hdec. destruct Hdec as [Hdec _].
    specialize (H dec Hdec). unfold f. lia.
Qed.
End Service.

(** ** The circuit breaker of the vector client *)

Lemma last_nonempty (x d d' : Z) (l : list Z) :
  last (x :: l) d = last (x :: l) d'.
Proof.
  revert x. induction l as [|y l IH]; intros x; [reflexivity|].
  change (last (y :: l) d = last (y :: l) d'). apply IH.
Qed.

Lemma last_cons (x d : Z) (l : list Z) : last (x :: l) d = last l x.
Proof.
  destruct l as [|y l]; [reflexivity|].
  change (last (y :: l) d = last (y :: l) x). apply last_nonempty.
Qed.

Lemma record_invariant (events : list (bool * Z)) (c : VectorClient.t) :
  0 < VectorClient.CircuitBreakerConfig.threshold (VectorClient.circuitConfig c) ->
  VectorClient.circuitState c <> VectorClient.HALF_OPEN ->
  (VectorClient.circuitState c = VectorClient.OPEN <->
   VectorClient.CircuitBreakerConfig.threshold (VectorClient.circuitConfig c)
     <= VectorClient.failureCount c) ->
  let c' := VectorClient.record events c in
  VectorClient.circuitConfig c' = VectorClient.circuitConfig c /\
  VectorClient.failureCount c' =
    VectorClient.failureCount c + Z.of_nat (List.length (VectorClient.failures events)) /\
  VectorClient.lastFailureTime c' =
    last (VectorClient.failures events) (VectorClient.lastFailureTime c) /\
  VectorClient.circuitState c' <> VectorClient.HALF_OPEN /\
  (VectorClient.circuitState c' = VectorClient.OPEN <->
   VectorClient.CircuitBreakerConfig.threshold (VectorClient.circuitConfig c)
     <= VectorClient.failureCount c').
Proof.
  revert c. induction events as [|[[|] now] events IH]; intros c Hth Hho Hop.
  - cbn. repeat split; try tauto; try lia; apply Hop.
  - assert (E : snd (VectorClient.run VectorClient.recordSuccess (fun _ => 0) c) = c).
    { unfold VectorClient.run, VectorClient.recordSuccess, VectorClient.bind,
        VectorClient.this. cbn.
      destruct (VectorClient.circuitState c) eqn:S; cbn; congruence. }
    cbn [VectorClient.record]. rewrite E. apply IH; assumption.
  - set (c1 := snd (VectorClient.run VectorClient.recordFailure (fun _ => now) c)).
    assert (E : VectorClient.circuitConfig c1 = VectorClient.circuitConfig c /\
                VectorClient.failureCount c1 = VectorClient.failureCount c + 1 /\
                VectorClient.lastFailureTime c1 = now /\
                VectorClient.circuitState c1 <> VectorClient.HALF_OPEN /\
                (VectorClient.circuitState c1 = VectorClient.OPEN <->
                 VectorClient.CircuitBreakerConfig.threshold (VectorClient.circuitConfig c)
                   <= VectorClient.failureCount c + 1)).
    { subst c1.
      unfold VectorClient.run, VectorClient.recordFailure, VectorClient.bind,
        VectorClient.this, VectorClient.Date_now. cbn.
      destruct (VectorClient.circuitState c) eqn:S; try congruence;
        destruct (Z.leb_spec
                    (VectorClient.CircuitBreakerConfig.threshold (VectorClient.circuitConfig c))
                    (VectorClient.failureCount c + 1)); cbn;
        repeat split; try congruence; try lia; intros; try discriminate.
      pose proof (proj1 Hop eq_refl). lia. }
    destruct E as (E1 & E2 & E3 & E4 & E5).
    cbn [VectorClient.record]. fold c1.
    destruct (IH c1) as (I1 & I2 & I3 & I4 & I5).
    + rewrite E1. exact Hth.
    + exact E4.
    + rewrite E1, E2. exact E5.
    + cbn zeta in I1, I2, I3, I4, I5. rewrite E1 in I1, I5. rewrite E2 in I2.
      rewrite E3 in I3. unfold VectorClient.failures in I2, I3 |- *. cbn [filter fst negb map snd].
      cbn [List.length]. repeat split; try assumption; try lia; try apply I5.
      rewrite I3. symmetry. apply last_cons.
Qed.

(** X20. Counting from a closed circuit with no failure on record, the
    breaker is open exactly when the failures recorded since reach the
    threshold, however many successes lie between them: a success on a
    closed circuit does not reset the count. The count is the number of
    failures and the last failure time is the instant of the last one. *)
Theorem breaker_opens_at_threshold (events : list (bool * Z)) (c : VectorClient.t) :
  VectorClient.circuitState c = VectorClient.CLOSED ->
  VectorClient.failureCount c = 0 ->
  0 < VectorClient.CircuitBreakerConfig.threshold (VectorClient.circuitConfig c) ->
  let c' := VectorClient.record events c in
  let n := Z.of_nat (List.length (VectorClient.failures events)) in
  VectorClient.failureCount c' = n /\
  VectorClient.lastFailureTime c' =
    last (VectorClient.failures events) (VectorClient.lastFailureTime c) /\
  (VectorClient.circuitState c' = VectorClient.OPEN <->
   VectorClient.CircuitBreakerConfig.threshold (VectorClient.circuitConfig c) <= n) /\
  (VectorClient.circuitState c' = VectorClient.CLOSED <->
   n < VectorClient.CircuitBreakerConfig.threshold (VectorClient.circuitConfig c)).
Proof.
  intros S F T.
  destruct (record_invariant events c T) as (I1 & I2 & I3 & I4 & I5).
  - congruence.
  - rewrite S, F. split; [discriminate | lia].
  - cbn zeta in *. rewrite F in I2. cbn in I2.
    rewrite I2 in I5. rewrite I2.
    repeat split; try assumption; try apply I5.
    + intros C.
      destruct (Z.lt_ge_cases (Z.of_nat (List.length (VectorClient.failures events)))
                  (VectorClient.CircuitBreakerConfig.threshold (VectorClient.circuitConfig c)))
        as [L|L]; [exact L|].
      assert (VectorClient.circuitState (VectorClient.record events c)
              = VectorClient.OPEN) by (apply I5; exact L). congruence.
    + intros L. destruct (VectorClient.circuitState (VectorClient.record events c)) eqn:E.
      * reflexivity.
      * assert (VectorClient.CircuitBreakerConfig.threshold (VectorClient.circuitConfig c)
                <= Z.of_nat (List.length (VectorClient.failures events)))
          by (apply I5; reflexivity). lia.
      * congruence.
Qed.

Ltac run_call :=
  unfold VectorClient.run, VectorClient.call, VectorClient.connect,
    VectorClient.upsert, VectorClient.insert, VectorClient.query,
    VectorClient.similarity, VectorClient.run_prediction, VectorClient.ping,
    VectorClient.try_rethrow, VectorClient.try_false, VectorClient.try_catch,
    VectorClient.checkCircuit, VectorClient.recordSuccess,
    VectorClient.recordFailure, VectorClient.bind, VectorClient.this,
    VectorClient.assign, VectorClient.ret, VectorClient.throw,
    VectorClient.Date_now;
  cbn.

(** X21. While the circuit is open, every guarded call made less than
    the configured timeout after the last failure throws the circuit
    breaker error and leaves the client as it was; the first one made at
    or after the timeout returns and leaves the circuit closed with the
    failure count back at 0. A ping answers false in the first case and
    true, closing the circuit, in the second. *)
Theorem open_circuit_gate (k : VectorClient.Call) (clock : nat -> Z) (c : VectorClient.t) :
  VectorClient.circuitState c = VectorClient.OPEN ->
  k <> VectorClient.Connect ->
  let elapsed := clock (VectorClient.check_reading k) - VectorClient.lastFailureTime c in
  let wait := VectorClient.CircuitBreakerConfig.timeout (VectorClient.circuitConfig c) in
  (elapsed < wait ->
   VectorClient.run (VectorClient.call k) clock c =
     (if VectorClient.guarded k then inl VectorClient.circuit_open
      else inr (VectorClient.Pinged false), c)) /\
  (wait <= elapsed ->
   VectorClient.returned (fst (VectorClient.run (VectorClient.call k) clock c)) = true /\
   (k = VectorClient.Ping ->
    fst (VectorClient.run (VectorClient.call k) clock c) = inr (VectorClient.Pinged true)) /\
   snd (VectorClient.run (VectorClient.call k) clock c) =
     VectorClient.set_circuit VectorClient.CLOSED 0 (VectorClient.lastFailureTime c) c).
Proof.
  intros S K elapsed wait. subst elapsed wait.
  destruct k; try congruence; cbn [VectorClient.check_reading VectorClient.guarded];
    (split; intros H;
     [ apply Z.leb_gt in H | apply Z.leb_le in H ];
     run_call; rewrite S; cbn; rewrite H; cbn;
     repeat split; try reflexivity; try discriminate).
Qed.

Lemma call_steps (k : VectorClient.Call) (clock : nat -> Z) (c : VectorClient.t) :
  let r := VectorClient.run (VectorClient.call k) clock c in
  VectorClient.circuitConfig (snd r) = VectorClient.circuitConfig c /\
  VectorClient.lastFailureTime (snd r) = VectorClient.lastFailureTime c /\
  (VectorClient.failureCount (snd r) = VectorClient.failureCount c \/
   VectorClient.failureCount (snd r) = 0) /\
  VectorClient.circuitState (snd r) <> VectorClient.HALF_OPEN /\
  (VectorClient.circuitState c <> VectorClient.OPEN ->
   VectorClient.returned (fst r) = true /\
   VectorClient.circuitState (snd r) = VectorClient.CLOSED).
Proof.
  destruct k; run_call;
    destruct (VectorClient.circuitState c) eqn:S; cbn;
    try (destruct (Z.leb_spec
                     (VectorClient.CircuitBreakerConfig.timeout (VectorClient.circuitConfig c))
                     (clock 0%nat - VectorClient.lastFailureTime c)); cbn);
    try (destruct (Z.leb_spec
                     (VectorClient.CircuitBreakerConfig.timeout (VectorClient.circuitConfig c))
                     (clock 1%nat - VectorClient.lastFailureTime c)); cbn);
    rewrite ?S; cbn;
    repeat split; try congruence; try (left; reflexivity); try (right; reflexivity);
    intros; congruence.
Qed.

(** X22. No call of the client ever records a failure: over any sequence
    of calls the last failure time and the breaker configuration stay as
    they were, the failure count is the one before or 0, and after one
    call or more the circuit is not half open. From a closed circuit
    every call returns and the circuit ends closed. *)
Theorem calls_never_fail (calls : list (VectorClient.Call * (nat -> Z)))
    (c : VectorClient.t) :
  let s := VectorClient.session calls c in
  VectorClient.circuitConfig (snd s) = VectorClient.circuitConfig c /\
  VectorClient.lastFailureTime (snd s) = VectorClient.lastFailureTime c /\
  (VectorClient.failureCount (snd s) = VectorClient.failureCount c \/
   VectorClient.failureCount (snd s) = 0) /\
  (calls <> [] -> VectorClient.circuitState (snd s) <> VectorClient.HALF_OPEN) /\
  (VectorClient.circuitState c = VectorClient.CLOSED ->
   forallb VectorClient.returned (fst s) = true /\
   VectorClient.circuitState (snd s) = VectorClient.CLOSED).
Proof.
  revert c. induction calls as [|[k clock] calls IH]; intros c.
  - cbn. repeat split; try tauto.
  - cbn [VectorClient.session].
    pose proof (call_steps k clock c) as P. cbn zeta in P.
    destruct (VectorClient.run (VectorClient.call k) clock c) as [r c1].
    cbn [fst snd] in P. destruct P as (P1 & P2 & P3 & P4 & P5).
    specialize (IH c1). cbn zeta in IH.
    destruct (VectorClient.session calls c1) as [rs c2] eqn:E.
    cbn [fst snd] in *. destruct IH as (I1 & I2 & I3 & I4 & I5).
    repeat split.
    + congruence.
    + congruence.
    + destruct I3 as [I3|I3]; [rewrite I3; exact P3 | right; exact I3].
    + intros _. destruct calls as [|x calls'].
      * cbn in E. injection E as ? ?. subst. exact P4.
      * apply I4. discriminate.
    + destruct P5 as [R C]; [congruence|]. cbn [forallb]. rewrite R.
      apply I5. exact C.
    + apply I5. apply P5. congruence.
Qed.

(** X23. A failure recorded while the circuit is half open opens it
    again whatever the threshold, and the wait starts anew at that
    failure: a guarded call made less than the timeout after it throws
    the circuit breaker error. *)
Theorem failed_probe_reopens (k : VectorClient.Call) (now : Z) (clock : nat -> Z)
    (c : VectorClient.t) :
  VectorClient.circuitState c = VectorClient.HALF_OPEN ->
  VectorClient.guarded k = true ->
  clock (VectorClient.check_reading k) - now
    < VectorClient.CircuitBreakerConfig.timeout (VectorClient.circuitConfig c) ->
  let c' := snd (VectorClient.run VectorClient.recordFailure (fun _ => now) c) in
  c' = VectorClient.set_circuit VectorClient.OPEN (VectorClient.failureCount c + 1) now c /\
  VectorClient.run (VectorClient.call k) clock c' = (inl VectorClient.circuit_open, c').
Proof.
  intros S G H.
  assert (E : snd (VectorClient.run VectorClient.recordFailure (fun _ => now) c) =
              VectorClient.set_circuit VectorClient.OPEN
                (VectorClient.failureCount c + 1) now c).
  { run_call. rewrite S. reflexivity. }
  cbn zeta. rewrite E. split; [reflexivity|].
  apply Z.leb_gt in H.
  destruct k; try discriminate; cbn [VectorClient.check_reading] in H;
    run_call; rewrite H; reflexivity.
Qed.

(** X24. The prediction handler answers 200 or throws the 503 error,
    never the 502 one. It throws exactly when the circuit is open and
    the timeout has not passed at its second reading of the clock, and
    then leaves the client as it was. Otherwise the answer carries the
    requested model, no output, confidence 0, the correlation id of the
    request and the time between its first and last reading of the
    clock, and the circuit ends closed. *)
Theorem predict_outcomes (correlationId body_model : string) (clock : nat -> Z)
    (c : VectorClient.t) :
  let rejected :=
    match VectorClient.circuitState c with
    | VectorClient.OPEN =>
        clock 1%nat - VectorClient.lastFailureTime c
          <? VectorClient.CircuitBreakerConfig.timeout (VectorClient.circuitConfig c)
    | _ => false
    end in
  let last_reading :=
    match VectorClient.circuitState c with
    | VectorClient.OPEN => 4%nat
    | _ => 3%nat
    end in
  match VectorClient.run (VectorClient.predictHandler correlationId body_model) clock c with
  | (inl error, c') =>
      rejected = true /\
      error = VectorClient.AppError 503 "service_unavailable"
                "Service temporarily unavailable" /\
      c' = c
  | (inr response, c') =>
      rejected = false /\
      response =
        {| VectorClient.response_model := body_model;
           VectorClient.response_output := [];
           VectorClient.response_confidence := 0;
           VectorClient.metadata_correlationId := correlationId;
           VectorClient.metadata_executionTime := clock last_reading - clock 0%nat |} /\
      VectorClient.circuitState c' = VectorClient.CLOSED /\
      VectorClient.failureCount c' =
        match VectorClient.circuitState c with
        | VectorClient.CLOSED => VectorClient.failureCount c
        | _ => 0
        end
  end.
Proof.
  unfold VectorClient.predictHandler. run_call.
  destruct (VectorClient.circuitState c) eqn:S; cbn; rewrite ?S; cbn.
  - repeat split; try reflexivity; exact S.
  - rewrite Z.ltb_antisym.
    destruct (VectorClient.CircuitBreakerConfig.timeout (VectorClient.circuitConfig c)
              <=? clock 1%nat - VectorClient.lastFailureTime c); cbn.
    + repeat split; reflexivity.
    + repeat split; reflexivity.
  - repeat split; reflexivity.
Qed.

(** ** The configuration *)

Lemma getEnvNumber_cases (env : Config.Env) (key : string) (d : Z) :
  (exists message, Config.getEnvNumber env key d = inl message /\
                   Config.not_a_number env key = true) \/
  (Config.getEnvNumber env key d = inr (Config.number_of env key d) /\
   Config.not_a_number env key = false).
Proof.
  unfold Config.getEnvNumber, Config.not_a_number, Config.number_of.
  destruct (env key) as [value|]; [|right; split; reflexivity].
  destruct (Js.parseInt value); [right; split; reflexivity|].
  left. eexists. split; reflexivity.
Qed.

Lemma getRequiredEnvVar_cases (env : Config.Env) (key : string) :
  (exists message, Config.getRequiredEnvVar env key = inl message /\
                   Config.missing env key = true) \/
  (exists value, Config.getRequiredEnvVar env key = inr value /\
                 env key = Some value /\ Config.missing env key = false).
Proof.
  unfold Config.getRequiredEnvVar, Config.missing.
  destruct (env key) as [value|]; [|left; eexists; split; reflexivity].
  destruct (Config.is_empty value) eqn:E.
  - left. eexists. split; reflexivity.
  - right. exists value. repeat split.
Qed.

Ltac config_number env key d :=
  let m := fresh "m" in
  let E := fresh "E" in
  let N := fresh "N" in
  destruct (getEnvNumber_cases env key d) as [(m & E & N)|(E & N)];
  rewrite E; cbn [Config.bind]; rewrite N;
  [ cbn [negb andb]; rewrite ?Bool.andb_false_r; split; [reflexivity | discriminate] | ].

(** X25. The configuration loads exactly when the service URL is set to
    a non-empty text and every numeric variable that is set starts,
    after white space, with an integer; an empty numeric variable makes
    it fail, and no range is checked. A loaded configuration has, for
    every numeric field, the Number that [parseInt] reads from its
    variable, which is the leading integer when that is below 2^53 and
    the Number nearest to it otherwise, or the default when the variable
    is unset. *)
Theorem config_loads_exactly_when (env : Config.Env) :
  VectorClient.returned (Config.config env) =
    negb (Config.missing env "RUVVECTOR_SERVICE_URL") &&
    forallb (fun kd => negb (Config.not_a_number env (fst kd))) Config.numbers /\
  forall cfg, Config.config env = inr cfg ->
    env "RUVVECTOR_SERVICE_URL" = Some (Config.RuvVector.serviceUrl (Config.ruvVector cfg)) /\
    [Config.port cfg;
     Config.RuvVector.timeout (Config.ruvVector cfg);
     Config.RuvVector.poolSize (Config.ruvVector cfg);
     VectorClient.CircuitBreakerConfig.threshold (Config.circuitBreaker cfg);
     VectorClient.CircuitBreakerConfig.timeout (Config.circuitBreaker cfg);
     VectorClient.CircuitBreakerConfig.resetTimeout (Config.circuitBreaker cfg);
     Config.Metrics.port (Config.metrics cfg);
     Config.Shutdown.timeout (Config.shutdown cfg)] =
    map (fun kd => Config.number_of env (fst kd) (snd kd)) Config.numbers /\
    forall key d value n,
      env key = Some value -> Js.leading_integer value = Some n ->
      Z.abs n < 2 ^ 53 -> Config.number_of env key d = n.
Proof.
  unfold Config.config, Config.numbers. cbn [forallb fst snd map].
  config_number env "PORT" 3000.
  destruct (getRequiredEnvVar_cases env "RUVVECTOR_SERVICE_URL")
    as [(mu & Eu & M)|(url & Eu & U & M)]; rewrite Eu; cbn [Config.bind]; rewrite M;
    [cbn; split; [reflexivity | discriminate]|].
  config_number env "RUVVECTOR_TIMEOUT" 30000.
  config_number env "RUVVECTOR_POOL_SIZE" 10.
  config_number env "CIRCUIT_BREAKER_THRESHOLD" 5.
  config_number env "CIRCUIT_BREAKER_TIMEOUT" 30000.
  config_number env "CIRCUIT_BREAKER_RESET" 60000.
  config_number env "METRICS_PORT" 9090.
  config_number env "SHUTDOWN_TIMEOUT" 30000.
  split; [reflexivity|].
  intros cfg H. injection H as <-. cbn [Config.ruvVector Config.RuvVector.serviceUrl].
  split; [exact U|]. split; [reflexivity|].
  intros key d value n Hv Hn Hlt. unfold Config.number_of, Js.parseInt.
  rewrite Hv, Hn. cbn [option_map]. unfold Js.to_number.
  apply Z.ltb_lt in Hlt. now rewrite Hlt.
Qed.

(** * The properties at sample runs *)

(** A call on the store with an empty ledger runs the upsert, which
    seeds the row of the edge. *)
Lemma updateLearningWeight_rule_witness :
  let e := run_env 1 None in
  let r := {| db := db_a; issued := 0; drawn := 0; ticks := 0 |} in
  let out := updateLearningWeight Source.decision id_a "PROCEED" 1 e r in
  let k := edge_key (Source.decision, id_a, "PROCEED") in
  fails e r = false /\
  find_weight k (learning_weights db_a) = None /\
  fst out = inr tt /\
  db (snd out) =
    fst (upsert_statement (uuids e 0%nat) Source.decision id_a "PROCEED" 1
           (clock e 0%nat) db_a) /\
  exists row,
    learning_weights (db (snd out)) = (learning_weights db_a ++ [row])%list /\
    find_weight k (learning_weights (db (snd out))) = Some row /\
    Weight.weight row = 1%Q /\
    Weight.update_count row = 1.
Proof.
  cbn zeta. do 2 (split; [reflexivity|]).
  destruct (proj1 (proj1 (proj2 (updateLearningWeight_rule uuid_shape ilike_contains))
                     Source.decision id_a "PROCEED" 1%Q (run_env 1 None)
                     {| db := db_a; issued := 0; drawn := 0; ticks := 0 |}) eq_refl)
    as [H1 H2].
  split; [exact H1|]. split; [exact H2|]. rewrite H2.
  destruct (proj1 (updateLearningWeight_rule uuid_shape ilike_contains)
              (uuids (run_env 1 None) 0%nat) Source.decision id_a "PROCEED" 1%Q
              (clock (run_env 1 None) 0%nat) db_a)
    as (_ & _ & _ & Hseed & _).
  exact (Hseed eq_refl).
Defined.


(** An approval of the stored decision succeeds and leaves the rows of
    all keys but those of its six edges alone. *)
Lemma approval_updates_edges_witness :
  let b := approval id_a true None in
  let out := createApprovalHandler uuid_shape b (run_env 1 None) db_a in
  status (fst out) = 201 /\
  exists dec rest,
    select_decision id_a (decisions db_a) = dec :: rest /\
    List.length (approval_edges id_a dec) = 6%nat /\
    NoDup (map edge_key (approval_edges id_a dec)) /\
    (forall ed, In ed (approval_edges id_a dec) ->
       exists r, find_weight (edge_key ed) (learning_weights (snd out)) = Some r /\
                 rewarded (adjustedReward true None)
                   (find_weight (edge_key ed) (learning_weights db_a)) r) /\
    (forall k, ~ In k (map edge_key (approval_edges id_a dec)) ->
       find_weight k (learning_weights (snd out)) =
       find_weight k (learning_weights db_a)).
Proof.
  split; [reflexivity|].
  exact (approval_updates_edges uuid_shape (approval id_a true None)
           (run_env 1 None) db_a eq_refl).
Defined.

(** The same approval reports six updates. *)
Lemma approval_success_counts_six_witness :
  let out := createApprovalHandler uuid_shape (approval id_a true None)
               (run_env 1 None) db_a in
  status (fst out) = 201 /\
  exists r,
    body (fst out) = ApprovalBody r /\
    weights_updated r = 6 /\
    learning_applied r = true.
Proof.
  split; [reflexivity|].
  exact (approval_success_counts_six uuid_shape (approval id_a true None)
           (run_env 1 None) db_a eq_refl).
Defined.

(** An approval adjusted by one half has the reward three halves. *)
Lemma reward_derivation_witness :
  (- (1) <= 1 # 2)%Q /\ (1 # 2 <= 1)%Q /\
  (adjustedReward true (Some (1 # 2)) == base_reward true * (1 + (1 # 2)))%Q.
Proof.
  assert ((- (1) <= 1 # 2)%Q) as H1 by (unfold Qle; simpl; lia).
  assert ((1 # 2 <= 1)%Q) as H2 by (unfold Qle; simpl; lia).
  split; [exact H1|]. split; [exact H2|].
  exact (proj1 (proj2 (reward_derivation uuid_shape)) true (1 # 2) H1 H2).
Defined.

(** An approval of a decision that is not stored, and an approval of the
    stored decision under the upper-case spelling of its id. *)
Lemma approval_of_unknown_decision_witness :
  (forall dec, In dec (decisions db_a) -> Decision.id dec <> uuid_value id_b) /\
  createApprovalHandler uuid_shape (approval id_b true None) (run_env 1 None) db_a =
    (json 404 (ErrorBody "not_found" ("Decision with ID " ++ id_b ++ " not found")),
     db_a) /\
  In decision_a (decisions db_a) /\
  Decision.id decision_a = uuid_value id_a_upper /\
  status (fst (createApprovalHandler uuid_shape (approval id_a_upper true None)
                 (run_env 1 None) db_a)) = 201.
Proof.
  assert (forall dec, In dec (decisions db_a) -> Decision.id dec <> uuid_value id_b)
    as H.
  { intros dec [<-|[]]. vm_compute. discriminate. }
  assert (In decision_a (decisions db_a)) as Hin by (left; reflexivity).
  split; [exact H|]. split.
  - exact (proj1 (approval_of_unknown_decision uuid_shape (approval id_b true None)
                    (run_env 1 None) db_a) H).
  - split; [exact Hin|]. split; [reflexivity|].
    exact (proj2 (approval_of_unknown_decision uuid_shape
                    (approval id_a_upper true None) (run_env 1 None) db_a)
             decision_a Hin eq_refl eq_refl eq_refl).
Defined.


(** The fifth round-trip of an approval, the update of the financial
    edge, fails: the two edges before it are updated. *)
Lemma approval_edge_failure_witness :
  let b := approval id_a true None in
  let e := run_env 1 (Some 4%nat) in
  let out := createApprovalHandler uuid_shape b e db_a in
  createApprovalSchema_ok uuid_shape b = true /\
  select_decision id_a (decisions db_a) = [decision_a] /\
  fault e = Some (2 + 2)%nat /\
  (2 < 6)%nat /\
  fst out = json 500 (ErrorBody "internal_error" "Failed to process approval") /\
  decisions (snd out) = decisions db_a /\
  approvals (snd out) = (approvals db_a ++ [approval_record b e])%list /\
  (forall ed, In ed (firstn 2 (approval_edges id_a decision_a)) ->
     exists r, find_weight (edge_key ed) (learning_weights (snd out)) = Some r /\
               rewarded (adjustedReward true None)
                 (find_weight (edge_key ed) (learning_weights db_a)) r) /\
  (forall k, ~ In k (map edge_key (firstn 2 (approval_edges id_a decision_a))) ->
     find_weight k (learning_weights (snd out)) =
     find_weight k (learning_weights db_a)).
Proof.
  assert ((2 < 6)%nat) as Hn by lia.
  do 4 (split; [first [reflexivity | exact Hn]|]).
  exact (approval_edge_failure uuid_shape (approval id_a true None)
           (run_env 1 (Some 4%nat)) db_a decision_a [] 2 eq_refl eq_refl eq_refl Hn).
Defined.

(** The stored decision is restated under the upper-case spelling of its
    id: it keeps its id and its created_at and takes the objective and
    the recommendation of the request. *)
Lemma decision_identity_kept_witness :
  let rq := PostDecision (new_decision id_a_upper "hold" "HALT: stop" 99) in
  let out := handle uuid_shape ilike_contains rq (run_env 1 None) db_a in
  In decision_a (decisions db_a) /\
  uuid_value id_a_upper = Decision.id decision_a /\
  status (fst out) = 201 /\
  NoDup (map Decision.id (decisions db_a)) /\
  exists dec',
    In dec' (decisions (snd out)) /\
    Decision.id dec' = id_a /\
    Decision.created_at dec' = 10 /\
    List.length (decisions (snd out)) = 1%nat /\
    Decision.objective dec' = "hold" /\
    Decision.recommendation dec' = "HALT: stop".
Proof.
  cbn zeta.
  assert (In decision_a (decisions db_a)) as H by (left; reflexivity).
  assert (NoDup (map Decision.id (decisions db_a))) as Hnd
    by (constructor; [intros [] | constructor]).
  split; [exact H|]. do 2 (split; [reflexivity|]). split; [exact Hnd|].
  destruct (decision_identity_kept uuid_shape ilike_contains
              (PostDecision (new_decision id_a_upper "hold" "HALT: stop" 99))
              (run_env 1 None) db_a decision_a H)
    as (dec' & Hin & Hid & Hc & _ & _ & _ & Hover).
  destruct (Hover eq_refl eq_refl Hnd) as (Hlen & Hobj & _ & _ & Hrec & _).
  exists dec'. split; [exact Hin|]. split; [exact Hid|]. split; [exact Hc|].
  split; [exact Hlen|]. split; [exact Hobj | exact Hrec].
Defined.



(** A listing of the store of [restated_scenario]: the row of greater
    joined weight is the first one. *)
Lemma listing_order_witness :
  let d := serve uuid_shape ilike_contains restated_scenario empty_db in
  let out := listDecisionsHandler ilike_contains list_all (run_env 5 None) d in
  status (fst out) = 200 /\
  exists r page,
    body (fst out) = ListBody r /\
    data r = map fst page /\
    (forall i j r1 r2,
       nth_error page i = Some r1 -> nth_error page j = Some r2 ->
       (approval_weight r2 < approval_weight r1)%Q -> (i < j)%nat).
Proof.
  split; [reflexivity|].
  destruct (listing_order ilike_contains list_all (run_env 5 None)
              (serve uuid_shape ilike_contains restated_scenario empty_db) eq_refl)
    as [r [page [Hb [Hd [_ [_ [_ [_ [H _]]]]]]]]].
  exists r, page. split; [exact Hb|]. split; [exact Hd | exact H].
Defined.

(** "halt now" begins with HALT. *)
Lemma extractRecommendationType_classifies_witness :
  In "HALT" recommendation_types /\
  (extractRecommendationType "halt now" = "HALT" <->
   begins_with "HALT" "halt now").
Proof.
  assert (In "HALT" recommendation_types) as H by (simpl; tauto).
  split; [exact H|].
  exact (proj1 (proj2 (extractRecommendationType_classifies "halt now")) "HALT" H).
Defined.

(** * Where the handlers depart from the specification *)

(** C3. After [restated_scenario] the decision [id_a] recommends HALT and
    has no edge to HALT, so that the specification gives it the key 0
    and puts it after [id_b], whose edge has the weight 1/2; the listing
    joins it to its older edge to PROCEED, of weight 1, and puts it
    first. *)
Lemma listing_ignores_target_value :
  let d := serve uuid_shape ilike_contains restated_scenario empty_db in
  exists r,
    body (fst (listDecisionsHandler ilike_contains list_all (run_env 5 None) d)) =
      ListBody r /\
    map Decision.id (data r) = [id_a; id_b] /\
    map (edge_weight (learning_weights d)) (data r) = [0%Q; (1 # 2)%Q] /\
    ~ ranked_by_edge_weight (learning_weights d) (data r).
Proof.
  cbn zeta. eexists. split; [vm_compute; reflexivity|].
  split; [vm_compute; reflexivity|]. split; [vm_compute; reflexivity|].
  intros H. specialize (H 0%nat 1%nat _ _ eq_refl eq_refl (Nat.lt_0_succ 0)).
  vm_compute in H. apply H. reflexivity.
Qed.

(** C5. The leading token of "Proceeding" is the whole word, which is
    none of the five types in any case of its letters, so that the
    specification classifies the text as UNKNOWN; the function
    classifies it as PROCEED, because it begins with that word. *)
Lemma prefix_is_not_leading_token :
  leading_token "Proceeding" = "Proceeding" /\
  (forall t, In t recommendation_types -> ~ leading_token_is t "Proceeding") /\
  extractRecommendationType "Proceeding" = "PROCEED" /\
  extractRecommendationType "Proceeding" <> "UNKNOWN".
Proof.
  split; [reflexivity|]. split.
  - intros t Ht H. unfold leading_token_is in H. cbn in H. subst t.
    cbn in Ht. repeat (destruct Ht as [Ht|Ht]; [discriminate Ht|]). exact Ht.
  - split; [reflexivity | discriminate].
Qed.

(** C7. An approval whose decision_id is the text d1, which denotes no
    stored decision, is answered 400 validation_error and not 404: the
    schema rejects the text before any lookup. The store is unchanged. *)
Lemma malformed_id_is_rejected :
  let out := createApprovalHandler uuid_shape (approval "d1" true None)
               (run_env 1 None) db_a in
  (forall dec, In dec (decisions db_a) -> Decision.id dec <> uuid_value "d1") /\
  out = (json 400 (ErrorBody "validation_error" "Request validation failed"), db_a) /\
  status (fst out) <> 404.
Proof.
  cbn zeta. split; [|split].
  - intros dec [<-|[]]. vm_compute. discriminate.
  - vm_compute. reflexivity.
  - vm_compute. discriminate.
Qed.

(** C6. The update of the financial edge fails in an approval of a
    stored decision: the two edges before it, the one of the decision
    and the one of the risk signal, are updated and the ApprovalRecord
    is stored, and the answer is 500 internal_error, with no count. *)
Lemma edge_failure_is_fatal :
  let out := createApprovalHandler uuid_shape (approval id_a true None)
               (run_env 1 (Some 4%nat)) db_a in
  fst out = json 500 (ErrorBody "internal_error" "Failed to process approval") /\
  (forall r, body (fst out) <> ApprovalBody r) /\
  List.length (approvals (snd out)) = 1%nat /\
  map Weight.source_id (learning_weights (snd out)) = [id_a; "risk:low"].
Proof.
  cbn zeta. split; [vm_compute; reflexivity|].
  split; [intros r; vm_compute; discriminate|].
  split; vm_compute; reflexivity.
Qed.

(** C8. A decision is stored, then stored again under the same id with
    another objective and another recommendation: the fields of the
    stored record change. *)
Lemma decision_overwritten :
  let d1 := snd (createDecisionHandler uuid_shape
                   (new_decision id_a "ship" "PROCEED: ship it" 10)
                   (run_env 0 None) empty_db) in
  let d2 := snd (createDecisionHandler uuid_shape
                   (new_decision id_a "hold" "HALT: stop" 10)
                   (run_env 1 None) d1) in
  map Decision.id (decisions d1) = [id_a] /\
  map Decision.id (decisions d2) = [id_a] /\
  map Decision.objective (decisions d1) = ["ship"] /\
  map Decision.objective (decisions d2) = ["hold"] /\
  map Decision.recommendation (decisions d1) = ["PROCEED: ship it"] /\
  map Decision.recommendation (decisions d2) = ["HALT: stop"].
Proof. cbn zeta. repeat split; vm_compute; reflexivity. Qed.

(** * Sample evaluations *)

Example extract_proceed :
  extractRecommendationType "PROCEED: Ready to deploy" = "PROCEED".
Proof. reflexivity. Qed.

Example extract_prefix : extractRecommendationType "Proceeding" = "PROCEED".
Proof. reflexivity. Qed.

Example extract_unknown : extractRecommendationType "maybe" = "UNKNOWN".
Proof. reflexivity. Qed.

(** Integers beyond 2^53 are read as the nearest Number. *)
Example parseInt_rounds :
  Js.parseInt "9007199254740993" = Some 9007199254740992 /\
  Js.parseInt "9007199254740995" = Some 9007199254740996 /\
  Js.parseInt "99999999999999999999" = Some 100000000000000000000 /\
  Js.parseInt "-9007199254740993" = Some (-9007199254740992).
Proof. repeat split. Qed.

(** After [restated_scenario] and one more approval of the first
    decision, the ledger has two rows of that decision, to PROCEED and to
    HALT: the listing holds it twice and reports a total of 2. *)
Example decision_listed_twice :
  let d := serve uuid_shape ilike_contains
             (restated_scenario ++
              [(PostApproval (approval id_a true None), run_env 5 None)]) empty_db in
  exists r,
    body (fst (listDecisionsHandler ilike_contains list_all (run_env 6 None) d)) =
      ListBody r /\
    map Decision.id (data r) = [id_a; id_a; id_b] /\
    total r = 2.
Proof.
  cbn zeta. eexists. split; [vm_compute; reflexivity|].
  split; vm_compute; reflexivity.
Qed.

(** An approval under the upper-case spelling of a stored id records the
    decision under the id the store prints and the edges under the
    spelling that was sent, which the listing does not join. *)
Example approval_under_other_spelling :
  let out := createApprovalHandler uuid_shape (approval id_a_upper true None)
               (run_env 1 None) db_a in
  status (fst out) = 201 /\
  map Approval.decision_id (approvals (snd out)) = [id_a] /\
  map Weight.source_id (learning_weights (snd out)) =
    [id_a_upper; "risk:low"; "financial:ok"; "complexity:low"; "ship";
     "trajectory:" ++ id_a_upper] /\
  filter (join_on decision_a) (learning_weights (snd out)) = [].
Proof. cbn zeta. repeat split; vm_compute; reflexivity. Qed.

Example parseInt_samples :
  Js.parseInt "  42abc" = Some 42 /\ Js.parseInt "-7" = Some (-7) /\
  Js.parseInt "abc" = None /\ Js.parseInt "" = None /\ Js.parseInt "+" = None.
Proof. repeat split. Qed.

Example trim_sample : Js.trim "  a b  " = "a b".
Proof. reflexivity. Qed.

Example limit_samples :
  parsedLimit None = 50 /\ parsedLimit (Some "0") = 50 /\
  parsedLimit (Some "-5") = 1 /\ parsedLimit (Some "5000") = 1000 /\
  parsedLimit (Some "25") = 25 /\ parsedOffset (Some "-3") = 0.
Proof. repeat split. Qed.

(** The scenario of the specification: a rejection after an approval of
    the same decision moves the weight of the decision edge from 1 to
    1 + 0.1 * (-1 - 1) = 0.8 and counts two updates. *)
Example rejection_after_approval :
  let d := serve uuid_shape ilike_contains
             [ (PostApproval (approval id_a true None), run_env 1 None);
               (PostApproval (approval id_a false None), run_env 2 None) ] db_a in
  exists r,
    find_weight (edge_key (Source.decision, id_a, "PROCEED")) (learning_weights d) =
      Some r /\
    (Weight.weight r == 8 # 10)%Q /\ Weight.update_count r = 2.
Proof.
  cbn zeta. eexists. split; [vm_compute; reflexivity|].
  split; [vm_compute|]; reflexivity.
Qed.

(** * The further properties at sample runs *)

(** Two more approvals of the stored decision after a first one: the row
    of the decision edge counts three updates. *)
Lemma repeated_approvals_approach_witness :
  let b := approval id_a true None in
  let d := serve uuid_shape ilike_contains [(PostApproval b, run_env 1 None)] db_a in
  let es := [run_env 2 None; run_env 3 None] in
  let ed := (Source.decision, id_a, "PROCEED") in
  approvals_created uuid_shape b es d /\
  select_decision id_a (decisions d) = [decision_a] /\
  In ed (approval_edges id_a decision_a) /\
  exists r0 r,
    find_weight (edge_key ed) (learning_weights d) = Some r0 /\
    find_weight (edge_key ed)
      (learning_weights
         (serve uuid_shape ilike_contains (map (fun e => (PostApproval b, e)) es) d)) =
      Some r /\
    Weight.update_count r = Weight.update_count r0 + 2.
Proof.
  cbn zeta.
  assert (approvals_created uuid_shape (approval id_a true None)
            [run_env 2 None; run_env 3 None]
            (serve uuid_shape ilike_contains
               [(PostApproval (approval id_a true None), run_env 1 None)] db_a)) as Hall
    by (repeat split; reflexivity).
  assert (In (Source.decision, id_a, "PROCEED") (approval_edges id_a decision_a)) as Hin
    by (left; reflexivity).
  split; [exact Hall|]. split; [reflexivity|]. split; [exact Hin|].
  destruct (repeated_approvals_approach uuid_shape ilike_contains
              (approval id_a true None) [run_env 2 None; run_env 3 None]
              (serve uuid_shape ilike_contains
                 [(PostApproval (approval id_a true None), run_env 1 None)] db_a)
              decision_a [] (Source.decision, id_a, "PROCEED") _
              Hall eq_refl Hin eq_refl) as (r & H1 & H2 & _).
  eexists. exists r. split; [reflexivity|]. split; [exact H1 | exact H2].
Defined.


(** An approval adjusted by one half. *)
Lemma reward_bounds_witness :
  let b := approval id_a true (Some (1 # 2)) in
  createApprovalSchema_ok uuid_shape b = true /\
  within_two (adjustedReward true (Some (1 # 2))).
Proof.
  split; [reflexivity|].
  exact (proj1 (reward_bounds uuid_shape (approval id_a true (Some (1 # 2))) eq_refl)).
Defined.

(** An approval and a rejection on the store with an empty ledger. *)
Lemma ledger_stays_bounded_witness :
  let rqs := [ (PostApproval (approval id_a true (Some 1%Q)), run_env 1 None);
               (PostApproval (approval id_a false None), run_env 2 None) ] in
  Forall (fun r => within_two (Weight.weight r)) (learning_weights db_a) /\
  Forall (fun r => within_two (Weight.weight r))
    (learning_weights (serve uuid_shape ilike_contains rqs db_a)).
Proof.
  assert (Forall (fun r => within_two (Weight.weight r)) (learning_weights db_a)) as H
    by constructor.
  split; [exact H|].
  exact (ledger_stays_bounded uuid_shape ilike_contains _ db_a H).
Defined.

(** The row of the decision edge after an approval, and after a
    rejection that follows. *)
Lemma ledger_rows_persist_witness :
  let d := serve uuid_shape ilike_contains
             [(PostApproval (approval id_a true None), run_env 1 None)] db_a in
  let rqs := [(PostApproval (approval id_a false None), run_env 2 None)] in
  let k := edge_key (Source.decision, id_a, "PROCEED") in
  exists r r',
    find_weight k (learning_weights d) = Some r /\
    find_weight k (learning_weights (serve uuid_shape ilike_contains rqs d)) = Some r' /\
    Weight.id r' = Weight.id r /\
    Weight.created_at r' = Weight.created_at r /\
    Weight.update_count r <= Weight.update_count r'.
Proof.
  cbn zeta.
  destruct (ledger_rows_persist uuid_shape ilike_contains
              [(PostApproval (approval id_a false None), run_env 2 None)]
              (serve uuid_shape ilike_contains
                 [(PostApproval (approval id_a true None), run_env 1 None)] db_a)
              (edge_key (Source.decision, id_a, "PROCEED")) _ eq_refl)
    as (r' & H1 & H2 & H3 & H4).
  eexists. exists r'. split; [reflexivity|]. split; [exact H1|].
  split; [exact H2|]. split; [exact H3 | exact H4].
Defined.

(** An approval of the stored decision counts six updates. *)
Lemma approval_counts_updates_witness :
  let b := approval id_a true None in
  let e := run_env 1 None in
  status (fst (createApprovalHandler uuid_shape b e db_a)) = 201 /\
  total_updates
    (learning_weights (snd (handle uuid_shape ilike_contains (PostApproval b) e db_a))) =
  total_updates (learning_weights db_a) + 6.
Proof.
  split; [reflexivity|].
  exact (proj2 (approval_counts_updates uuid_shape ilike_contains
                  (PostApproval (approval id_a true None)) (run_env 1 None) db_a)
           (approval id_a true None) eq_refl eq_refl).
Defined.

(** The first approval of a decision adds the rows of its six edges. *)
Lemma approval_adds_missing_rows_witness :
  let b := approval id_a true None in
  let out := createApprovalHandler uuid_shape b (run_env 1 None) db_a in
  status (fst out) = 201 /\
  exists dec rest,
    select_decision id_a (decisions db_a) = dec :: rest /\
    let missing := filter (absent (learning_weights db_a)) (approval_edges id_a dec) in
    List.length (learning_weights (snd out)) =
      (List.length (learning_weights db_a) + List.length missing)%nat /\
    (List.length missing <= 6)%nat.
Proof.
  split; [reflexivity|].
  exact (approval_adds_missing_rows uuid_shape (approval id_a true None)
           (run_env 1 None) db_a eq_refl).
Defined.

(** The store with one decision and no ApprovalRecord, after an approval. *)
Lemma approvals_reference_decisions_witness :
  let rqs := [(PostApproval (approval id_a true None), run_env 1 None)] in
  referenced db_a /\ referenced (serve uuid_shape ilike_contains rqs db_a).
Proof.
  assert (referenced db_a) as H by (intros a []).
  split; [exact H|].
  exact (approvals_reference_decisions uuid_shape ilike_contains _ db_a H).
Defined.

(** The objective edge of the stored decision. *)
Lemma edge_keys_bounded_witness :
  In (Source.objective, "ship", "PROCEED") (approval_edges id_a decision_a) /\
  (String.length "ship" <= 200)%nat /\
  ((String.length (Decision.objective decision_a) <= 200)%nat ->
   "ship" = Decision.objective decision_a).
Proof.
  assert (In (Source.objective, "ship", "PROCEED") (approval_edges id_a decision_a)) as H
    by (do 4 right; left; reflexivity).
  split; [exact H|].
  exact (proj2 (edge_keys_bounded id_a decision_a Source.objective "ship" "PROCEED" H)
           eq_refl).
Defined.

(** Two spellings of the same text. *)
Lemma extract_case_insensitive_witness :
  Js.toUpperCase "halt now" = Js.toUpperCase "HALT NOW" /\
  extractRecommendationType "halt now" = extractRecommendationType "HALT NOW".
Proof.
  split; [reflexivity|].
  exact (extract_case_insensitive "halt now" "HALT NOW" eq_refl).
Defined.

(** A text that starts with DEFER. *)
Lemma extract_of_typed_text_witness :
  In "DEFER" recommendation_types /\
  extractRecommendationType ("DEFER" ++ " until Q3") = "DEFER".
Proof.
  assert (In "DEFER" recommendation_types) as H by (right; left; reflexivity).
  split; [exact H|].
  exact (proj1 (extract_of_typed_text "x") "DEFER" " until Q3" H).
Defined.



(** The store with one decision, after a second one is stored. *)
Lemma decisions_stay_keyed_and_valid_witness :
  let rqs := [(PostDecision (new_decision id_b "other" "PROCEED: other" 20),
               run_env 1 None)] in
  NoDup (map Decision.id (decisions db_a)) /\
  Forall (valid_decision uuid_shape) (decisions db_a) /\
  NoDup (map Decision.id (decisions (serve uuid_shape ilike_contains rqs db_a))) /\
  Forall (valid_decision uuid_shape)
    (decisions (serve uuid_shape ilike_contains rqs db_a)).
Proof.
  assert (NoDup (map Decision.id (decisions db_a))) as H1
    by (constructor; [intros [] | constructor]).
  assert (Forall (valid_decision uuid_shape) (decisions db_a)) as H2.
  { constructor; [|constructor].
    unfold valid_decision. cbn.
    split; [exists id_a; split; reflexivity|].
    repeat split; try reflexivity; lia. }
  split; [exact H1|]. split; [exact H2|].
  exact (decisions_stay_keyed_and_valid uuid_shape ilike_contains _ db_a H1 H2).
Defined.


(** The same decision sent twice. *)
Lemma createDecision_idempotent_witness :
  let b := new_decision id_b "other" "PROCEED: other" 20 in
  let d := snd (createDecisionHandler uuid_shape b (run_env 1 None) db_a) in
  status (fst (createDecisionHandler uuid_shape b (run_env 1 None) db_a)) = 201 /\
  snd (createDecisionHandler uuid_shape b (run_env 2 None) d) = d.
Proof.
  split; [reflexivity|].
  exact (createDecision_idempotent uuid_shape
           (new_decision id_b "other" "PROCEED: other" 20)
           (run_env 1 None) (run_env 2 None) db_a eq_refl).
Defined.

(** An approval of a decision that is not stored changes nothing. *)
Lemma requests_frame_witness :
  let out := handle uuid_shape ilike_contains (PostApproval (approval id_b true None))
               (run_env 1 None) db_a in
  (status (fst out) = 400 \/ status (fst out) = 404) /\ snd out = db_a.
Proof.
  assert (status (fst (handle uuid_shape ilike_contains
                         (PostApproval (approval id_b true None))
                         (run_env 1 None) db_a)) = 400 \/
          status (fst (handle uuid_shape ilike_contains
                         (PostApproval (approval id_b true None))
                         (run_env 1 None) db_a)) = 404) as H
    by (right; reflexivity).
  split; [exact H|].
  exact (proj2 (requests_frame uuid_shape ilike_contains
                  (PostApproval (approval id_b true None)) (run_env 1 None) db_a) H).
Defined.

(** A filtered listing of the store with one decision. *)
Lemma listing_members_witness :
  let out := listDecisionsHandler ilike_contains shi_page (run_env 1 None) db_a in
  status (fst out) = 200 /\
  exists r,
    body (fst out) = ListBody r /\
    (forall dec, In dec (data r) ->
       In dec (decisions db_a) /\
       whereClause ilike_contains (q_objective shi_page) dec = true) /\
    0 <= total r <= Z.of_nat (List.length (decisions db_a)).
Proof.
  split; [reflexivity|].
  exact (listing_members ilike_contains shi_page (run_env 1 None) db_a eq_refl).
Defined.


(** A filter of two spaces. *)
Lemma blank_filter_lists_all_witness :
  blank "  " = true /\
  listDecisionsHandler ilike_contains
    {| q_objective := Some "  "; q_limit := None; q_offset := None |}
    (run_env 1 None) db_a =
  listDecisionsHandler ilike_contains
    {| q_objective := None; q_limit := None; q_offset := None |}
    (run_env 1 None) db_a.
Proof.
  split; [reflexivity|].
  exact (blank_filter_lists_all ilike_contains "  " None None (run_env 1 None) db_a
           eq_refl).
Defined.

(** A listing of the store of [restated_scenario] after one more
    approval of the first decision, which is then joined to two rows of
    the ledger. *)
Lemma listing_page_size_witness :
  let d := serve uuid_shape ilike_contains
             (restated_scenario ++
              [(PostApproval (approval id_a true None), run_env 5 None)]) empty_db in
  let out := listDecisionsHandler ilike_contains list_all (run_env 6 None) d in
  status (fst out) = 200 /\
  exists r,
    body (fst out) = ListBody r /\
    Z.of_nat (List.length (data r)) =
      Z.max 0 (Z.min (limit r)
                 (Z.of_nat (List.length (joined_rows ilike_contains None d)) - offset r)) /\
    total r <= Z.of_nat (List.length (joined_rows ilike_contains None d)).
Proof.
  cbn zeta. split; [reflexivity|].
  destruct (listing_page_size ilike_contains list_all (run_env 6 None)
              (serve uuid_shape ilike_contains
                 (restated_scenario ++
                  [(PostApproval (approval id_a true None), run_env 5 None)]) empty_db)
              eq_refl) as (r & Hb & Hlen & _ & Htot & _).
  exists r. split; [exact Hb|]. split; [exact Hlen | exact Htot].
Defined.


(** Five failures with successes between them open the circuit of a
    client whose threshold is 5. *)
Lemma breaker_opens_at_threshold_witness :
  let events := [(false, 1); (true, 2); (false, 3); (false, 4); (true, 5);
                 (false, 6); (false, 7)] in
  VectorClient.circuitState sample_client = VectorClient.CLOSED /\
  VectorClient.failureCount sample_client = 0 /\
  0 < VectorClient.CircuitBreakerConfig.threshold
        (VectorClient.circuitConfig sample_client) /\
  VectorClient.failureCount (VectorClient.record events sample_client) = 5 /\
  VectorClient.lastFailureTime (VectorClient.record events sample_client) = 7.
Proof.
  assert (0 < VectorClient.CircuitBreakerConfig.threshold
                (VectorClient.circuitConfig sample_client)) as H by reflexivity.
  do 2 (split; [reflexivity|]). split; [exact H|].
  destruct (breaker_opens_at_threshold
              [(false, 1); (true, 2); (false, 3); (false, 4); (true, 5);
               (false, 6); (false, 7)] sample_client eq_refl eq_refl H)
    as (H1 & H2 & _).
  split; [exact H1 | exact H2].
Defined.

(** A query one second after the circuit opened. *)
Lemma open_circuit_gate_witness :
  VectorClient.circuitState open_client = VectorClient.OPEN /\
  VectorClient.Query <> VectorClient.Connect /\
  clock_from 2000 1 - VectorClient.lastFailureTime open_client
    < VectorClient.CircuitBreakerConfig.timeout (VectorClient.circuitConfig open_client) /\
  VectorClient.run (VectorClient.call VectorClient.Query) (clock_from 2000) open_client =
    (inl VectorClient.circuit_open, open_client).
Proof.
  assert (VectorClient.Query <> VectorClient.Connect) as K by discriminate.
  assert (clock_from 2000 1 - VectorClient.lastFailureTime open_client
          < VectorClient.CircuitBreakerConfig.timeout
              (VectorClient.circuitConfig open_client)) as H by reflexivity.
  split; [reflexivity|]. split; [exact K|]. split; [exact H|].
  exact (proj1 (open_circuit_gate VectorClient.Query (clock_from 2000) open_client
                  eq_refl K) H).
Defined.

(** A connection, an upsert and a ping on a new client. *)
Lemma calls_never_fail_witness :
  let calls := [ (VectorClient.Connect, clock_from 0);
                 (VectorClient.Upsert "decisions" id_a, clock_from 10);
                 (VectorClient.Ping, clock_from 20) ] in
  VectorClient.circuitState sample_client = VectorClient.CLOSED /\
  forallb VectorClient.returned (fst (VectorClient.session calls sample_client)) = true /\
  VectorClient.circuitState (snd (VectorClient.session calls sample_client)) =
    VectorClient.CLOSED.
Proof.
  split; [reflexivity|].
  exact (proj2 (proj2 (proj2 (proj2
           (calls_never_fail
              [ (VectorClient.Connect, clock_from 0);
                (VectorClient.Upsert "decisions" id_a, clock_from 10);
                (VectorClient.Ping, clock_from 20) ] sample_client)))) eq_refl).
Defined.

(** A probe that fails at the instant 40000, and a query one second
    later. *)
Lemma failed_probe_reopens_witness :
  let c' := snd (VectorClient.run VectorClient.recordFailure (fun _ => 40000)
                   probing_client) in
  VectorClient.circuitState probing_client = VectorClient.HALF_OPEN /\
  VectorClient.guarded VectorClient.Query = true /\
  clock_from 41000 (VectorClient.check_reading VectorClient.Query) - 40000
    < VectorClient.CircuitBreakerConfig.timeout
        (VectorClient.circuitConfig probing_client) /\
  c' = VectorClient.set_circuit VectorClient.OPEN 6 40000 probing_client /\
  VectorClient.run (VectorClient.call VectorClient.Query) (clock_from 41000) c' =
    (inl VectorClient.circuit_open, c').
Proof.
  assert (clock_from 41000 (VectorClient.check_reading VectorClient.Query) - 40000
          < VectorClient.CircuitBreakerConfig.timeout
              (VectorClient.circuitConfig probing_client)) as H by reflexivity.
  do 2 (split; [reflexivity|]). split; [exact H|].
  exact (failed_probe_reopens VectorClient.Query 40000 (clock_from 41000)
           probing_client eq_refl eq_refl H).
Defined.

(** An environment with the service URL, a port and a threshold that
    starts with 3. *)
Lemma config_loads_exactly_when_witness :
  exists cfg,
    Config.config sample_env = inr cfg /\
    sample_env "RUVVECTOR_SERVICE_URL" =
      Some (Config.RuvVector.serviceUrl (Config.ruvVector cfg)) /\
    Config.port cfg = 8080 /\
    VectorClient.CircuitBreakerConfig.threshold (Config.circuitBreaker cfg) = 3.
Proof.
  eexists. split; [reflexivity|].
  split; [|split; reflexivity].
  exact (proj1 (proj2 (config_loads_exactly_when sample_env) _ eq_refl)).
Defined.
